(** * aws-cloudtrail2plaso: a shallow embedding and its properties

    The script reads CloudTrail logs (JSON, JSON Lines, gzip of either) from
    a directory, merges the records in a dict keyed by [eventID], converts
    each record to a Plaso event and writes the events as JSON Lines, in
    files of at most 500000 lines.

    Conventions of the embedding.
    - A Python [str] is a list of code points ([list N]).
    - A Python value is a [json]: None, bool, int, str, list and dict with
      str keys, which is what [json.loads] builds.  [float] is not embedded:
      [json_loads] raises [NotModelled] on a float literal.
    - An exception is a value [Raise e]; the code has no [try], so the first
      exception ends the run.
    - The file system is a state threaded through the Writer; an exception
      leaves the state reached so far.
    - The interpreter's recursion limit and its limit on the number of
      digits of an int literal are not modelled.  Paths follow [posixpath]. *)

From Stdlib Require Import Ascii String.
From Stdlib Require Import List ZArith NArith Bool Lia.
From Stdlib Require Import Permutation.
From Stdlib Require Finite.
From Stdlib Require Import DecimalString DecimalZ DecimalN DecimalPos.
Import ListNotations.

Local Open Scope N_scope.

(* ================================================================= *)
(** ** Text *)

Definition str := list N.

Definition str_eq_dec : forall a b : str, {a = b} + {a <> b} :=
  list_eq_dec N.eq_dec.

(** A literal of the source, as code points. *)
Definition lit (s : string) : str :=
  map N_of_ascii (list_ascii_of_string s).

(** JSON text for examples: written with the apostrophe where the text has
    the double quote (code point 34). *)
Definition jtext (s : string) : str :=
  map (fun c => if c =? 39 then 34 else c) (lit s).

(** [s.startswith(p)] *)
Fixpoint startswith (p s : str) : bool :=
  match p, s with
  | [], _ => true
  | a :: p', b :: s' => (a =? b) && startswith p' s'
  | _ :: _, [] => false
  end.

(** [s.endswith(p)] *)
Definition endswith (s p : str) : bool :=
  startswith (rev p) (rev s).

(** [s.replace(old, new)] for a one-character [old]. *)
Definition replace1 (old : N) (new : str) (s : str) : str :=
  flat_map (fun c => if c =? old then new else [c]) s.

(** [s[:-k]] *)
Definition drop_last (k : nat) (s : str) : str :=
  firstn (length s - k) s.

(* ================================================================= *)
(** ** Exceptions *)

Inductive exn : Type :=
| KeyError | TypeError | AttributeError | ValueError | JSONDecodeError
| RecursionError
| FileNotFoundError | FileExistsError | IsADirectoryError | NotADirectoryError
| NotModelled.

Inductive result (A : Type) : Type :=
| Ok (a : A)
| Raise (e : exn).
Arguments Ok {A} a.
Arguments Raise {A} e.

Definition bind {A B} (m : result A) (k : A -> result B) : result B :=
  match m with
  | Ok a => k a
  | Raise e => Raise e
  end.

Notation "x <- m ;; k" := (bind m (fun x => k))
  (at level 61, m at next level, right associativity).
Notation "' pat <- m ;; k" := (bind m (fun x => match x with pat => k end))
  (at level 61, pat pattern, m at next level, right associativity).

Fixpoint mapM {A B} (f : A -> result B) (l : list A) : result (list B) :=
  match l with
  | [] => Ok []
  | a :: l' => b <- f a ;; bs <- mapM f l' ;; Ok (b :: bs)
  end.

(* ================================================================= *)
(** ** Python dicts: insertion ordered, one entry per key *)

Section Dict.
Context {K V : Type} (eq_dec : forall a b : K, {a = b} + {a <> b}).

Definition dict := list (K * V).

(** [d.get(k)] *)
Fixpoint dict_get (k : K) (d : dict) : option V :=
  match d with
  | [] => None
  | (k', v) :: d' => if eq_dec k k' then Some v else dict_get k d'
  end.

(** [d[k] = v]: an existing key keeps its place and takes the new value,
    a new key goes to the end. *)
Fixpoint dict_set (k : K) (v : V) (d : dict) : dict :=
  match d with
  | [] => [(k, v)]
  | (k', v') :: d' =>
      if eq_dec k k' then (k', v) :: d' else (k', v') :: dict_set k v d'
  end.

Definition dict_values (d : dict) : list V := map snd d.

(** [for k, v in pairs: d[k] = v] *)
Definition insert_all (pairs : list (K * V)) (d : dict) : dict :=
  fold_left (fun d kv => dict_set (fst kv) (snd kv) d) pairs d.
End Dict.

(* ================================================================= *)
(** ** Python values built by [json.loads] *)

Unset Elimination Schemes.
Inductive json : Type :=
| JNull
| JBool (b : bool)
| JInt (z : Z)
| JStr (s : str)
| JArr (l : list json)
| JObj (d : list (str * json)).
Set Elimination Schemes.

(** Induction that reaches the values inside lists and dicts. *)
Fixpoint json_ind (P : json -> Prop)
    (HNull : P JNull) (HBool : forall b, P (JBool b))
    (HInt : forall z, P (JInt z)) (HStr : forall s, P (JStr s))
    (HArr : forall l, Forall P l -> P (JArr l))
    (HObj : forall d, Forall (fun kv => P (snd kv)) d -> P (JObj d))
    (j : json) {struct j} : P j :=
  match j with
  | JNull => HNull
  | JBool b => HBool b
  | JInt z => HInt z
  | JStr s => HStr s
  | JArr l =>
      HArr l ((fix go (l : list json) : Forall P l :=
                 match l with
                 | [] => Forall_nil _
                 | x :: l' =>
                     Forall_cons x
                       (json_ind P HNull HBool HInt HStr HArr HObj x) (go l')
                 end) l)
  | JObj d =>
      HObj d ((fix go (d : list (str * json))
                 : Forall (fun kv => P (snd kv)) d :=
                 match d with
                 | [] => Forall_nil _
                 | kv :: d' =>
                     Forall_cons kv
                       (json_ind P HNull HBool HInt HStr HArr HObj (snd kv))
                       (go d')
                 end) d)
  end.

Definition jget (k : str) (d : list (str * json)) : option json :=
  dict_get str_eq_dec k d.

Definition jset (k : str) (v : json) (d : list (str * json)) :=
  dict_set str_eq_dec k v d.

(** [obj[key]] for a str [key] *)
Definition getitem (obj : json) (key : str) : result json :=
  match obj with
  | JObj d => match jget key d with
              | Some v => Ok v
              | None => Raise KeyError
              end
  | _ => Raise TypeError
  end.

(** [obj.get(key, default)]; only a dict has the method. *)
Definition get_default (obj : json) (key : str) (default : json) : result json :=
  match obj with
  | JObj d => match jget key d with
              | Some v => Ok v
              | None => Ok default
              end
  | _ => Raise AttributeError
  end.

(** The items a [for] loop (or [len]) sees in a value: the elements of a
    list, the keys of a dict, the characters of a str. *)
Definition iterate (obj : json) : result (list json) :=
  match obj with
  | JArr l => Ok l
  | JObj d => Ok (map (fun kv => JStr (fst kv)) d)
  | JStr s => Ok (map (fun c => JStr [c]) s)
  | _ => Raise TypeError
  end.

(* ================================================================= *)
(** ** [json.loads]

    The decoder of the standard library, as the script calls it (strict
    mode, no hooks): [scanstring], [JSONObject], [JSONArray] and the
    scanner's [scan_once].  Every decoding failure is a [JSONDecodeError]. *)

Definition is_ws (c : N) : bool :=
  (c =? 32) || (c =? 9) || (c =? 10) || (c =? 13).

Fixpoint skip_ws (s : str) : str :=
  match s with
  | c :: r => if is_ws c then skip_ws r else s
  | [] => []
  end.

Definition is_digit (c : N) : bool := (48 <=? c) && (c <=? 57).

Definition hexval (c : N) : option N :=
  if (48 <=? c) && (c <=? 57) then Some (c - 48)
  else if (97 <=? c) && (c <=? 102) then Some (c - 87)
  else if (65 <=? c) && (c <=? 70) then Some (c - 55)
  else None.

Definition hex4 (a b c d : N) : option N :=
  match hexval a, hexval b, hexval c, hexval d with
  | Some x, Some y, Some z, Some w => Some (((x * 16 + y) * 16 + z) * 16 + w)
  | _, _, _, _ => None
  end.

(** BACKSLASH of json.decoder *)
Definition backslash (c : N) : option N :=
  if c =? 34 then Some 34          (* quote *)
  else if c =? 92 then Some 92     (* backslash *)
  else if c =? 47 then Some 47     (* / *)
  else if c =? 98 then Some 8      (* b *)
  else if c =? 102 then Some 12    (* f *)
  else if c =? 110 then Some 10    (* n *)
  else if c =? 114 then Some 13    (* r *)
  else if c =? 116 then Some 9     (* t *)
  else None.

Definition is_high_surrogate (u : N) : bool := (55296 <=? u) && (u <=? 56319).
Definition is_low_surrogate (u : N) : bool := (56320 <=? u) && (u <=? 57343).

Definition join_surrogates (u u2 : N) : N :=
  65536 + N.lor (N.shiftl (u - 55296) 10) (u2 - 56320).

Definition cons_char (c : N) (r : result (str * str)) : result (str * str) :=
  '(v, rest) <- r ;; Ok (c :: v, rest).

(** [scanstring(s, end)], [s] being the text after the opening quote:
    the string's value and the text after the closing quote. *)
Fixpoint scanstring (s : str) : result (str * str) :=
  match s with
  | [] => Raise JSONDecodeError
  | c :: r =>
      if c =? 34 then Ok ([], r)
      else if c =? 92 then
        match r with
        | [] => Raise JSONDecodeError
        | e :: r1 =>
            if e =? 117 then
              match r1 with
              | h1 :: h2 :: h3 :: h4 :: r2 =>
                  match hex4 h1 h2 h3 h4 with
                  | None => Raise JSONDecodeError
                  | Some uni =>
                      match r2 with
                      | b :: u :: g1 :: g2 :: g3 :: g4 :: r3 =>
                          if is_high_surrogate uni && (b =? 92) && (u =? 117)
                          then
                            match hex4 g1 g2 g3 g4 with
                            | None => Raise JSONDecodeError
                            | Some uni2 =>
                                if is_low_surrogate uni2
                                then cons_char (join_surrogates uni uni2)
                                       (scanstring r3)
                                else cons_char uni (scanstring r2)
                            end
                          else cons_char uni (scanstring r2)
                      | _ => cons_char uni (scanstring r2)
                      end
                  end
              | _ => Raise JSONDecodeError
              end
            else
              match backslash e with
              | Some ch => cons_char ch (scanstring r1)
              | None => Raise JSONDecodeError
              end
        end
      else if c <? 32 then Raise JSONDecodeError
      else cons_char c (scanstring r)
  end.

Fixpoint span_digits (s : str) : str * str :=
  match s with
  | c :: r => if is_digit c
              then let (ds, rest) := span_digits r in (c :: ds, rest)
              else ([], s)
  | [] => ([], [])
  end.

(** NUMBER_RE: the integer part, whether a fraction or an exponent follows
    it, and the text after the number. *)
Definition match_number (s : str) : option (str * bool * str) :=
  let (sign, s1) := match s with
                    | c :: r => if c =? 45 then ([45], r) else ([], s)
                    | [] => ([], s)
                    end in
  match s1 with
  | d :: r =>
      let int_part :=
        if d =? 48 then Some ([d], r)
        else if is_digit d
             then let (ds, rest) := span_digits r in Some (d :: ds, rest)
             else None in
      match int_part with
      | None => None
      | Some (ds, rest) =>
          let (has_frac, rest1) :=
            match rest with
            | p :: d1 :: r1 =>
                if (p =? 46) && is_digit d1
                then (true, snd (span_digits (d1 :: r1)))
                else (false, rest)
            | _ => (false, rest)
            end in
          let after_e (r2 : str) :=
            match r2 with
            | d2 :: _ => if is_digit d2
                         then Some (snd (span_digits r2)) else None
            | [] => None
            end in
          let (has_exp, rest2) :=
            match rest1 with
            | e :: r2 =>
                if (e =? 101) || (e =? 69) then
                  let r3 := match r2 with
                            | sg :: r3 =>
                                if (sg =? 45) || (sg =? 43) then r3 else r2
                            | [] => r2
                            end in
                  match after_e r3 with
                  | Some rest2 => (true, rest2)
                  | None => (false, rest1)
                  end
                else (false, rest1)
            | [] => (false, rest1)
            end in
          Some ((sign ++ ds)%list, has_frac || has_exp, rest2)
      end
  | [] => None
  end.

(** [int(text)] for a text that [match_number] took as an integer. *)
Definition int_of_digits (ds : str) : Z :=
  fold_left (fun acc c => (10 * acc + Z.of_N (c - 48))%Z) ds 0%Z.

Definition parse_int (text : str) : Z :=
  match text with
  | c :: r => if c =? 45 then (- int_of_digits r)%Z else int_of_digits text
  | [] => 0%Z
  end.

Section Containers.
(** [scan_once] for the values inside a container. *)
Variable scan : str -> result (json * str).

(** The loop of [JSONArray]; [s] starts at a value. *)
Fixpoint array_values (n : nat) (acc : list json) (s : str)
  : result (json * str) :=
  match n with
  | O => Raise JSONDecodeError
  | S n' =>
      '(value, rest) <- scan s ;;
      match skip_ws rest with
      | c :: r =>
          if c =? 93 then Ok (JArr (acc ++ [value]), r)
          else if c =? 44 then array_values n' (acc ++ [value]) (skip_ws r)
          else Raise JSONDecodeError
      | [] => Raise JSONDecodeError
      end
  end.

(** [JSONArray(s_and_end, scan_once)], [s] being the text after the
    bracket. *)
Definition JSONArray (s : str) : result (json * str) :=
  match skip_ws s with
  | c :: r =>
      if c =? 93 then Ok (JArr [], r)
      else array_values (length s) [] (skip_ws s)
  | [] => Raise JSONDecodeError
  end.

(** The loop of [JSONObject]; [s] is the text after the quote that opens
    a key. *)
Fixpoint object_pairs (n : nat) (acc : list (str * json)) (s : str)
  : result (json * str) :=
  match n with
  | O => Raise JSONDecodeError
  | S n' =>
      '(key, rest) <- scanstring s ;;
      match skip_ws rest with
      | c :: r =>
          if c =? 58 then
            '(value, rest1) <- scan (skip_ws r) ;;
            let acc' := jset key value acc in
            match skip_ws rest1 with
            | c1 :: r1 =>
                if c1 =? 125 then Ok (JObj acc', r1)
                else if c1 =? 44 then
                  match skip_ws r1 with
                  | q :: r2 =>
                      if q =? 34 then object_pairs n' acc' r2
                      else Raise JSONDecodeError
                  | [] => Raise JSONDecodeError
                  end
                else Raise JSONDecodeError
            | [] => Raise JSONDecodeError
            end
          else Raise JSONDecodeError
      | [] => Raise JSONDecodeError
      end
  end.

(** [JSONObject(s_and_end, ...)], [s] being the text after the brace. *)
Definition JSONObject (s : str) : result (json * str) :=
  match skip_ws s with
  | c :: r =>
      if c =? 125 then Ok (JObj [], r)
      else if c =? 34 then object_pairs (length s) [] r
      else Raise JSONDecodeError
  | [] => Raise JSONDecodeError
  end.
End Containers.

(** [scan_once(string, idx)]; [depth] bounds the nesting of containers. *)
Fixpoint scan_once (depth : nat) (s : str) : result (json * str) :=
  match depth with
  | O => Raise RecursionError
  | S depth' =>
      match s with
      | [] => Raise JSONDecodeError
      | c :: r =>
          if c =? 34 then '(v, rest) <- scanstring r ;; Ok (JStr v, rest)
          else if c =? 123 then JSONObject (scan_once depth') r
          else if c =? 91 then JSONArray (scan_once depth') r
          else if startswith (lit "null") s then Ok (JNull, skipn 4 s)
          else if startswith (lit "true") s then Ok (JBool true, skipn 4 s)
          else if startswith (lit "false") s then Ok (JBool false, skipn 5 s)
          else
            match match_number s with
            | Some (text, is_float, rest) =>
                if is_float then Raise NotModelled
                else Ok (JInt (parse_int text), rest)
            | None =>
                if startswith (lit "NaN") s
                   || startswith (lit "Infinity") s
                   || startswith (lit "-Infinity") s
                then Raise NotModelled
                else Raise JSONDecodeError
            end
      end
  end.

(** [json.loads(s)] *)
Definition json_loads (s : str) : result json :=
  if startswith [65279] s then Raise JSONDecodeError
  else
    '(obj, rest) <- scan_once (S (length s)) (skip_ws s) ;;
    match skip_ws rest with
    | [] => Ok obj
    | _ :: _ => Raise JSONDecodeError
    end.

(* ================================================================= *)
(** ** [json.dumps]

    The encoder with its defaults: [ensure_ascii], separators [", "] and
    [": "], no indentation. *)

Definition hexdigit (n : N) : N := if n <? 10 then 48 + n else 87 + n.

(** ['{0:04x}'.format(n)] for [n < 65536] *)
Definition hex4_of (n : N) : str :=
  [hexdigit (n / 4096 mod 16); hexdigit (n / 256 mod 16);
   hexdigit (n / 16 mod 16); hexdigit (n mod 16)].

Definition u_escape (n : N) : str := 92 :: 117 :: hex4_of n.

(** The replacement of one character in [encode_basestring_ascii]. *)
Definition escape_char (c : N) : str :=
  if c =? 92 then [92; 92]
  else if c =? 34 then [92; 34]
  else if c =? 8 then [92; 98]
  else if c =? 12 then [92; 102]
  else if c =? 10 then [92; 110]
  else if c =? 13 then [92; 114]
  else if c =? 9 then [92; 116]
  else if (32 <=? c) && (c <=? 126) then [c]
  else if c <? 65536 then u_escape c
  else
    let n := c - 65536 in
    let s1 := N.lor 55296 (N.land (N.shiftr n 10) 1023) in
    let s2 := N.lor 56320 (N.land n 1023) in
    (u_escape s1 ++ u_escape s2)%list.

Definition encode_basestring_ascii (s : str) : str :=
  ([34] ++ flat_map escape_char s ++ [34])%list.

Fixpoint digits_of_uint (u : Decimal.uint) : str :=
  match u with
  | Decimal.Nil => []
  | Decimal.D0 u => 48 :: digits_of_uint u
  | Decimal.D1 u => 49 :: digits_of_uint u
  | Decimal.D2 u => 50 :: digits_of_uint u
  | Decimal.D3 u => 51 :: digits_of_uint u
  | Decimal.D4 u => 52 :: digits_of_uint u
  | Decimal.D5 u => 53 :: digits_of_uint u
  | Decimal.D6 u => 54 :: digits_of_uint u
  | Decimal.D7 u => 55 :: digits_of_uint u
  | Decimal.D8 u => 56 :: digits_of_uint u
  | Decimal.D9 u => 57 :: digits_of_uint u
  end.

(** [int.__repr__], also what an f-string prints for an int. *)
Definition repr_int (z : Z) : str :=
  match Z.to_int z with
  | Decimal.Pos u => digits_of_uint u
  | Decimal.Neg u => 45 :: digits_of_uint u
  end.

(** [sep.join(parts)] *)
Fixpoint join (sep : str) (parts : list str) : str :=
  match parts with
  | [] => []
  | [p] => p
  | p :: ps => (p ++ sep ++ join sep ps)%list
  end.

Fixpoint json_dumps (j : json) : str :=
  match j with
  | JNull => lit "null"
  | JBool true => lit "true"
  | JBool false => lit "false"
  | JInt z => repr_int z
  | JStr s => encode_basestring_ascii s
  | JArr l => ([91] ++ join (lit ", ") (map json_dumps l) ++ [93])%list
  | JObj d =>
      ([123] ++
       join (lit ", ")
         (map (fun kv : str * json => let (k, v) := kv in
                 (encode_basestring_ascii k ++ lit ": " ++ json_dumps v)%list)
              d) ++
       [125])%list
  end.

(* ================================================================= *)
(** ** Decoder: the three readers

    A file is given by its path and its text: the characters of the file
    (for a gzip file, of the decompressed stream), before the translation of
    line ends that reading in text mode applies. *)

(** Reading in text mode with the default [newline=None]. *)
Fixpoint universal_newlines (s : str) : str :=
  match s with
  | [] => []
  | c :: r =>
      if c =? 13 then
        match r with
        | c' :: r' => if c' =? 10 then 10 :: universal_newlines r'
                      else 10 :: universal_newlines r
        | [] => [10]
        end
      else c :: universal_newlines r
  end.

(** [for line in f]: the lines, each with its line end. *)
Fixpoint file_lines (s : str) : list str :=
  match s with
  | [] => []
  | c :: r =>
      if c =? 10 then [c] :: file_lines r
      else match file_lines r with
           | [] => [[c]]
           | l :: ls => (c :: l) :: ls
           end
  end.

(** The line boundaries of [str.splitlines]. *)
Definition is_linebreak (c : N) : bool :=
  (c =? 10) || (c =? 13) || (c =? 11) || (c =? 12) || (c =? 28) ||
  (c =? 29) || (c =? 30) || (c =? 133) || (c =? 8232) || (c =? 8233).

(** [content.splitlines()]: the lines, without their line ends. *)
Fixpoint splitlines (s : str) : list str :=
  match s with
  | [] => []
  | c :: r =>
      if is_linebreak c then
        match r with
        | c' :: r' => if (c =? 13) && (c' =? 10) then [] :: splitlines r'
                      else [] :: splitlines r
        | [] => [[]]
        end
      else match splitlines r with
           | [] => [[c]]
           | l :: ls => (c :: l) :: ls
           end
  end.

Definition Records_key : str := lit "Records".

Definition read_json_file (text : str) : result json :=
  json_loads (universal_newlines text).

Definition read_jsonl_file (text : str) : result json :=
  records <- mapM json_loads (file_lines (universal_newlines text)) ;;
  Ok (JObj [(Records_key, JArr records)]).

Definition read_gz_file (file_path : str) (text : str) : result json :=
  let content := universal_newlines text in
  if endswith file_path (lit ".jsonl.gz") then
    records <- mapM json_loads (splitlines content) ;;
    Ok (JObj [(Records_key, JArr records)])
  else json_loads content.

(* ================================================================= *)
(** ** Aggregator: [read_files_from_directory] *)

(** The keys of [all_records]: the hashable values a record can have under
    [eventID].  [True] and [1] are the same key, so are [False] and [0]. *)
Inductive pykey : Type :=
| KNone
| KInt (z : Z)
| KStr (s : str).

Definition pykey_eq_dec : forall a b : pykey, {a = b} + {a <> b}.
Proof.
  decide equality; [apply Z.eq_dec | apply str_eq_dec].
Defined.

Definition hashable (v : json) : result pykey :=
  match v with
  | JNull => Ok KNone
  | JBool b => Ok (KInt (if b then 1 else 0)%Z)
  | JInt z => Ok (KInt z)
  | JStr s => Ok (KStr s)
  | JArr _ | JObj _ => Raise TypeError
  end.

Definition index := list (pykey * json).

(** [record['eventID']] as a dict key *)
Definition event_key (record : json) : result pykey :=
  eid <- getitem record (lit "eventID") ;; hashable eid.

(** [for record in records: all_records[record['eventID']] = record] *)
Fixpoint insert_records (all_records : index) (records : list json)
  : result index :=
  match records with
  | [] => Ok all_records
  | record :: rest =>
      k <- event_key record ;;
      insert_records (dict_set pykey_eq_dec k record all_records) rest
  end.

(** The dispatch on the extension; [None] is the [continue] branch. *)
Definition decode (file_path text : str) : option (result json) :=
  if endswith file_path (lit ".json") then
    Some (d <- read_json_file text ;; getitem d Records_key)
  else if endswith file_path (lit ".jsonl") then
    Some (d <- read_jsonl_file text ;; getitem d Records_key)
  else if endswith file_path (lit ".gz") then
    Some (d <- read_gz_file file_path text ;; getitem d Records_key)
  else None.

(** The second loop: the index and [total_records] after the files. *)
Fixpoint process_files (file_paths : list (str * str))
    (all_records : index) (total_records : Z) : result (index * Z) :=
  match file_paths with
  | [] => Ok (all_records, total_records)
  | (file_path, text) :: rest =>
      match decode file_path text with
      | None => process_files rest all_records total_records
      | Some decoded =>
          records <- decoded ;;
          items <- iterate records ;;
          all_records' <- insert_records all_records items ;;
          process_files rest all_records'
            (total_records + Z.of_nat (length items))%Z
      end
  end.

(** What the function prints at the end and what it returns. *)
Record aggregate : Type := {
  total_records : Z;
  unique_records : Z;
  duplicates_removed : Z;
  returned : json
}.

(** The records of the returned dict, [result['Records']]. *)
Definition Records (a : aggregate) : list json :=
  match returned a with
  | JObj [(_, JArr l)] => l
  | _ => []
  end.

(** [read_files_from_directory], on the files that [os.walk] lists, in the
    order of the walk. *)
Definition read_files_from_directory (file_paths : list (str * str))
  : result aggregate :=
  '(all_records, total) <- process_files file_paths [] 0%Z ;;
  let unique := Z.of_nat (length all_records) in
  Ok {| total_records := total;
        unique_records := unique;
        duplicates_removed := (total - unique)%Z;
        returned := JObj [(Records_key, JArr (dict_values all_records))] |}.

(* ================================================================= *)
(** ** Normalizer: the event time

    [datetime.strptime(s, '%Y-%m-%dT%H:%M:%SZ')]: the format is compiled to
    the regular expression
    [(\d\d\d\d)-(1[0-2]|0[1-9]|[1-9])-(3[0-1]|[1-2]\d|0[1-9]|[1-9]| [1-9])T
     (2[0-3]|[0-1]\d|\d):([0-5]\d|\d):(6[0-1]|[0-5]\d|\d)Z], matched at the
    start of the text without regard to case; the whole text must be used,
    and the fields must make a date and a time of day.  The digits and the
    case folding of Unicode are not embedded: a text with a character
    outside ASCII raises [NotModelled]. *)

Definition between (lo hi : N) (c : N) : bool := (lo <=? c) && (c <=? hi).

(** An alternative of a field: one character of a class, or two. *)
Inductive alt : Type :=
| One (p : N -> bool)
| Two (p q : N -> bool).

(** A letter or sign of the format matches itself and, for a capital, its
    small letter. *)
Definition lit_match (c a : N) : bool :=
  (a =? c) || (between 65 90 c && (a =? c + 32)).

Section Regex.
Context {A : Type}.

(** First alternative that lets the rest of the expression match. *)
Definition orelse (m1 m2 : option A) : option A :=
  match m1 with
  | Some x => Some x
  | None => m2
  end.

Definition chars1 (p : N -> bool) (s : str) (k : str -> str -> option A)
  : option A :=
  match s with
  | a :: r => if p a then k [a] r else None
  | [] => None
  end.

Definition chars2 (p q : N -> bool) (s : str) (k : str -> str -> option A)
  : option A :=
  match s with
  | a :: b :: r => if p a && q b then k [a; b] r else None
  | _ => None
  end.

(** A group [(a1|a2|...)]: the text it takes goes to the rest of the
    expression [k] with the text that follows. *)
Fixpoint re_alts (alts : list alt) (s : str) (k : str -> str -> option A)
  : option A :=
  match alts with
  | [] => None
  | One p :: rest => orelse (chars1 p s k) (re_alts rest s k)
  | Two p q :: rest => orelse (chars2 p q s k) (re_alts rest s k)
  end.

Definition literal (c : N) (s : str) (k : str -> option A) : option A :=
  match s with
  | a :: r => if lit_match c a then k r else None
  | [] => None
  end.

(** [\d\d\d\d] *)
Definition re_Y (s : str) (k : str -> str -> option A) : option A :=
  match s with
  | a :: b :: c :: d :: r =>
      if is_digit a && is_digit b && is_digit c && is_digit d
      then k [a; b; c; d] r else None
  | _ => None
  end.
End Regex.

(** [1[0-2]|0[1-9]|[1-9]] *)
Definition alts_m : list alt :=
  [Two (N.eqb 49) (between 48 50); Two (N.eqb 48) (between 49 57);
   One (between 49 57)].

(** [3[0-1]|[1-2]\d|0[1-9]|[1-9]| [1-9]] *)
Definition alts_d : list alt :=
  [Two (N.eqb 51) (between 48 49); Two (between 49 50) is_digit;
   Two (N.eqb 48) (between 49 57); One (between 49 57);
   Two (N.eqb 32) (between 49 57)].

(** [2[0-3]|[0-1]\d|\d] *)
Definition alts_H : list alt :=
  [Two (N.eqb 50) (between 48 51); Two (between 48 49) is_digit;
   One is_digit].

(** [[0-5]\d|\d] *)
Definition alts_M : list alt :=
  [Two (between 48 53) is_digit; One is_digit].

(** [6[0-1]|[0-5]\d|\d] *)
Definition alts_S : list alt :=
  [Two (N.eqb 54) (between 48 49); Two (between 48 53) is_digit;
   One is_digit].

(** [int(text)] for a field of the match; the day may start with a space. *)
Definition field_int (text : str) : Z :=
  int_of_digits (filter (fun c => negb (c =? 32)) text).

Record datetime : Type := {
  year : Z; month : Z; day : Z; hour : Z; minute : Z; second : Z
}.

(** The match of the format: the fields and the text left over. *)
Definition match_format (s : str) : option (datetime * str) :=
  re_Y s (fun Y s =>
  literal 45 s (fun s =>
  re_alts alts_m s (fun m s =>
  literal 45 s (fun s =>
  re_alts alts_d s (fun d s =>
  literal 84 s (fun s =>
  re_alts alts_H s (fun H s =>
  literal 58 s (fun s =>
  re_alts alts_M s (fun M s =>
  literal 58 s (fun s =>
  re_alts alts_S s (fun S s =>
  literal 90 s (fun rest =>
    Some ({| year := field_int Y; month := field_int m; day := field_int d;
             hour := field_int H; minute := field_int M;
             second := field_int S |}, rest))))))))))))).

Local Open Scope Z_scope.

Definition is_leap (y : Z) : bool :=
  (y mod 4 =? 0) && (negb (y mod 100 =? 0) || (y mod 400 =? 0)).

Definition days_in_month (y m : Z) : Z :=
  if m =? 2 then (if is_leap y then 29 else 28)
  else if (m =? 4) || (m =? 6) || (m =? 9) || (m =? 11) then 30
  else 31.

(** The values the [datetime] constructor takes. *)
Definition valid_datetime (t : datetime) : bool :=
  (1 <=? year t) && (year t <=? 9999) &&
  (1 <=? month t) && (month t <=? 12) &&
  (1 <=? day t) && (day t <=? days_in_month (year t) (month t)) &&
  (0 <=? hour t) && (hour t <=? 23) &&
  (0 <=? minute t) && (minute t <=? 59) &&
  (0 <=? second t) && (second t <=? 59).

Definition is_ascii (c : N) : bool := (c <? 128)%N.

Definition strptime (s : str) : result datetime :=
  if forallb is_ascii s then
    match match_format s with
    | Some (t, []) => if valid_datetime t then Ok t else Raise ValueError
    | _ => Raise ValueError
    end
  else Raise NotModelled.

(** ['%0wd' % n] for [0 <= n] *)
Definition zero_pad (w : nat) (n : Z) : str :=
  let ds := repr_int n in (repeat 48%N (w - length ds) ++ ds)%list.

(** [t.isoformat()] for a time in UTC without microseconds. *)
Definition isoformat (t : datetime) : str :=
  (zero_pad 4 (year t) ++ [45%N] ++ zero_pad 2 (month t) ++ [45%N] ++
   zero_pad 2 (day t) ++ [84%N] ++ zero_pad 2 (hour t) ++ [58%N] ++
   zero_pad 2 (minute t) ++ [58%N] ++ zero_pad 2 (second t) ++
   lit "+00:00")%list.

Definition convert_event_time_to_local (event_time_str : json) : result str :=
  match event_time_str with
  | JStr s =>
      utc_time <- strptime s ;;
      let local_time_str :=
        drop_last 6 (replace1 84 [32%N] (isoformat utc_time)) in
      Ok (local_time_str ++ lit "+00:00")%list
  | _ => Raise TypeError
  end.

(* ================================================================= *)
(** ** Normalizer: [convert_cloudtrail_to_plaso] *)

Definition ascii_lower (c : N) : N :=
  if between 65 90 c then (c + 32)%N else c.

(** [str(v).lower()].  The lower case of a text outside ASCII and the
    [repr] of a list or a dict are not embedded. *)
Definition str_lower (v : json) : result str :=
  match v with
  | JNull => Ok (lit "none")
  | JBool true => Ok (lit "true")
  | JBool false => Ok (lit "false")
  | JInt z => Ok (repr_int z)
  | JStr s => if forallb is_ascii s
              then Ok (map ascii_lower s) else Raise NotModelled
  | JArr _ | JObj _ => Raise NotModelled
  end.

Definition Unknown : json := JStr (lit "Unknown").

(** One item of the list comprehension under ['Resources']. *)
Definition convert_resource (resource : json) : result json :=
  ty <- get_default resource (lit "type") Unknown ;;
  arn <- get_default resource (lit "ARN") Unknown ;;
  Ok (JObj [(lit "ResourceType", ty); (lit "ResourceName", arn)]).

(** [json.dumps(record).replace('\n', '').replace('\t', '').replace(' ', '')] *)
Definition squeeze (record : json) : str :=
  replace1 32 [] (replace1 9 [] (replace1 10 [] (json_dumps record))).

(** The body of the loop: the event of one record. *)
Definition convert_record (record : json) : result json :=
  event_time_utc <- getitem record (lit "eventTime") ;;
  event_time_local <- convert_event_time_to_local event_time_utc ;;
  event_id <- getitem record (lit "eventID") ;;
  event_name <- getitem record (lit "eventName") ;;
  read_only_value <- getitem record (lit "readOnly") ;;
  read_only <- str_lower read_only_value ;;
  identity <- getitem record (lit "userIdentity") ;;
  access_key_id <- get_default identity (lit "accessKeyId") (JStr []) ;;
  event_source <- getitem record (lit "eventSource") ;;
  identity' <- getitem record (lit "userIdentity") ;;
  username <- get_default identity' (lit "userName") (JStr []) ;;
  resources <- get_default record (lit "resources") (JArr []) ;;
  items <- iterate resources ;;
  resources' <- mapM convert_resource items ;;
  Ok (JObj [(lit "EventId", event_id);
            (lit "EventName", event_name);
            (lit "ReadOnly", JStr read_only);
            (lit "AccessKeyId", access_key_id);
            (lit "EventTime", JStr event_time_local);
            (lit "EventSource", event_source);
            (lit "Username", username);
            (lit "Resources", JArr resources');
            (lit "CloudTrailEvent", JStr (squeeze record))]).

Definition convert_cloudtrail_to_plaso (cloudtrail_data : json)
  : result (list json) :=
  records <- getitem cloudtrail_data Records_key ;;
  items <- iterate records ;;
  mapM convert_record items.

(* ================================================================= *)
(** ** The file system

    A path resolves to a node: the list of its names, after an empty name
    when the path is absolute.  The current directory is the node [[]], the
    root is [[[]]]; both always exist.  Links, permissions and the parent of
    the current directory are not embedded: a path with a [..] raises
    [NotModelled]. *)

Definition node := list str.

Definition node_eq_dec : forall a b : node, {a = b} + {a <> b} :=
  list_eq_dec str_eq_dec.

Record filesystem : Type := {
  dirs : list node;
  files : list (node * str)
}.

Definition io (A : Type) : Type := filesystem -> result A * filesystem.

Definition io_ret {A} (a : A) : io A := fun fs => (Ok a, fs).

Definition io_raise {A} (e : exn) : io A := fun fs => (Raise e, fs).

Definition io_bind {A B} (m : io A) (k : A -> io B) : io B :=
  fun fs => match m fs with
            | (Ok a, fs') => k a fs'
            | (Raise e, fs') => (Raise e, fs')
            end.

Notation "x <~ m ;; k" := (io_bind m (fun x => k))
  (at level 61, m at next level, right associativity).
Notation "' pat <~ m ;; k" :=
  (io_bind m (fun x => match x with pat => k end))
  (at level 61, pat pattern, m at next level, right associativity).

Definition slash : N := 47%N.

(** The text up to the first [/] and the text from that [/] on. *)
Fixpoint span_name (s : str) : str * str :=
  match s with
  | [] => ([], [])
  | c :: r => if (c =? slash)%N then ([], s)
              else let (name, rest) := span_name r in (c :: name, rest)
  end.

Fixpoint lstrip_slashes (s : str) : str :=
  match s with
  | c :: r => if (c =? slash)%N then lstrip_slashes r else s
  | [] => []
  end.

(** [posixpath.split(p)] *)
Definition path_split (p : str) : str * str :=
  let (tail_rev, head_rev) := span_name (rev p) in
  let head := rev head_rev in
  (if forallb (N.eqb slash) head then head else rev (lstrip_slashes head_rev),
   rev tail_rev).

(** [os.path.dirname(p)] *)
Definition dirname (p : str) : str := fst (path_split p).

(** The names between the separators of a path. *)
Fixpoint split_slash (s : str) : list str :=
  match s with
  | [] => [[]]
  | c :: r =>
      if (c =? slash)%N then [] :: split_slash r
      else match split_slash r with
           | [] => [[c]]
           | name :: names => (c :: name) :: names
           end
  end.

Definition dot : str := [46%N].
Definition dotdot : str := [46%N; 46%N].

Definition is_name (name : str) : bool :=
  match name with
  | [] => false
  | _ :: _ => if str_eq_dec name dot then false else true
  end.

Definition is_dotdot (name : str) : bool :=
  if str_eq_dec name dotdot then true else false.

Definition resolve (p : str) : result node :=
  let names := split_slash p in
  if existsb is_dotdot names
  then Raise NotModelled
  else Ok ((if startswith [slash] p then [[]] else []) ++
           filter is_name names)%list.

Definition is_dir (fs : filesystem) (n : node) : bool :=
  match n with
  | [] => true
  | [[]] => true
  | _ => if in_dec node_eq_dec n (dirs fs) then true else false
  end.

Definition is_file (fs : filesystem) (n : node) : bool :=
  match dict_get node_eq_dec n (files fs) with
  | Some _ => true
  | None => false
  end.

(** The directories a system call walks through on its way to the last name
    of the node: every one must exist and be a directory. *)
Fixpoint walk (fs : filesystem) (seen : node) (names : list str)
  : result unit :=
  match names with
  | [] => Ok tt
  | [_] => Ok tt
  | name :: rest =>
      let here := (seen ++ [name])%list in
      if is_dir fs here then walk fs here rest
      else if is_file fs here then Raise NotADirectoryError
      else Raise FileNotFoundError
  end.

Definition lift {A} (r : result A) : io A := fun fs => (r, fs).

(** The node of a path for a system call, after the walk to it. *)
Definition lookup (p : str) : io node :=
  match p with
  | [] => io_raise FileNotFoundError
  | _ :: _ =>
      n <~ lift (resolve p) ;;
      fun fs => (_ <- walk fs [] n ;; Ok n, fs)
  end.

(** [os.mkdir(p)] *)
Definition mkdir (p : str) : io unit :=
  n <~ lookup p ;;
  fun fs =>
    if is_dir fs n || is_file fs n then (Raise FileExistsError, fs)
    else (Ok tt, {| dirs := (dirs fs ++ [n])%list; files := files fs |}).

(** [os.path.exists(p)] and [os.path.isdir(p)]: false when the call on the
    path fails. *)
Definition path_exists (p : str) : io bool :=
  fun fs => match lookup p fs with
            | (Ok n, _) => (Ok (is_dir fs n || is_file fs n), fs)
            | (Raise NotModelled, _) => (Raise NotModelled, fs)
            | (Raise _, _) => (Ok false, fs)
            end.

Definition path_isdir (p : str) : io bool :=
  fun fs => match lookup p fs with
            | (Ok n, _) => (Ok (is_dir fs n), fs)
            | (Raise NotModelled, _) => (Raise NotModelled, fs)
            | (Raise _, _) => (Ok false, fs)
            end.

(** The end of [os.makedirs]: [mkdir(name)], where an OSError is passed
    over when [name] is a directory ([exist_ok] is true). *)
Definition mkdir_exist_ok (name : str) : io unit :=
  fun fs => match mkdir name fs with
            | (Ok tt, fs') => (Ok tt, fs')
            | (Raise NotModelled, fs') => (Raise NotModelled, fs')
            | (Raise e, fs') =>
                match path_isdir name fs' with
                | (Ok true, fs'') => (Ok tt, fs'')
                | (Ok false, fs'') => (Raise e, fs'')
                | (Raise e', fs'') => (Raise e', fs'')
                end
            end.

(** The head and the tail [os.makedirs] works with: those of [name], or
    those of its head when [name] ends with a separator. *)
Definition makedirs_split (name : str) : str * str :=
  let (head, tail) := path_split name in
  match tail with
  | [] => path_split head
  | _ :: _ => (head, tail)
  end.

(** [os.makedirs(name, exist_ok=True)]; the recursion goes up the heads of
    the path, [fuel] bounds their number. *)
Fixpoint makedirs (fuel : nat) (name : str) : io unit :=
  match fuel with
  | O => io_raise RecursionError
  | S fuel' =>
      let (head, tail) := makedirs_split name in
      match head, tail with
      | _ :: _, _ :: _ =>
          head_exists <~ path_exists head ;;
          if head_exists then mkdir_exist_ok name
          else
            _ <~ (fun fs => match makedirs fuel' head fs with
                            | (Raise FileExistsError, fs') => (Ok tt, fs')
                            | other => other
                            end) ;;
            if str_eq_dec tail dot then io_ret tt else mkdir_exist_ok name
      | _, _ => mkdir_exist_ok name
      end
  end.

(** [open(p, 'w')]: the file is created or emptied; the handle is its
    node. *)
Definition open_w (p : str) : io node :=
  n <~ lookup p ;;
  fun fs =>
    if is_dir fs n then (Raise IsADirectoryError, fs)
    else if endswith p [slash] then
      (Raise (if is_file fs n then NotADirectoryError else IsADirectoryError),
       fs)
    else (Ok n, {| dirs := dirs fs;
                   files := dict_set node_eq_dec n [] (files fs) |}).

(** [f.write(data)] *)
Definition file_write (f : option node) (data : str) : io unit :=
  match f with
  | None => io_raise AttributeError
  | Some n =>
      fun fs =>
        let old := match dict_get node_eq_dec n (files fs) with
                   | Some text => text
                   | None => []
                   end in
        (Ok tt, {| dirs := dirs fs;
                   files := dict_set node_eq_dec n (old ++ data)%list
                              (files fs) |})
  end.

(* ================================================================= *)
(** ** Chunked Writer: [write_events_to_jsonl] *)

(** The loop over the events, from the values the variables have before an
    event; it gives [output_file] as the loop leaves it. *)
Fixpoint write_loop (output_filepath : str) (multiple_files : bool)
    (events : list json) (file_index line_count : Z)
    (output_file : option node) : io (option node) :=
  match events with
  | [] => io_ret output_file
  | event :: rest =>
      '(file_index', output_file') <~
        (if line_count mod 500000 =? 0 then
           let file_index' := file_index + 1 in
           let current_output_filepath :=
             if multiple_files
             then (output_filepath ++ lit "_part" ++ repr_int file_index')%list
             else output_filepath in
           f <~ open_w current_output_filepath ;;
           io_ret (file_index', Some f)
         else io_ret (file_index, output_file)) ;;
      _ <~ file_write output_file' (json_dumps event ++ [10%N])%list ;;
      write_loop output_filepath multiple_files rest file_index'
        (line_count + 1) output_file'
  end.

Definition write_events_to_jsonl (events : list json) (output_filepath : str)
  : io unit :=
  let target := dirname output_filepath in
  _ <~ makedirs (S (length target)) target ;;
  let multiple_files := Z.of_nat (length events) >? 500000 in
  _ <~ write_loop output_filepath multiple_files events 0 0 None ;;
  io_ret tt.

(* ================================================================= *)
(** ** [main]

    The three steps of [main] on the parsed arguments.  As for
    [read_files_from_directory], the files that [os.walk] lists under
    [args.input_directory] stand for the directory; they are read before
    anything is written.  [argparse] is not embedded. *)

Definition main (input_files : list (str * str)) (output_filepath : str)
  : io unit :=
  cloudtrail_data <~
    lift (a <- read_files_from_directory input_files ;; Ok (returned a)) ;;
  events <~ lift (convert_cloudtrail_to_plaso cloudtrail_data) ;;
  write_events_to_jsonl events output_filepath.

(* ================================================================= *)
(** ** Notions used to state the properties *)

(** The keys of a sequence, each at its first occurrence. *)
Fixpoint first_occurrences (ks : list pykey) : list pykey :=
  match ks with
  | [] => []
  | k :: rest => k :: remove pykey_eq_dec k (first_occurrences rest)
  end.

(** The records that decoding the files hands to the Aggregator, in the
    order of the traversal. *)
Fixpoint decoded_records (file_paths : list (str * str))
  : result (list json) :=
  match file_paths with
  | [] => Ok []
  | (file_path, text) :: rest =>
      match decode file_path text with
      | None => decoded_records rest
      | Some decoded =>
          records <- decoded ;;
          items <- iterate records ;;
          more <- decoded_records rest ;;
          Ok (items ++ more)%list
      end
  end.

(** [r] is the last record of [rs] with its event identifier. *)
Definition last_of_its_key (rs : list json) (r : json) : Prop :=
  exists before after,
    rs = (before ++ r :: after)%list /\
    Forall (fun x => event_key x <> event_key r) after.

(** The number of lines of a text: its line ends. *)
Definition count_lines (text : str) : nat :=
  length (filter (N.eqb 10) text).

(** The text of a file of the file system, if the file exists. *)
Definition file_at (fs : filesystem) (p : str) : option str :=
  match resolve p with
  | Ok n => dict_get node_eq_dec n (files fs)
  | Raise _ => None
  end.

(** The lines the Writer puts in a file for a list of events. *)
Definition lines_of (events : list json) : str :=
  flat_map (fun event => (json_dumps event ++ [10%N])%list) events.

(** The name of the [k]-th part. *)
Definition part_path (output_filepath : str) (k : Z) : str :=
  (output_filepath ++ lit "_part" ++ repr_int k)%list.

(** A key that is not among those seen. *)
Definition unseen (seen : list pykey) (k : pykey) : bool :=
  if in_dec pykey_eq_dec k seen then false else true.

(** A text from its lines, each closed by a line end. *)
Definition text_of_lines (lines : list str) : str :=
  flat_map (fun line => (line ++ [10%N])%list) lines.

(* ================================================================= *)
(** ** Sample inputs *)

Definition record_a : str :=
  jtext "{'eventID': 'a', 'eventTime': '2024-08-12T10:15:30Z', 'eventName': 'Get It', 'readOnly': true, 'userIdentity': {'userName': 'bob'}, 'eventSource': 's3', 'resources': [{'type': 'T'}, {'ARN': 'x y'}, {}]}".

Definition record_b : str :=
  jtext "{'eventID': 'b', 'eventTime': '2024-08-12T10:15:31Z', 'eventName': 'Put', 'readOnly': false, 'userIdentity': {}, 'eventSource': 's3'}".

Definition record_a_again : str :=
  jtext "{'eventID': 'a', 'eventTime': '2024-02-29T23:59:59Z', 'eventName': 'Later', 'readOnly': false, 'userIdentity': {'accessKeyId': 'AK'}, 'eventSource': 'ec2'}".

(** A directory with a JSON Lines file, a file that is skipped and a JSON
    document that repeats the first event identifier. *)
Definition sample_directory : list (str * str) :=
  [(lit "logs/one.jsonl", text_of_lines [record_a; record_b]);
   (lit "logs/notes.txt", lit "not a log");
   (lit "logs/two.json",
    (jtext "{'Records': [" ++ record_a_again ++ jtext "]}")%list)].

Definition sample_records : list json :=
  match decoded_records sample_directory with
  | Ok rs => rs
  | Raise _ => []
  end.

(** A JSON Lines text with an empty line between two records. *)
Definition text_with_empty_line : str :=
  text_of_lines [record_a; []; record_b].

(** A record whose identifier holds U+2028 LINE SEPARATOR, one line. *)
Definition text_with_line_separator : str :=
  text_of_lines
    [(jtext "{'eventID': 'a" ++ [8232%N] ++ jtext "b'}")%list].

(** A step that leaves the files of the file system as they are. *)
Definition keeps_files {A} (m : io A) : Prop :=
  forall fs, files (snd (m fs)) = files fs.

(** [v] when the key is present, the default otherwise. *)
Definition value_or (default : json) (v : option json) : json :=
  match v with
  | Some x => x
  | None => default
  end.

Definition is_object (v : json) : bool :=
  match v with
  | JObj _ => true
  | _ => false
  end.

(** A record as the data model describes it: the six required keys, an
    event time that [strptime] takes, a [readOnly] that [str_lower] renders,
    a mapping under [userIdentity] and, when the key is present, a sequence
    of mappings under [resources]. *)
Definition well_formed_record (fields : list (str * json)) : bool :=
  match jget (lit "eventTime") fields with
  | Some (JStr s) => match strptime s with Ok _ => true | Raise _ => false end
  | _ => false
  end &&
  match jget (lit "eventID") fields with Some _ => true | None => false end &&
  match jget (lit "eventName") fields with Some _ => true | None => false end &&
  match jget (lit "readOnly") fields with
  | Some v => match str_lower v with Ok _ => true | Raise _ => false end
  | None => false
  end &&
  match jget (lit "userIdentity") fields with
  | Some (JObj _) => true
  | _ => false
  end &&
  match jget (lit "eventSource") fields with Some _ => true | None => false end &&
  match jget (lit "resources") fields with
  | None => true
  | Some (JArr l) => forallb is_object l
  | Some _ => false
  end.

(** The entry of [Resources] for a resource mapping. *)
Definition flatten_resource (resource : list (str * json)) : json :=
  JObj [(lit "ResourceType", value_or Unknown (jget (lit "type") resource));
        (lit "ResourceName", value_or Unknown (jget (lit "ARN") resource))].

(** A text without its line ends, tabs and spaces. *)
Definition without_whitespace (text : str) : str :=
  filter (fun c => negb ((c =? 10) || (c =? 9) || (c =? 32))%N) text.

Definition sample_fields : list (str * json) :=
  match json_loads record_a with
  | Ok (JObj fields) => fields
  | _ => []
  end.

Definition sample_fields_b : list (str * json) :=
  match json_loads record_b with
  | Ok (JObj fields) => fields
  | _ => []
  end.

(** The texts a group takes. *)
Definition alt_takes (text : str) (a : alt) : bool :=
  match a, text with
  | One p, [x] => p x
  | Two p q, [x; y] => p x && q y
  | _, _ => false
  end.

Definition alts_text (alts : list alt) (text : str) : bool :=
  existsb (alt_takes text) alts.

(** The second character of a two-character alternative is a digit. *)
Definition digit_seconds (alts : list alt) : Prop :=
  forall p q x, In (Two p q) alts -> q x = true -> is_digit x = true.

(** The fixed format of the event time, [YYYY-MM-DDTHH:MM:SSZ]. *)
Definition fixed_format_text (t : datetime) : str :=
  (zero_pad 4 (year t) ++ [45%N] ++ zero_pad 2 (month t) ++ [45%N] ++
   zero_pad 2 (day t) ++ [84%N] ++ zero_pad 2 (hour t) ++ [58%N] ++
   zero_pad 2 (minute t) ++ [58%N] ++ zero_pad 2 (second t) ++ [90%N])%list.

(** The shape of the fixed format: digits and signs at their places. *)
Definition has_fixed_format (s : str) : bool :=
  match s with
  | [y1; y2; y3; y4; s1; m1; m2; s2; d1; d2; s3; h1; h2; s4; n1; n2; s5;
     c1; c2; s6] =>
      forallb is_digit [y1; y2; y3; y4; m1; m2; d1; d2; h1; h2; n1; n2; c1; c2]
      && (s1 =? 45)%N && (s2 =? 45)%N && (s3 =? 84)%N && (s4 =? 58)%N
      && (s5 =? 58)%N && (s6 =? 90)%N
  | _ => false
  end.

(** The rendering of the event, [YYYY-MM-DD HH:MM:SS+00:00]. *)
Definition plaso_time (t : datetime) : str :=
  (zero_pad 4 (year t) ++ [45%N] ++ zero_pad 2 (month t) ++ [45%N] ++
   zero_pad 2 (day t) ++ [32%N] ++ zero_pad 2 (hour t) ++ [58%N] ++
   zero_pad 2 (minute t) ++ [58%N] ++ zero_pad 2 (second t) ++
   lit "+00:00")%list.

(** A field written with two digits, or with one when it is below ten. *)
Definition spelled (n : Z) (text : str) : Prop :=
  text = zero_pad 2 n \/ text = repr_int n.

(** The day may also be a space and one digit. *)
Definition day_spelled (n : Z) (text : str) : Prop :=
  spelled n text \/ (n <= 9 /\ text = 32%N :: repr_int n).

(** The texts [strptime] reads as the time [t]: a year of four digits, the
    other fields in one of their spellings, [T] and [Z] in either case. *)
Definition accepted_text (t : datetime) (s : str) : Prop :=
  exists m d H M S tt zz,
    s = (zero_pad 4 (year t) ++ [45%N] ++ m ++ [45%N] ++ d ++ [tt] ++
         H ++ [58%N] ++ M ++ [58%N] ++ S ++ [zz])%list /\
    spelled (month t) m /\ day_spelled (day t) d /\
    spelled (hour t) H /\ spelled (minute t) M /\ spelled (second t) S /\
    (tt = 84%N \/ tt = 116%N) /\ (zz = 90%N \/ zz = 122%N).

Definition str_eqb (a b : str) : bool :=
  if str_eq_dec a b then true else false.

Definition digit_chars : list N := [48; 49; 50; 51; 52; 53; 54; 55; 56; 57]%N.

(** The integers from [0] to [n - 1]. *)
Definition upto (n : nat) : list Z := map Z.of_nat (seq 0 n).

(** What the enumeration of a field's values checks: both spellings of
    [n] are taken by the group and read back as [n]. *)
Definition field_ok (alts : list alt) (n : Z) : bool :=
  alts_text alts (zero_pad 2 n) && alts_text alts (repr_int n) &&
  (field_int (zero_pad 2 n) =? n) && (field_int (repr_int n) =? n) &&
  forallb is_digit (repr_int n) && forallb is_digit (zero_pad 2 n).

Definition year_ok (y : Z) : bool :=
  match zero_pad 4 y with
  | [a; b; c; d] =>
      is_digit a && is_digit b && is_digit c && is_digit d &&
      (field_int [a; b; c; d] =? y)
  | _ => false
  end.

Definition pad2_ok (n : Z) : bool :=
  match zero_pad 2 n with
  | [a; b] => is_digit a && is_digit b
  | _ => false
  end.

(** 12 August 2024, 10:15:30. *)
Definition sample_time : datetime :=
  {| year := 2024; month := 8; day := 12;
     hour := 10; minute := 15; second := 30 |}.

(** A text without a separator. *)
Definition no_slash (s : str) : bool :=
  forallb (fun c => negb (c =? slash)%N) s.

(** The node of a directory with one more name of a path; an empty name
    and [.] add nothing. *)
Definition add_name (n : node) (name : str) : node :=
  if is_name name then (n ++ [name])%list else n.

(** [q] is the node of [n] or of a directory above it. *)
Definition is_prefix (q n : node) : Prop := exists r, n = (q ++ r)%list.

(** No regular file stands at the node or above it. *)
Definition no_file_on (fs : filesystem) (n : node) : Prop :=
  forall q, is_prefix q n -> is_file fs q = false.

(** The file system with the directory [n]. *)
Definition add_dir (n : node) (fs : filesystem) : filesystem :=
  if is_dir fs n then fs
  else {| dirs := (dirs fs ++ [n])%list; files := files fs |}.

(** What [os.makedirs] has done when it returns for the node [n]: the files
    are as before; [n] and the nodes above it are directories; the
    directories are those of before and these. *)
Definition made (fs fs' : filesystem) (n : node) : Prop :=
  files fs' = files fs /\
  (forall q, is_prefix q n -> is_dir fs' q = true) /\
  (forall q, is_dir fs' q = true -> is_dir fs q = true \/ is_prefix q n) /\
  (forall q, is_dir fs q = true -> is_dir fs' q = true).

(** The file system with the text [text] in the file [n]. *)
Definition set_file (n : node) (text : str) (fs : filesystem) : filesystem :=
  {| dirs := dirs fs; files := dict_set node_eq_dec n text (files fs) |}.

(** The path can be opened for writing and its file is the node: the
    directories above the node exist, the node is no directory and the path
    does not end with a separator. *)
Definition can_open (fs : filesystem) (path : str) (n : node) : Prop :=
  path <> [] /\ resolve path = Ok n /\ walk fs [] n = Ok tt /\
  is_dir fs n = false /\ endswith path [slash] = false.

(** The number of lines of a full part. *)
Definition chunk_size : nat := Z.to_nat 500000.

(** The events of the [k]-th part, [k] counted from 1. *)
Definition part_events (events : list json) (k : nat) : list json :=
  firstn chunk_size (skipn ((k - 1) * chunk_size) events).

(** The [k]-th part exists for a list of [n] events. *)
Definition part_exists (n k : nat) : Prop :=
  (1 <= k)%nat /\ ((k - 1) * chunk_size < n)%nat.

(** A text without a line end. *)
Definition no_newline (s : str) : bool :=
  forallb (fun c => negb (c =? 10)%N) s.

(** A text of digits, with or without a minus sign before them. *)
Definition number_text (s : str) : bool :=
  forallb (fun c => is_digit c || (c =? 45)%N) s.

(** The suffix of the [k]-th part. *)
Definition part_suffix (k : Z) : str := (lit "_part" ++ repr_int k)%list.

(** The path the Writer opens for the [k]-th file. *)
Definition path_of (output_filepath : str) (multiple_files : bool) (k : Z)
  : str :=
  if multiple_files then part_path output_filepath k else output_filepath.

(** A file system without directories and files. *)
Definition empty_fs : filesystem := {| dirs := []; files := [] |}.

(** A file system where [out] is a regular file. *)
Definition fs_with_file_out : filesystem :=
  {| dirs := []; files := [([lit "out"], lit "text")] |}.

(** The event of the first sample record. *)
Definition sample_event : json :=
  match convert_record (JObj sample_fields) with
  | Ok event => event
  | Raise _ => JNull
  end.

(** Ten events. *)
Definition ten_events : list json := repeat sample_event 10.

(* ================================================================= *)
(** ** Notions used to state further properties *)

(** A printable character of ASCII. *)
Definition printable (c : N) : bool := (32 <=? c)%N && (c <=? 126)%N.

(** A character a Python [str] can hold that is no high surrogate. *)
Definition plain_char (c : N) : bool :=
  (c <? 1114112)%N && negb (is_high_surrogate c).

(** What may follow the text of an int: not a digit, a point or an
    exponent. *)
Definition ends_number (rest : str) : bool :=
  match rest with
  | [] => true
  | c :: _ => negb (is_digit c || (c =? 46)%N || (c =? 101)%N || (c =? 69)%N)
  end.

Section Separators.
Variables item_separator key_separator : str.

(** [json.dumps(j, separators=(item_separator, key_separator))] *)
Fixpoint dumps_with (j : json) : str :=
  match j with
  | JNull => lit "null"
  | JBool true => lit "true"
  | JBool false => lit "false"
  | JInt z => repr_int z
  | JStr s => encode_basestring_ascii s
  | JArr l => ([91%N] ++ join item_separator (map dumps_with l) ++ [93%N])%list
  | JObj d =>
      ([123%N] ++
       join item_separator
         (map (fun kv : str * json => let (k, v) := kv in
                 (encode_basestring_ascii k ++ key_separator ++
                  dumps_with v)%list)
              d) ++
       [125%N])%list
  end.
End Separators.

(** Keys that differ from one another. *)
Fixpoint distinct (ks : list str) : bool :=
  match ks with
  | [] => true
  | k :: rest => negb (existsb (str_eqb k) rest) && distinct rest
  end.

(** A value whose texts hold characters of Python without a high
    surrogate, and whose dicts have one entry per key. *)
Fixpoint plain_value (j : json) : bool :=
  match j with
  | JNull | JBool _ | JInt _ => true
  | JStr s => forallb plain_char s
  | JArr l => forallb plain_value l
  | JObj d =>
      distinct (map fst d) &&
      forallb (fun kv : str * json =>
                 forallb plain_char (fst kv) && plain_value (snd kv)) d
  end.

(** The first character of a text that a value starts: no white space, no
    closing bracket, no byte order mark. *)
Definition value_head (t : str) : bool :=
  match t with
  | c :: _ => negb (is_ws c) && negb (c =? 93)%N && negb (c =? 65279)%N
  | [] => false
  end.

(** A text without its spaces. *)
Definition unspaced (s : str) : str := filter (fun c => negb (c =? 32)%N) s.

(** A value without the spaces of its texts and of its keys. *)
Fixpoint without_spaces (j : json) : json :=
  match j with
  | JNull | JBool _ | JInt _ => j
  | JStr s => JStr (unspaced s)
  | JArr l => JArr (map without_spaces l)
  | JObj d =>
      JObj (map (fun kv : str * json =>
                   (unspaced (fst kv), without_spaces (snd kv))) d)
  end.

(** The outcome [y] of a scan is the outcome [x] with [w] after the text
    that is left. *)
Definition extended {A} (w : str) (x y : result (A * str)) : Prop :=
  match x with
  | Ok (v, rest) => y = Ok (v, (rest ++ w)%list)
  | Raise e => y = Raise e
  end.

(** A text whose line boundaries, for [str.splitlines], are line feeds and
    carriage returns only. *)
Definition plain_line_ends (text : str) : bool :=
  forallb (fun c => negb (is_linebreak c) || (c =? 10)%N || (c =? 13)%N) text.

(** A line of [splitlines], or that line with its line feed. *)
Definition same_line (file_line split_line : str) : Prop :=
  file_line = split_line \/ file_line = (split_line ++ [10%N])%list.

(** A file the Aggregator reads: its path ends with one of the three
    extensions. *)
Definition recognised (file : str * str) : bool :=
  endswith (fst file) (lit ".json") || endswith (fst file) (lit ".jsonl") ||
  endswith (fst file) (lit ".gz").

(** The keys of an event, in the order of the dict display. *)
Definition event_keys : list str :=
  [lit "EventId"; lit "EventName"; lit "ReadOnly"; lit "AccessKeyId";
   lit "EventTime"; lit "EventSource"; lit "Username"; lit "Resources";
   lit "CloudTrailEvent"].

(** The parts of a list of [n] events: as many as there are started runs
    of 500000. *)
Definition part_count (n : nat) : nat :=
  match n with
  | O => O
  | S m => S (m / chunk_size)
  end.

(** A record with a [userAgent] that has a space. *)
Definition record_with_space : str :=
  jtext "{'eventID': 'c', 'eventTime': '2024-08-12T10:15:32Z', 'eventName': 'List', 'readOnly': true, 'userIdentity': {}, 'eventSource': 's3', 'userAgent': 'aws cli'}".

Definition fields_with_space : list (str * json) :=
  match json_loads record_with_space with
  | Ok (JObj fields) => fields
  | _ => []
  end.

(** The first sample directory with a file that holds a record with a bad
    event time under the first event identifier, before the file that holds
    that identifier again. *)
Definition directory_with_bad_record : list (str * str) :=
  [(lit "logs/bad.json",
    jtext "{'Records': [{'eventID': 'a', 'eventTime': 'yesterday'}]}");
   (lit "logs/one.jsonl", text_of_lines [record_a; record_b])].

(** What the run returns for it, and the events of what it returns. *)
Definition aggregate_after_bad_record : aggregate :=
  match read_files_from_directory directory_with_bad_record with
  | Ok a => a
  | Raise _ =>
      {| total_records := 0; unique_records := 0; duplicates_removed := 0;
         returned := JNull |}
  end.

Definition events_after_bad_record : list json :=
  match mapM convert_record (Records aggregate_after_bad_record) with
  | Ok events => events
  | Raise _ => []
  end.

(** One event more than a part holds. *)
Definition many_events : list json := repeat sample_event (S chunk_size).

(** A step that removes no directory. *)
Definition keeps_dirs {A} (m : io A) : Prop :=
  forall fs, incl (dirs fs) (dirs (snd (m fs))).

(* ================================================================= *)
(** * Properties *)

(** ** Dicts *)

Section DictFacts.
Context {K V : Type} (eq_dec : forall a b : K, {a = b} + {a <> b}).

Lemma dict_keys_set_in (k : K) (v : V) (d : list (K * V)) :
  In k (map fst d) -> map fst (dict_set eq_dec k v d) = map fst d.
Proof.
  induction d as [|[k' v'] d IH]; simpl; [tauto|].
  intros Hin. destruct (eq_dec k k') as [->|Hne]; simpl; [reflexivity|].
  f_equal. apply IH. destruct Hin; [congruence|assumption].
Qed.

Lemma dict_keys_set_notin (k : K) (v : V) (d : list (K * V)) :
  ~ In k (map fst d) -> map fst (dict_set eq_dec k v d) = (map fst d ++ [k])%list.
Proof.
  induction d as [|[k' v'] d IH]; simpl; [reflexivity|].
  intros Hnin. destruct (eq_dec k k') as [->|Hne]; simpl; [tauto|].
  f_equal. apply IH. tauto.
Qed.

Lemma dict_get_set_same (k : K) (v : V) (d : list (K * V)) :
  dict_get eq_dec k (dict_set eq_dec k v d) = Some v.
Proof.
  induction d as [|[k' v'] d IH]; simpl.
  - destruct (eq_dec k k); congruence.
  - destruct (eq_dec k k') as [->|Hne]; simpl.
    + destruct (eq_dec k' k'); congruence.
    + destruct (eq_dec k k'); congruence.
Qed.

Lemma dict_get_set_other (k k0 : K) (v : V) (d : list (K * V)) :
  k0 <> k -> dict_get eq_dec k0 (dict_set eq_dec k v d) = dict_get eq_dec k0 d.
Proof.
  intros Hne. induction d as [|[k' v'] d IH]; simpl.
  - destruct (eq_dec k0 k); congruence.
  - destruct (eq_dec k k') as [->|Hne']; simpl.
    + destruct (eq_dec k0 k'); congruence.
    + destruct (eq_dec k0 k'); congruence.
Qed.

(** With one entry per key, membership is lookup. *)
Lemma dict_get_In (k : K) (v : V) (d : list (K * V)) :
  NoDup (map fst d) -> (In (k, v) d <-> dict_get eq_dec k d = Some v).
Proof.
  induction d as [|[k' v'] d IH]; simpl; intros Hnd.
  - split; [tauto|discriminate].
  - inversion Hnd as [|? ? Hnin Hnd']; subst.
    destruct (eq_dec k k') as [->|Hne].
    + split.
      * intros [E|Hin]; [congruence|].
        exfalso. apply Hnin. now apply (in_map fst) in Hin.
      * intros E. left. congruence.
    + rewrite <- (IH Hnd'). split; [intros [E|H]; [congruence|assumption]|tauto].
Qed.

Lemma dict_set_NoDup (k : K) (v : V) (d : list (K * V)) :
  NoDup (map fst d) -> NoDup (map fst (dict_set eq_dec k v d)).
Proof.
  intros Hnd. destruct (in_dec eq_dec k (map fst d)) as [Hin|Hnin].
  - now rewrite dict_keys_set_in.
  - rewrite dict_keys_set_notin by assumption.
    apply NoDup_app; [assumption|repeat constructor; simpl; tauto|].
    intros x Hx [<-|[]]. tauto.
Qed.

(** Last write wins: an entry of the result is the last pair of the
    sequence with its key, or an entry of the start that no pair
    replaced. *)
Lemma insert_all_entry (kvs d : list (K * V)) (k : K) (v : V) :
  NoDup (map fst d) ->
  In (k, v) (insert_all eq_dec kvs d) ->
  (exists before after,
      kvs = (before ++ (k, v) :: after)%list /\ ~ In k (map fst after))
  \/ (In (k, v) d /\ ~ In k (map fst kvs)).
Proof.
  revert d. induction kvs as [|[k1 v1] kvs IH]; simpl; intros d Hnd Hin.
  - right. tauto.
  - destruct (IH _ (dict_set_NoDup k1 v1 d Hnd) Hin)
      as [(before & after & -> & Hnin)|[Hin' Hnin]].
    + left. exists ((k1, v1) :: before), after. split; [reflexivity|assumption].
    + apply (dict_get_In _ _ _ (dict_set_NoDup k1 v1 d Hnd)) in Hin'.
      destruct (eq_dec k k1) as [->|Hne].
      * rewrite dict_get_set_same in Hin'. injection Hin' as <-.
        left. exists [], kvs. split; [reflexivity|assumption].
      * rewrite dict_get_set_other in Hin' by assumption.
        apply (dict_get_In _ _ _ Hnd) in Hin'.
        right. split; [assumption|]. intros [E|H]; [congruence|tauto].
Qed.
End DictFacts.

(** ** Sequences under [mapM] *)

Lemma mapM_Forall2 {A B} (f : A -> result B) (l : list A) (l' : list B) :
  mapM f l = Ok l' <-> Forall2 (fun a b => f a = Ok b) l l'.
Proof.
  revert l'. induction l as [|a l IH]; simpl; intros l'.
  - split.
    + intros E. injection E as <-. constructor.
    + intros H. inversion H. reflexivity.
  - split.
    + destruct (f a) as [b|e] eqn:Ea; simpl; [|discriminate].
      destruct (mapM f l) as [bs|e] eqn:El; simpl; [|discriminate].
      intros E. injection E as <-. constructor; [assumption|now apply IH].
    + intros H. inversion H as [|? b ? bs Ha Hl]; subst.
      rewrite Ha. simpl. apply IH in Hl. rewrite Hl. reflexivity.
Qed.

Lemma mapM_total {A B} (f : A -> result B) (l : list A) :
  Forall (fun a => exists b, f a = Ok b) l -> exists l', mapM f l = Ok l'.
Proof.
  induction 1 as [|a l [b Hb] _ [l' Hl']]; simpl.
  - now exists [].
  - exists (b :: l'). now rewrite Hb, Hl'.
Qed.

Lemma mapM_app {A B} (f : A -> result B) (l1 l2 : list A) (l' : list B) :
  mapM f (l1 ++ l2) = Ok l' ->
  exists l1' l2', mapM f l1 = Ok l1' /\ mapM f l2 = Ok l2' /\
                  l' = (l1' ++ l2')%list.
Proof.
  rewrite mapM_Forall2. intros H.
  apply Forall2_app_inv_l in H as (l1' & l2' & H1 & H2 & ->).
  exists l1', l2'. now rewrite !mapM_Forall2.
Qed.

Lemma mapM_length {A B} (f : A -> result B) (l : list A) (l' : list B) :
  mapM f l = Ok l' -> length l' = length l.
Proof.
  rewrite mapM_Forall2. intros H. symmetry. eapply Forall2_length, H.
Qed.

(** ** The Aggregator *)

Lemma filter_remove_seen (seen : list pykey) (k : pykey) (l : list pykey) :
  unseen seen k = false ->
  filter (unseen seen) (remove pykey_eq_dec k l) = filter (unseen seen) l.
Proof.
  intros Hk. induction l as [|x l IH]; simpl; [reflexivity|].
  destruct (pykey_eq_dec k x) as [<-|Hne]; simpl.
  - now rewrite Hk.
  - now rewrite IH.
Qed.

Lemma unseen_true (seen : list pykey) (k : pykey) :
  unseen seen k = true <-> ~ In k seen.
Proof.
  unfold unseen. destruct (in_dec pykey_eq_dec k seen); split;
    try tauto; discriminate.
Qed.

Lemma unseen_snoc (seen : list pykey) (k x : pykey) :
  unseen (seen ++ [k]) x = unseen seen x && negb (if pykey_eq_dec k x then true else false).
Proof.
  apply eq_true_iff_eq.
  rewrite andb_true_iff, negb_true_iff, !unseen_true, in_app_iff. simpl.
  destruct (pykey_eq_dec k x); intuition congruence.
Qed.

Lemma filter_unseen_snoc (seen : list pykey) (k : pykey) (l : list pykey) :
  filter (unseen (seen ++ [k])) l =
  filter (unseen seen) (remove pykey_eq_dec k l).
Proof.
  induction l as [|x l IH]; simpl; [reflexivity|].
  rewrite unseen_snoc.
  destruct (pykey_eq_dec k x) as [<-|Hne]; simpl.
  - now rewrite andb_false_r.
  - now rewrite andb_true_r, IH.
Qed.

(** The keys of the index: those of the start, then the new ones, each at
    its first occurrence. *)
Lemma insert_all_keys (kvs d : list (pykey * json)) :
  map fst (insert_all pykey_eq_dec kvs d) =
  (map fst d ++
   filter (unseen (map fst d)) (first_occurrences (map fst kvs)))%list.
Proof.
  revert d. induction kvs as [|[k v] kvs IH]; simpl; intros d.
  - now rewrite app_nil_r.
  - unfold insert_all in *. simpl. rewrite IH.
    destruct (in_dec pykey_eq_dec k (map fst d)) as [Hin|Hnin].
    + rewrite dict_keys_set_in by assumption.
      assert (Hk : unseen (map fst d) k = false).
      { unfold unseen. now destruct (in_dec pykey_eq_dec k (map fst d)). }
      now rewrite Hk, filter_remove_seen.
    + rewrite dict_keys_set_notin by assumption.
      assert (Hk : unseen (map fst d) k = true).
      { unfold unseen. now destruct (in_dec pykey_eq_dec k (map fst d)). }
      now rewrite Hk, filter_unseen_snoc, <- app_assoc.
Qed.

Lemma first_occurrences_In (k : pykey) (ks : list pykey) :
  In k (first_occurrences ks) <-> In k ks.
Proof.
  induction ks as [|x ks IH]; simpl; [tauto|].
  destruct (pykey_eq_dec x k) as [->|Hne]; [tauto|].
  split.
  - intros [E|H]; [contradiction|]. right. apply IH.
    now apply in_remove in H.
  - intros [E|H]; [contradiction|]. right. apply in_in_remove; [congruence|].
    now apply IH.
Qed.

Lemma first_occurrences_NoDup (ks : list pykey) :
  NoDup (first_occurrences ks).
Proof.
  induction ks as [|x ks IH]; simpl; constructor.
  - apply remove_In.
  - clear -IH. induction IH as [|y l Hy _ IH']; simpl; [constructor|].
    destruct (pykey_eq_dec x y); [assumption|].
    constructor; [|assumption].
    intros H. apply in_remove in H. tauto.
Qed.

Lemma insert_records_spec (rs : list json) (ks : list pykey) (d : index) :
  mapM event_key rs = Ok ks ->
  insert_records d rs = Ok (insert_all pykey_eq_dec (combine ks rs) d).
Proof.
  revert ks d. induction rs as [|r rs IH]; simpl; intros ks d.
  - intros E. injection E as <-. reflexivity.
  - destruct (event_key r) as [k|e]; simpl; [|discriminate].
    destruct (mapM event_key rs) as [ks'|e] eqn:E'; simpl; [|discriminate].
    intros E. injection E as <-. simpl. now apply IH.
Qed.

Lemma insert_all_app {K V} (eq_dec : forall a b : K, {a = b} + {a <> b})
    (l1 l2 d : list (K * V)) :
  insert_all eq_dec (l1 ++ l2) d = insert_all eq_dec l2 (insert_all eq_dec l1 d).
Proof. unfold insert_all. apply fold_left_app. Qed.

Lemma combine_app_same {A B} (a1 a2 : list A) (b1 b2 : list B) :
  length a1 = length b1 ->
  combine (a1 ++ a2) (b1 ++ b2) = (combine a1 b1 ++ combine a2 b2)%list.
Proof.
  revert b1. induction a1 as [|x a1 IH]; destruct b1; simpl; try discriminate.
  - reflexivity.
  - intros E. f_equal. apply IH. congruence.
Qed.

Lemma process_files_spec (file_paths : list (str * str)) :
  forall (rs : list json) (ks : list pykey) (d : index) (t : Z),
    decoded_records file_paths = Ok rs ->
    mapM event_key rs = Ok ks ->
    process_files file_paths d t =
    Ok (insert_all pykey_eq_dec (combine ks rs) d, t + Z.of_nat (length rs))%Z.
Proof.
  induction file_paths as [|[file_path text] rest IH]; simpl; intros rs ks d t.
  - intros E. injection E as <-. simpl. intros E. injection E as <-.
    simpl. now rewrite Z.add_0_r.
  - destruct (decode file_path text) as [decoded|]; [|apply IH].
    destruct decoded as [records|e]; simpl; [|discriminate].
    destruct (iterate records) as [items|e]; simpl; [|discriminate].
    destruct (decoded_records rest) as [more|e] eqn:Emore; simpl; [|discriminate].
    intros E. injection E as <-. intros Hks.
    apply mapM_app in Hks as (ks1 & ks2 & H1 & H2 & ->).
    rewrite (insert_records_spec _ _ _ H1). simpl.
    rewrite (IH more ks2 _ _ eq_refl H2).
    rewrite combine_app_same by (now apply mapM_length in H1).
    rewrite insert_all_app, length_app, Nat2Z.inj_add, Z.add_assoc.
    reflexivity.
Qed.

Lemma combine_keys {A B} (f : A -> result B) (rs : list A) (ks : list B) :
  mapM f rs = Ok ks ->
  map fst (combine ks rs) = ks /\ map snd (combine ks rs) = rs /\
  (forall k r, In (k, r) (combine ks rs) -> f r = Ok k).
Proof.
  rewrite mapM_Forall2. induction 1 as [|r k rs ks Hk _ (IH1 & IH2 & IH3)]; simpl.
  - repeat split. tauto.
  - repeat split; [now f_equal..|].
    intros k' r' [E|Hin]; [injection E as <- <-; assumption|now apply IH3].
Qed.

(** What the index holds after the records [rs]: its keys are the event
    identifiers at their first occurrence, and under each key is the last
    record with that identifier. *)
Lemma index_of_records (rs : list json) (ks : list pykey) :
  mapM event_key rs = Ok ks ->
  let d := insert_all pykey_eq_dec (combine ks rs) [] in
  map fst d = first_occurrences ks /\
  mapM event_key (dict_values d) = Ok (first_occurrences ks) /\
  Forall (last_of_its_key rs) (dict_values d).
Proof.
  intros Hks d. destruct (combine_keys _ _ _ Hks) as (Hfst & Hsnd & Hkey).
  assert (Hkeys : map fst d = first_occurrences ks).
  { unfold d. rewrite insert_all_keys. simpl. rewrite Hfst.
    apply forallb_filter_id. apply forallb_forall. reflexivity. }
  assert (Hentry : forall k r, In (k, r) d ->
            exists before after,
              combine ks rs = (before ++ (k, r) :: after)%list /\
              ~ In k (map fst after)).
  { intros k r Hin.
    destruct (insert_all_entry pykey_eq_dec (combine ks rs) [] k r)
      as [H|[[] _]]; [constructor|exact Hin|exact H]. }
  split; [exact Hkeys|]. split.
  - rewrite <- Hkeys. apply mapM_Forall2. unfold dict_values.
    clear Hkeys. induction d as [|[k r] d IH]; simpl; constructor.
    + destruct (Hentry k r (or_introl eq_refl)) as (b & a & E & _).
      apply Hkey. rewrite E. apply in_or_app. right. now left.
    + apply IH. intros k' r' Hin. apply Hentry. now right.
  - apply Forall_forall. intros r Hr. unfold dict_values in Hr.
    apply in_map_iff in Hr as ([k r'] & <- & Hin). simpl.
    destruct (Hentry k r' Hin) as (before & after & E & Hnin).
    exists (map snd before), (map snd after). split.
    + rewrite <- Hsnd, E, map_app. reflexivity.
    + assert (Hr' : event_key r' = Ok k).
      { apply Hkey. rewrite E. apply in_or_app. right. now left. }
      apply Forall_forall. intros x Hx.
      apply in_map_iff in Hx as ([kx x'] & <- & Hx). simpl.
      assert (Hkx : event_key x' = Ok kx).
      { apply Hkey. rewrite E. apply in_or_app. right. now right. }
      rewrite Hkx, Hr'. intros Eq. injection Eq as ->.
      apply Hnin. now apply (in_map fst) in Hx.
Qed.

Lemma mapM_map {A B} (f : A -> result B) (l : list A) (l' : list B) :
  mapM f l = Ok l' -> map f l = map Ok l'.
Proof.
  rewrite mapM_Forall2. induction 1; simpl; congruence.
Qed.

Lemma process_files_records (file_paths : list (str * str))
    (rs : list json) (ks : list pykey) :
  decoded_records file_paths = Ok rs ->
  mapM event_key rs = Ok ks ->
  exists a,
    read_files_from_directory file_paths = Ok a /\
    Records a = dict_values (insert_all pykey_eq_dec (combine ks rs) []) /\
    returned a = JObj [(Records_key, JArr (Records a))] /\
    total_records a = Z.of_nat (length rs) /\
    unique_records a = Z.of_nat (length (Records a)) /\
    duplicates_removed a = (total_records a - unique_records a)%Z.
Proof.
  intros Hrs Hks. unfold read_files_from_directory.
  rewrite (process_files_spec _ _ _ _ _ Hrs Hks). simpl.
  eexists. split; [reflexivity|]. unfold Records. simpl.
  unfold dict_values. rewrite length_map. repeat split.
Qed.

(** C1. Dedup correctness of aggregation: when the files decode to the
    records [rs] and every record has an event identifier, the run returns
    records with pairwise different identifiers, one for every identifier
    that occurs in [rs], each being the last record of [rs] with its
    identifier; and the printed counters satisfy
    unique_records + duplicates_removed = total_records_seen. *)
Theorem dedup_last_write_wins :
  forall (file_paths : list (str * str)) (rs : list json),
    decoded_records file_paths = Ok rs ->
    Forall (fun r => exists k, event_key r = Ok k) rs ->
    exists a,
      read_files_from_directory file_paths = Ok a /\
      NoDup (map event_key (Records a)) /\
      (forall r, In r rs ->
         exists r', In r' (Records a) /\ event_key r' = event_key r) /\
      Forall (last_of_its_key rs) (Records a) /\
      total_records a = Z.of_nat (length rs) /\
      unique_records a = Z.of_nat (length (Records a)) /\
      (unique_records a + duplicates_removed a = total_records a)%Z.
Proof.
  intros file_paths rs Hrs Hall.
  destruct (mapM_total _ _ Hall) as [ks Hks].
  destruct (process_files_records _ _ _ Hrs Hks)
    as (a & Ha & HR & _ & Ht & Hu & Hd).
  destruct (index_of_records rs ks Hks) as (_ & Hkeys & Hlast).
  rewrite <- HR in Hkeys, Hlast.
  exists a. repeat split; try assumption.
  - rewrite (mapM_map _ _ _ Hkeys).
    apply Finite.Injective_map_NoDup; [|apply first_occurrences_NoDup].
    intros x y E. now injection E.
  - intros r Hr.
    assert (Hk : exists k, In k ks /\ event_key r = Ok k).
    { apply mapM_Forall2 in Hks. clear -Hks Hr.
      induction Hks as [|x k l l' Hx _ IH]; [destruct Hr|].
      destruct Hr as [->|Hr].
      - exists k. split; [now left|assumption].
      - destruct (IH Hr) as (k' & Hin & E). exists k'. split; [now right|assumption]. }
    destruct Hk as (k & Hin & Hk).
    apply first_occurrences_In in Hin.
    apply mapM_Forall2 in Hkeys. clear -Hkeys Hin Hk.
    induction Hkeys as [|x k' l l' Hx _ IH]; [destruct Hin|].
    destruct Hin as [->|Hin].
    + exists x. split; [now left|congruence].
    + destruct (IH Hin) as (r' & Hr' & E). exists r'. split; [now right|assumption].
  - rewrite Hd. lia.
Qed.

Lemma dedup_last_write_wins_witness :
  decoded_records sample_directory = Ok sample_records /\
  exists a,
    read_files_from_directory sample_directory = Ok a /\
    NoDup (map event_key (Records a)) /\
    (forall r, In r sample_records ->
       exists r', In r' (Records a) /\ event_key r' = event_key r) /\
    Forall (last_of_its_key sample_records) (Records a) /\
    total_records a = Z.of_nat (length sample_records) /\
    unique_records a = Z.of_nat (length (Records a)) /\
    (unique_records a + duplicates_removed a = total_records a)%Z.
Proof.
  split; [reflexivity|].
  apply (dedup_last_write_wins sample_directory sample_records).
  - reflexivity.
  - repeat constructor; eexists; reflexivity.
Defined.

(** C2. Output ordering of aggregation: the records handed to the
    Normalizer are the values of the index, one per event identifier, in the
    order in which the identifiers first occur among the decoded records;
    the value under an identifier is the last record that has it, so a later
    duplicate changes the value and not the position. *)
Theorem output_order_first_occurrence :
  forall (file_paths : list (str * str)) (rs : list json) (ks : list pykey),
    decoded_records file_paths = Ok rs ->
    mapM event_key rs = Ok ks ->
    exists a,
      read_files_from_directory file_paths = Ok a /\
      mapM event_key (Records a) = Ok (first_occurrences ks) /\
      Forall (last_of_its_key rs) (Records a) /\
      convert_cloudtrail_to_plaso (returned a) =
      mapM convert_record (Records a).
Proof.
  intros file_paths rs ks Hrs Hks.
  destruct (process_files_records _ _ _ Hrs Hks)
    as (a & Ha & HR & Hret & _).
  destruct (index_of_records rs ks Hks) as (_ & Hkeys & Hlast).
  rewrite <- HR in Hkeys, Hlast.
  exists a. repeat split; try assumption.
  rewrite Hret. unfold convert_cloudtrail_to_plaso, getitem, jget. simpl.
  destruct (str_eq_dec Records_key Records_key); [reflexivity|congruence].
Qed.

Lemma output_order_first_occurrence_witness :
  mapM event_key sample_records = Ok [KStr (lit "a"); KStr (lit "b"); KStr (lit "a")] /\
  exists a,
    read_files_from_directory sample_directory = Ok a /\
    mapM event_key (Records a) = Ok [KStr (lit "a"); KStr (lit "b")] /\
    Forall (last_of_its_key sample_records) (Records a) /\
    convert_cloudtrail_to_plaso (returned a) =
    mapM convert_record (Records a).
Proof.
  split; [reflexivity|].
  apply (output_order_first_occurrence sample_directory sample_records
           [KStr (lit "a"); KStr (lit "b"); KStr (lit "a")]); reflexivity.
Defined.

(** ** The Decoder *)

Lemma skip_ws_blank (line : str) :
  forallb is_ws line = true -> skip_ws line = [].
Proof.
  induction line as [|c line IH]; simpl; [reflexivity|].
  intros H. apply andb_true_iff in H as [Hc Hl]. now rewrite Hc, IH.
Qed.

(** A line of white space only, the empty line among them, is no JSON. *)
Lemma json_loads_blank (line : str) :
  forallb is_ws line = true -> json_loads line = Raise JSONDecodeError.
Proof.
  intros H. unfold json_loads. rewrite (skip_ws_blank _ H).
  destruct line as [|c line]; [reflexivity|].
  simpl in H. apply andb_true_iff in H as [Hc _].
  cbn [startswith]. destruct (65279 =? c)%N eqn:E; [|reflexivity].
  apply N.eqb_eq in E. subst c. discriminate.
Qed.

Lemma mapM_Exists_Raise {A B} (f : A -> result B) (l : list A) :
  Exists (fun a => exists e, f a = Raise e) l -> exists e, mapM f l = Raise e.
Proof.
  induction 1 as [a l [e He]|a l _ [e IH]]; simpl.
  - exists e. now rewrite He.
  - destruct (f a) as [b|e']; simpl; [|now exists e'].
    exists e. now rewrite IH.
Qed.

(** C5, as the code has it.  Newline-delimited decode: the Decoder parses
    every line of the file, empty or not, as one JSON value; it returns the
    values in the order of the lines when every line parses, and it fails
    when a line does not, which is the case of every empty or blank line. *)
Theorem jsonl_every_line_must_parse :
  forall text : str,
    let lines := file_lines (universal_newlines text) in
    (forall v,
        read_jsonl_file text = Ok v <->
        exists records,
          v = JObj [(Records_key, JArr records)] /\
          Forall2 (fun line r => json_loads line = Ok r) lines records) /\
    (Exists (fun line => forallb is_ws line = true) lines ->
     exists e, read_jsonl_file text = Raise e).
Proof.
  intros text lines. unfold read_jsonl_file. fold lines. split.
  - intros v. split.
    + destruct (mapM json_loads lines) as [records|e] eqn:E; simpl;
        [|discriminate].
      intros Ev. injection Ev as <-. exists records. split; [reflexivity|].
      now apply mapM_Forall2.
    + intros (records & -> & H). apply mapM_Forall2 in H. now rewrite H.
  - intros H.
    destruct (mapM_Exists_Raise json_loads lines) as [e He].
    + eapply Exists_impl; [|exact H]. intros line Hb.
      exists JSONDecodeError. now apply json_loads_blank.
    + exists e. now rewrite He.
Qed.

Lemma jsonl_every_line_must_parse_witness :
  exists e, read_jsonl_file text_with_empty_line = Raise e.
Proof.
  apply (proj2 (jsonl_every_line_must_parse text_with_empty_line)).
  apply Exists_cons_tl, Exists_cons_hd. reflexivity.
Defined.

(** C5, as the specification words it, fails: the non-empty lines of the text
    parse to two records, and the Decoder fails on the empty line between
    them. *)
Lemma jsonl_empty_line_fails :
  (exists r1 r2,
      mapM json_loads
        (filter (fun line => negb (forallb is_ws line))
           (file_lines (universal_newlines text_with_empty_line)))
      = Ok [r1; r2]) /\
  read_jsonl_file text_with_empty_line = Raise JSONDecodeError.
Proof.
  split; [do 2 eexists|]; reflexivity.
Qed.

(** C6 at a failing input: the text is one line, a record with U+2028 in a
    string.  Read as a [.jsonl] file it is one record; read as a
    [.jsonl.gz] file it is cut at U+2028 and the decode fails. *)
Lemma gzip_jsonl_differs_on_line_separator :
  read_jsonl_file text_with_line_separator =
    Ok (JObj [(Records_key,
               JArr [JObj [(lit "eventID",
                            JStr (lit "a" ++ [8232%N] ++ lit "b")%list)]])]) /\
  read_gz_file (lit "logs/trail.jsonl.gz") text_with_line_separator =
    Raise JSONDecodeError.
Proof.
  split; reflexivity.
Qed.

(** ** The Writer and the file system *)

Lemma keeps_files_bind {A B} (m : io A) (k : A -> io B) :
  keeps_files m -> (forall a, keeps_files (k a)) -> keeps_files (io_bind m k).
Proof.
  intros Hm Hk fs. unfold io_bind. specialize (Hm fs).
  destruct (m fs) as [[a|e] fs']; simpl in *.
  - now rewrite Hk.
  - assumption.
Qed.

Lemma lookup_state (p : str) (fs : filesystem) : snd (lookup p fs) = fs.
Proof.
  unfold lookup. destruct p; [reflexivity|].
  unfold io_bind, lift. destruct (resolve _); reflexivity.
Qed.

Lemma keeps_files_mkdir (p : str) : keeps_files (mkdir p).
Proof.
  intros fs. unfold mkdir, io_bind.
  pose proof (lookup_state p fs) as Hl.
  destruct (lookup p fs) as [[n|e] fs']; simpl in *; subst fs'; [|reflexivity].
  destruct (is_dir fs n || is_file fs n); reflexivity.
Qed.

Lemma path_exists_state (p : str) (fs : filesystem) :
  snd (path_exists p fs) = fs.
Proof.
  unfold path_exists. destruct (lookup p fs) as [[n|[]] fs']; reflexivity.
Qed.

Lemma path_isdir_state (p : str) (fs : filesystem) :
  snd (path_isdir p fs) = fs.
Proof.
  unfold path_isdir. destruct (lookup p fs) as [[n|[]] fs']; reflexivity.
Qed.

Lemma keeps_files_mkdir_exist_ok (name : str) :
  keeps_files (mkdir_exist_ok name).
Proof.
  intros fs. unfold mkdir_exist_ok.
  pose proof (keeps_files_mkdir name fs) as Hm.
  destruct (mkdir name fs) as [[[]|e] fs']; simpl in *; [assumption|].
  pose proof (path_isdir_state name fs') as Hi.
  destruct e; try assumption;
    destruct (path_isdir name fs') as [[[|]|e'] fs'']; simpl in *;
    subst; assumption.
Qed.

Lemma keeps_files_makedirs (fuel : nat) (name : str) :
  keeps_files (makedirs fuel name).
Proof.
  revert name. induction fuel as [|fuel IH]; intros name; [easy|].
  simpl. destruct (makedirs_split name) as [head tail].
  destruct head as [|h head]; [apply keeps_files_mkdir_exist_ok|].
  destruct tail as [|t tail]; [apply keeps_files_mkdir_exist_ok|].
  apply keeps_files_bind.
  - intros fs. now rewrite path_exists_state.
  - intros [|]; [apply keeps_files_mkdir_exist_ok|].
    apply keeps_files_bind.
    + intros fs. specialize (IH (h :: head) fs).
      destruct (makedirs fuel (h :: head) fs) as [[u|[]] fs']; exact IH.
    + intros _. destruct (str_eq_dec (t :: tail) dot);
        [easy|apply keeps_files_mkdir_exist_ok].
Qed.

(** C9. With an empty list of events the Writer creates no file: after the
    call the files of the file system are those of before, whatever the
    output path, so neither the base path nor a part was opened. *)
Theorem no_events_no_file :
  forall (output_filepath : str) (fs : filesystem),
    files (snd (write_events_to_jsonl [] output_filepath fs)) = files fs.
Proof.
  intros output_filepath fs. unfold write_events_to_jsonl.
  apply (keeps_files_bind _ _ (keeps_files_makedirs _ _)).
  intros _. simpl. easy.
Qed.

(** ** The Normalizer *)

Lemma replace1_remove (c : N) (s : str) :
  replace1 c [] s = filter (fun x => negb (x =? c)%N) s.
Proof.
  unfold replace1. induction s as [|x s IH]; simpl; [reflexivity|].
  destruct (x =? c)%N; simpl; now rewrite IH.
Qed.

Lemma filter_filter {A} (f g : A -> bool) (l : list A) :
  filter f (filter g l) = filter (fun x => g x && f x) l.
Proof.
  induction l as [|x l IH]; simpl; [reflexivity|].
  destruct (g x); simpl; [destruct (f x)|]; now rewrite IH.
Qed.

Lemma squeeze_without_whitespace (record : json) :
  squeeze record = without_whitespace (json_dumps record).
Proof.
  unfold squeeze, without_whitespace. rewrite !replace1_remove, !filter_filter.
  apply filter_ext. intros c.
  destruct (c =? 10)%N, (c =? 9)%N, (c =? 32)%N; reflexivity.
Qed.

Lemma mapM_convert_resource (resources : list json) :
  forallb is_object resources = true ->
  exists ds, resources = map JObj ds /\
             mapM convert_resource resources = Ok (map flatten_resource ds).
Proof.
  induction resources as [|r resources IH]; simpl; intros H.
  - now exists [].
  - apply andb_true_iff in H as [Hr H].
    destruct (IH H) as (ds & -> & Hds).
    destruct r as [| | | | |d]; try discriminate.
    exists (d :: ds). split; [reflexivity|].
    cbn [mapM map]. rewrite Hds.
    unfold convert_resource, get_default, flatten_resource.
    destruct (jget (lit "type") d), (jget (lit "ARN") d); reflexivity.
Qed.

(** The event of a well-formed record, field by field. *)
Lemma convert_record_well_formed (fields : list (str * json)) :
  well_formed_record fields = true ->
  exists event_time event_id event_name read_only identity event_source ds,
    jget (lit "userIdentity") fields = Some (JObj identity) /\
    value_or (JArr []) (jget (lit "resources") fields) = JArr (map JObj ds) /\
    convert_record (JObj fields) =
    Ok (JObj [(lit "EventId", event_id);
              (lit "EventName", event_name);
              (lit "ReadOnly", JStr read_only);
              (lit "AccessKeyId",
               value_or (JStr []) (jget (lit "accessKeyId") identity));
              (lit "EventTime", JStr event_time);
              (lit "EventSource", event_source);
              (lit "Username",
               value_or (JStr []) (jget (lit "userName") identity));
              (lit "Resources", JArr (map flatten_resource ds));
              (lit "CloudTrailEvent",
               JStr (without_whitespace (json_dumps (JObj fields))))]).
Proof.
  unfold well_formed_record. intros H.
  repeat (apply andb_true_iff in H as [H ?]).
  destruct (jget (lit "eventTime") fields) as [[| | |s| |]|] eqn:Etime;
    try discriminate.
  destruct (strptime s) as [t|] eqn:Et; [|discriminate].
  destruct (jget (lit "eventID") fields) as [event_id|] eqn:Eid;
    [|discriminate].
  destruct (jget (lit "eventName") fields) as [event_name|] eqn:Ename;
    [|discriminate].
  destruct (jget (lit "readOnly") fields) as [ro|] eqn:Ero; [|discriminate].
  destruct (str_lower ro) as [read_only|] eqn:Elower; [|discriminate].
  destruct (jget (lit "userIdentity") fields) as [[| | | | |identity]|]
    eqn:Eident; try discriminate.
  destruct (jget (lit "eventSource") fields) as [event_source|] eqn:Esource;
    [|discriminate].
  assert (Hres : exists ds,
             value_or (JArr []) (jget (lit "resources") fields)
             = JArr (map JObj ds) /\
             (resources <- get_default (JObj fields) (lit "resources") (JArr []) ;;
              items <- iterate resources ;; mapM convert_resource items)
             = Ok (map flatten_resource ds)).
  { unfold get_default.
    destruct (jget (lit "resources") fields) as [[| | | |l|]|];
      try discriminate.
    - destruct (mapM_convert_resource l) as (ds & -> & Hds); [assumption|].
      exists ds. split; [reflexivity|]. exact Hds.
    - exists []. split; reflexivity. }
  destruct Hres as (ds & Hv & Hres).
  eexists _, event_id, event_name, read_only, identity, event_source, ds.
  split; [reflexivity|]. split; [exact Hv|].
  unfold convert_record.
  cbn [getitem]. rewrite Etime. cbn [bind convert_event_time_to_local].
  rewrite Et, Eid, Ename, Ero. cbn [bind]. rewrite Elower, Eident, Esource.
  cbn [bind get_default] in Hres |- *.
  rewrite <- squeeze_without_whitespace.
  destruct (jget (lit "accessKeyId") identity), (jget (lit "userName") identity);
    cbn [bind value_or];
    (destruct (match jget (lit "resources") fields with
               | Some v => Ok v
               | None => Ok (JArr [])
               end) as [resources|]; cbn [bind] in Hres |- *; [|discriminate]);
    (destruct (iterate resources) as [items|]; cbn [bind] in Hres |- *;
       [|discriminate]);
    rewrite Hres; reflexivity.
Qed.

(** C7. Optional-field defaulting: the event of a well-formed record has
    [Resources = []] when the record has no [resources] key, [Username = ""]
    when [userIdentity] has no [userName], [AccessKeyId = ""] when it has no
    [accessKeyId]; and a [resources] sequence is mapped entry by entry, in
    its order, each entry giving [type] as ResourceType and [ARN] as
    ResourceName, ["Unknown"] standing for a missing one. *)
Theorem optional_fields_default :
  forall fields : list (str * json),
    well_formed_record fields = true ->
    exists event,
      convert_record (JObj fields) = Ok (JObj event) /\
      (jget (lit "resources") fields = None ->
       jget (lit "Resources") event = Some (JArr [])) /\
      (forall identity,
          jget (lit "userIdentity") fields = Some (JObj identity) ->
          (jget (lit "userName") identity = None ->
           jget (lit "Username") event = Some (JStr [])) /\
          (jget (lit "accessKeyId") identity = None ->
           jget (lit "AccessKeyId") event = Some (JStr []))) /\
      (forall resources,
          jget (lit "resources") fields = Some (JArr resources) ->
          exists ds,
            resources = map JObj ds /\
            jget (lit "Resources") event =
            Some (JArr (map flatten_resource ds))).
Proof.
  intros fields Hwf.
  destruct (convert_record_well_formed fields Hwf)
    as (time & eid & name & ro & identity & source & ds & Hid & Hres & Hev).
  eexists. split; [exact Hev|]. split; [|split].
  - intros Hnone. rewrite Hnone in Hres. simpl in Hres.
    injection Hres as Hres. symmetry in Hres. apply map_eq_nil in Hres.
    subst ds. reflexivity.
  - intros identity' Hid'. rewrite Hid in Hid'. injection Hid' as <-.
    split; intros Hnone; rewrite Hnone; reflexivity.
  - intros resources Hsome. rewrite Hsome in Hres. simpl in Hres.
    injection Hres as ->. exists ds. split; reflexivity.
Qed.

Lemma optional_fields_default_witness :
  exists event,
    convert_record (JObj sample_fields_b) = Ok (JObj event) /\
    jget (lit "Resources") event = Some (JArr []) /\
    jget (lit "Username") event = Some (JStr []) /\
    jget (lit "AccessKeyId") event = Some (JStr []).
Proof.
  destruct (optional_fields_default sample_fields_b eq_refl)
    as (event & Hev & Hres & Hid & _).
  exists event. split; [exact Hev|]. split; [exact (Hres eq_refl)|].
  destruct (Hid [] eq_refl) as [Hname Hkey].
  split; [exact (Hname eq_refl)|exact (Hkey eq_refl)].
Defined.

Lemma without_whitespace_clean (text : str) (c : N) :
  In c (without_whitespace text) -> c <> 10%N /\ c <> 9%N /\ c <> 32%N.
Proof.
  unfold without_whitespace. intros H. apply filter_In in H as [_ H].
  apply negb_true_iff in H.
  apply orb_false_iff in H as [H H32]. apply orb_false_iff in H as [H10 H9].
  apply N.eqb_neq in H10, H9, H32. tauto.
Qed.

(** C8. CloudTrailEvent serialization: whenever a record is converted, the
    [CloudTrailEvent] of its event is the text [json.dumps] gives for the
    record with every line end, tab and space taken out, those inside string
    values with the others; and every well-formed record is converted. *)
Theorem cloudtrail_event_squeezed :
  forall record : json,
    (forall event,
        convert_record record = Ok event ->
        exists text,
          getitem event (lit "CloudTrailEvent") = Ok (JStr text) /\
          text = without_whitespace (json_dumps record) /\
          forall c, In c text -> c <> 10%N /\ c <> 9%N /\ c <> 32%N) /\
    (forall fields,
        record = JObj fields -> well_formed_record fields = true ->
        exists event, convert_record record = Ok event).
Proof.
  intros record. split.
  - intros event. unfold convert_record.
    repeat match goal with
           | |- context [bind ?m _] =>
               destruct m; cbn [bind]; [|discriminate]
           end.
    intros E. injection E as <-.
    exists (without_whitespace (json_dumps record)).
    split; [now rewrite squeeze_without_whitespace|].
    split; [reflexivity|]. apply without_whitespace_clean.
  - intros fields -> Hwf.
    destruct (convert_record_well_formed fields Hwf)
      as (time & eid & name & ro & identity & source & ds & _ & _ & Hev).
    eexists. exact Hev.
Qed.

Lemma cloudtrail_event_squeezed_witness :
  exists event,
    convert_record (JObj sample_fields) = Ok event /\
    getitem event (lit "CloudTrailEvent") =
    Ok (JStr (jtext "{'eventID':'a','eventTime':'2024-08-12T10:15:30Z','eventName':'GetIt','readOnly':true,'userIdentity':{'userName':'bob'},'eventSource':'s3','resources':[{'type':'T'},{'ARN':'xy'},{}]}")).
Proof.
  destruct (proj2 (cloudtrail_event_squeezed (JObj sample_fields))
              sample_fields eq_refl eq_refl) as [event Hev].
  exists event. split; [exact Hev|].
  destruct (proj1 (cloudtrail_event_squeezed (JObj sample_fields)) event Hev)
    as (text & Hget & -> & _).
  exact Hget.
Defined.

(** ** The event time *)

Lemma upto_forall (P : Z -> bool) (len : nat) :
  forallb P (upto len) = true ->
  forall n, 0 <= n < Z.of_nat len -> P n = true.
Proof.
  intros H n Hn. rewrite forallb_forall in H. apply H.
  unfold upto. apply in_map_iff. exists (Z.to_nat n).
  split; [lia|]. apply in_seq. lia.
Qed.

Lemma digit_chars_In (a : N) : is_digit a = true -> In a digit_chars.
Proof.
  unfold is_digit. intros H. apply andb_true_iff in H as [H1 H2].
  apply N.leb_le in H1, H2.
  assert (E : (a = 48 \/ a = 49 \/ a = 50 \/ a = 51 \/ a = 52 \/ a = 53 \/
               a = 54 \/ a = 55 \/ a = 56 \/ a = 57)%N) by lia.
  unfold digit_chars. simpl. intuition.
Qed.

Lemma digits_forall (P : N -> bool) :
  forallb P digit_chars = true -> forall a, is_digit a = true -> P a = true.
Proof.
  intros H a Ha. rewrite forallb_forall in H. now apply H, digit_chars_In.
Qed.

Lemma digits_forall2 (P : N -> N -> bool) :
  forallb (fun a => forallb (P a) digit_chars) digit_chars = true ->
  forall a b, is_digit a = true -> is_digit b = true -> P a b = true.
Proof.
  intros H a b Ha Hb. apply digits_forall; [|exact Hb].
  now apply (digits_forall (fun a => forallb (P a) digit_chars)).
Qed.

Lemma str_eqb_eq (a b : str) : str_eqb a b = true -> a = b.
Proof. unfold str_eqb. now destruct (str_eq_dec a b). Qed.

(** Two digits are the zero-padded rendering of their value, one digit is
    its plain rendering. *)
Lemma two_digits_pad (a b : N) :
  is_digit a = true -> is_digit b = true ->
  zero_pad 2 (field_int [a; b]) = [a; b].
Proof.
  intros Ha Hb. apply str_eqb_eq.
  apply (digits_forall2
           (fun a b => str_eqb (zero_pad 2 (field_int [a; b])) [a; b]));
    [vm_compute; reflexivity|assumption..].
Qed.

Lemma one_digit_repr (a : N) :
  is_digit a = true -> repr_int (field_int [a]) = [a].
Proof.
  intros Ha. apply str_eqb_eq.
  apply (digits_forall (fun a => str_eqb (repr_int (field_int [a])) [a]));
    [vm_compute; reflexivity|assumption].
Qed.

Lemma space_digit_repr (a : N) :
  between 49 57 a = true ->
  field_int [32%N; a] <= 9 /\ repr_int (field_int [32%N; a]) = [a].
Proof.
  intros Ha.
  assert (Hd : is_digit a = true).
  { unfold between, is_digit in *. apply andb_true_iff in Ha as [H1 H2].
    apply N.leb_le in H1, H2. apply andb_true_iff.
    split; apply N.leb_le; lia. }
  assert (H : ((field_int [32%N; a] <=? 9) &&
               str_eqb (repr_int (field_int [32%N; a])) [a])%bool = true).
  { apply (digits_forall
             (fun a => ((field_int [32%N; a] <=? 9) &&
                        str_eqb (repr_int (field_int [32%N; a])) [a])%bool));
      [vm_compute; reflexivity|assumption]. }
  apply andb_true_iff in H as [H1 H2]. split; [lia|now apply str_eqb_eq].
Qed.

Lemma four_digits_pad (a b c d : N) :
  is_digit a = true -> is_digit b = true ->
  is_digit c = true -> is_digit d = true ->
  zero_pad 4 (field_int [a; b; c; d]) = [a; b; c; d].
Proof.
  intros Ha Hb Hc Hd. apply str_eqb_eq.
  set (P := fun a b c d =>
              str_eqb (zero_pad 4 (field_int [a; b; c; d])) [a; b; c; d]).
  change (P a b c d = true).
  apply digits_forall; [|exact Hd].
  apply (digits_forall (fun c => forallb (P a b c) digit_chars)); [|exact Hc].
  apply (digits_forall2
           (fun a b => forallb (fun c => forallb (P a b c) digit_chars)
                         digit_chars));
    [vm_compute; reflexivity|assumption..].
Qed.

Lemma orelse_same {A} (x : option A) (b : bool) :
  orelse x (if b then x else None) = x.
Proof. destruct x, b; reflexivity. Qed.

(** A group followed by a sign of the format takes the text that stands
    before the sign. *)
Lemma re_alts_takes {A} (alts : list alt) (text : str) (c c' : N) (rest : str)
    (k : str -> str -> option A) :
  digit_seconds alts ->
  alts_text alts text = true ->
  lit_match c c' = true ->
  is_digit c' = false ->
  (forall x, is_digit x = true -> lit_match c x = false) ->
  re_alts alts (text ++ c' :: rest) (fun txt s => literal c s (k txt))
  = k text rest.
Proof.
  intros Hds Htext Hc Hc' Hx.
  assert (Hshape : (exists a, text = [a]) \/
                   (exists a b, text = [a; b] /\ is_digit b = true)).
  { unfold alts_text in Htext.
    apply existsb_exists in Htext as (al & Hin & Htakes).
    destruct al as [p|p q], text as [|a [|b [|]]]; simpl in Htakes;
      try discriminate.
    - left. now exists a.
    - right. exists a, b. split; [reflexivity|].
      apply andb_true_iff in Htakes as [_ Hq]. exact (Hds p q b Hin Hq). }
  assert (Hgen : forall alts',
             (forall p q, In (Two p q) alts' -> In (Two p q) alts) ->
             re_alts alts' (text ++ c' :: rest)
               (fun txt s => literal c s (k txt))
             = if alts_text alts' text then k text rest else None).
  { induction alts' as [|al alts' IH]; intros Hsub; [reflexivity|].
    assert (IH' := IH (fun p q H => Hsub p q (or_intror H))). clear IH.
    unfold alts_text in *. cbn [existsb re_alts].
    destruct Hshape as [[a ->]|(a & b & -> & Hb)]; destruct al as [p|p q];
      rewrite IH'; cbn [alt_takes app chars1 chars2 literal].
    - rewrite Hc. destruct (p a); cbn [orb orelse];
        [apply orelse_same|reflexivity].
    - assert (Hq : q c' = false).
      { destruct (q c') eqn:E; [|reflexivity].
        rewrite (Hds p q c' (Hsub p q (or_introl eq_refl)) E) in Hc'.
        discriminate. }
      rewrite Hq, andb_false_r. reflexivity.
    - rewrite (Hx b Hb). destruct (p a); reflexivity.
    - rewrite Hc. destruct (p a && q b); cbn [orb orelse];
        [apply orelse_same|reflexivity]. }
  rewrite (Hgen alts (fun p q H => H)), Htext. reflexivity.
Qed.

Lemma re_alts_inv {A} (alts : list alt) (s : str)
    (k : str -> str -> option A) (x : A) :
  re_alts alts s k = Some x ->
  exists text s', s = (text ++ s')%list /\ alts_text alts text = true /\
                  k text s' = Some x.
Proof.
  unfold alts_text.
  induction alts as [|al alts IH]; cbn [re_alts existsb]; [discriminate|].
  destruct al as [p|p q].
  - unfold chars1 at 1. destruct s as [|a r].
    + cbn [orelse]. intros H. destruct (IH H) as (text & s' & -> & Ht & Hk).
      exists text, s'. rewrite Ht, orb_true_r. now repeat split.
    + destruct (p a) eqn:Ep.
      * destruct (k [a] r) eqn:Ek; cbn [orelse].
        -- intros E. injection E as <-. exists [a], r.
           cbn [alt_takes]. rewrite Ep. now repeat split.
        -- intros H. destruct (IH H) as (text & s' & E & Ht & Hk).
           exists text, s'. rewrite Ht, orb_true_r. now repeat split.
      * cbn [orelse]. intros H. destruct (IH H) as (text & s' & E & Ht & Hk).
        exists text, s'. rewrite Ht, orb_true_r. now repeat split.
  - unfold chars2 at 1.
    assert (Hrest : re_alts alts s k = Some x ->
              exists text s', s = (text ++ s')%list /\
                (alt_takes text (Two p q) || existsb (alt_takes text) alts) = true /\
                k text s' = Some x).
    { intros H. destruct (IH H) as (text & s' & E & Ht & Hk).
      exists text, s'. rewrite Ht, orb_true_r. now repeat split. }
    destruct s as [|a [|b r]]; cbn [orelse]; try exact Hrest.
    destruct (p a && q b) eqn:Ep; cbn [orelse]; try exact Hrest.
    destruct (k [a; b] r) eqn:Ek; cbn [orelse]; try exact Hrest.
    intros E. injection E as <-. exists [a; b], r.
    cbn [alt_takes]. rewrite Ep. now repeat split.
Qed.

Lemma literal_inv {A} (c : N) (s : str) (k : str -> option A) (x : A) :
  literal c s k = Some x ->
  exists a s', s = a :: s' /\ lit_match c a = true /\ k s' = Some x.
Proof.
  unfold literal. destruct s as [|a r]; [discriminate|].
  destruct (lit_match c a) eqn:E; [|discriminate].
  intros H. now exists a, r.
Qed.

Lemma re_Y_inv {A} (s : str) (k : str -> str -> option A) (x : A) :
  re_Y s k = Some x ->
  exists a b c d s',
    s = a :: b :: c :: d :: s' /\
    is_digit a = true /\ is_digit b = true /\
    is_digit c = true /\ is_digit d = true /\
    k [a; b; c; d] s' = Some x.
Proof.
  unfold re_Y. destruct s as [|a [|b [|c [|d r]]]]; try discriminate.
  destruct (is_digit a && is_digit b && is_digit c && is_digit d) eqn:E;
    [|discriminate].
  apply andb_true_iff in E as [E Hd]. apply andb_true_iff in E as [E Hc].
  apply andb_true_iff in E as [Ha Hb].
  intros H. now exists a, b, c, d, r.
Qed.

Ltac digit_seconds_tac :=
  unfold digit_seconds; simpl; intros p q x Hin Hq;
  repeat (destruct Hin as [Hin|Hin];
          [try discriminate; injection Hin as <- <-|]);
  try contradiction;
  unfold between, is_digit in *;
  apply andb_true_iff in Hq as [H1 H2]; apply N.leb_le in H1, H2;
  apply andb_true_iff; split; apply N.leb_le; lia.

Lemma digit_seconds_m : digit_seconds alts_m.
Proof. digit_seconds_tac. Qed.

Lemma digit_seconds_d : digit_seconds alts_d.
Proof. digit_seconds_tac. Qed.

Lemma digit_seconds_H : digit_seconds alts_H.
Proof. digit_seconds_tac. Qed.

Lemma digit_seconds_M : digit_seconds alts_M.
Proof. digit_seconds_tac. Qed.

Lemma digit_seconds_S : digit_seconds alts_S.
Proof. digit_seconds_tac. Qed.

(** The values of the fields of a valid time, by enumeration. *)
Lemma month_ok (n : Z) : 1 <= n <= 12 -> field_ok alts_m n = true.
Proof.
  intros Hn.
  assert (H : ((n <? 1) || field_ok alts_m n)%bool = true).
  { apply (upto_forall (fun n => (n <? 1) || field_ok alts_m n)%bool 13);
      [vm_compute; reflexivity|lia]. }
  apply orb_true_iff in H as [H|H]; [lia|exact H].
Qed.

Lemma day_ok (n : Z) :
  1 <= n <= 31 ->
  field_ok alts_d n = true /\
  (n <= 9 -> alts_text alts_d (32%N :: repr_int n) = true /\
             field_int (32%N :: repr_int n) = n).
Proof.
  intros Hn.
  assert (H : ((n <? 1) ||
               (field_ok alts_d n &&
                ((9 <? n) ||
                 (alts_text alts_d (32%N :: repr_int n) &&
                  (field_int (32%N :: repr_int n) =? n)))))%bool = true).
  { apply (upto_forall
             (fun n => (n <? 1) ||
                       (field_ok alts_d n &&
                        ((9 <? n) ||
                         (alts_text alts_d (32%N :: repr_int n) &&
                          (field_int (32%N :: repr_int n) =? n)))))%bool 32);
      [vm_compute; reflexivity|lia]. }
  apply orb_true_iff in H as [H|H]; [lia|].
  apply andb_true_iff in H as [H1 H2]. split; [exact H1|].
  intros H9. apply orb_true_iff in H2 as [H2|H2]; [lia|].
  apply andb_true_iff in H2 as [H2 H3]. split; [exact H2|lia].
Qed.

Lemma hour_ok (n : Z) : 0 <= n <= 23 -> field_ok alts_H n = true.
Proof.
  intros Hn.
  apply (upto_forall (field_ok alts_H) 24); [vm_compute; reflexivity|lia].
Qed.

Lemma minute_ok (n : Z) : 0 <= n <= 59 -> field_ok alts_M n = true.
Proof.
  intros Hn.
  apply (upto_forall (field_ok alts_M) 60); [vm_compute; reflexivity|lia].
Qed.

Lemma second_ok (n : Z) : 0 <= n <= 59 -> field_ok alts_S n = true.
Proof.
  intros Hn.
  apply (upto_forall (field_ok alts_S) 60); [vm_compute; reflexivity|lia].
Qed.

Lemma year_ok_valid (y : Z) : 1 <= y <= 9999 -> year_ok y = true.
Proof.
  intros Hy.
  assert (H : ((y <? 1) || year_ok y)%bool = true).
  { apply (upto_forall (fun y => (y <? 1) || year_ok y)%bool (Z.to_nat 10000));
      [vm_compute; reflexivity|lia]. }
  apply orb_true_iff in H as [H|H]; [lia|exact H].
Qed.

Lemma field_ok_spelled (alts : list alt) (n : Z) (text : str) :
  field_ok alts n = true -> spelled n text ->
  alts_text alts text = true /\ field_int text = n.
Proof.
  unfold field_ok. intros H Hs.
  repeat (apply andb_true_iff in H as [H ?]).
  destruct Hs as [-> | ->]; split; try assumption; lia.
Qed.

Lemma field_ok_digits (alts : list alt) (n : Z) :
  field_ok alts n = true -> forallb is_digit (zero_pad 2 n) = true.
Proof.
  unfold field_ok. intros H. now apply andb_true_iff in H as [_ H].
Qed.

Lemma field_ok_spelled_digits (alts : list alt) (n : Z) (text : str) :
  field_ok alts n = true -> spelled n text -> forallb is_digit text = true.
Proof.
  unfold field_ok. intros H Hs.
  repeat (apply andb_true_iff in H as [H ?]).
  destruct Hs as [-> | ->]; assumption.
Qed.

Lemma digits_ascii (l : str) :
  forallb is_digit l = true -> forallb is_ascii l = true.
Proof.
  rewrite !forallb_forall. intros H x Hx. specialize (H x Hx).
  unfold is_digit, is_ascii in *. apply andb_true_iff in H as [_ H].
  apply N.leb_le in H. apply N.ltb_lt. lia.
Qed.

Lemma valid_datetime_ranges (t : datetime) :
  valid_datetime t = true ->
  1 <= year t <= 9999 /\ 1 <= month t <= 12 /\ 1 <= day t <= 31 /\
  0 <= hour t <= 23 /\ 0 <= minute t <= 59 /\ 0 <= second t <= 59.
Proof.
  unfold valid_datetime. intros H.
  repeat (apply andb_true_iff in H as [H ?]).
  assert (days_in_month (year t) (month t) <= 31).
  { unfold days_in_month.
    destruct (month t =? 2); [destruct (is_leap (year t)); lia|].
    destruct ((month t =? 4) || (month t =? 6) || (month t =? 9) ||
              (month t =? 11))%bool; lia. }
  lia.
Qed.

Lemma digit_not_sign (c x : N) :
  In c [45; 84; 58; 90]%N -> is_digit x = true -> lit_match c x = false.
Proof.
  intros Hc Hx. apply negb_true_iff. revert x Hx.
  simpl in Hc. destruct Hc as [<-|[<-|[<-|[<-|[]]]]];
    apply digits_forall; vm_compute; reflexivity.
Qed.

(** [strptime] takes every accepted text of a valid time. *)
Lemma strptime_accepts (t : datetime) (s : str) :
  valid_datetime t = true -> accepted_text t s -> strptime s = Ok t.
Proof.
  intros Hvalid (m & d & H & M & S & tt & zz & -> & Hm & Hd & HH & HM & HS
                 & Htt & Hzz).
  destruct (valid_datetime_ranges t Hvalid) as (Ry & Rm & Rd & RH & RM & RS).
  pose proof (year_ok_valid _ Ry) as Hy. unfold year_ok in Hy.
  destruct (zero_pad 4 (year t)) as [|a [|b [|c [|e [|]]]]]; try discriminate.
  apply andb_true_iff in Hy as [Hy Ey]. apply andb_true_iff in Hy as [Hy He].
  apply andb_true_iff in Hy as [Hy Hc]. apply andb_true_iff in Hy as [Ha Hb].
  destruct (field_ok_spelled _ _ _ (month_ok _ Rm) Hm) as [Tm Em].
  assert (Td : alts_text alts_d d = true /\ field_int d = day t).
  { destruct (day_ok _ Rd) as [Hok Hsp]. destruct Hd as [Hd|[H9 ->]].
    - exact (field_ok_spelled _ _ _ Hok Hd).
    - exact (Hsp H9). }
  destruct Td as [Td Ed].
  destruct (field_ok_spelled _ _ _ (hour_ok _ RH) HH) as [TH EH].
  destruct (field_ok_spelled _ _ _ (minute_ok _ RM) HM) as [TM EM].
  destruct (field_ok_spelled _ _ _ (second_ok _ RS) HS) as [TS ES].
  assert (Ltt : lit_match 84 tt = true /\ is_digit tt = false)
    by (destruct Htt as [-> | ->]; split; reflexivity).
  assert (Lzz : lit_match 90 zz = true /\ is_digit zz = false)
    by (destruct Hzz as [-> | ->]; split; reflexivity).
  assert (Hascii : forallb is_ascii
                     ([a; b; c; e] ++ [45%N] ++ m ++ [45%N] ++ d ++ [tt] ++
                      H ++ [58%N] ++ M ++ [58%N] ++ S ++ [zz]) = true).
  { rewrite !forallb_app.
    rewrite (digits_ascii m (field_ok_spelled_digits _ _ _ (month_ok _ Rm) Hm)).
    rewrite (digits_ascii H (field_ok_spelled_digits _ _ _ (hour_ok _ RH) HH)).
    rewrite (digits_ascii M (field_ok_spelled_digits _ _ _ (minute_ok _ RM) HM)).
    rewrite (digits_ascii S (field_ok_spelled_digits _ _ _ (second_ok _ RS) HS)).
    assert (Dd : forallb is_ascii d = true).
    { destruct (day_ok _ Rd) as [Hok _]. destruct Hd as [Hd|[_ ->]].
      - exact (digits_ascii d (field_ok_spelled_digits _ _ _ Hok Hd)).
      - cbn [forallb]. apply andb_true_iff. split; [reflexivity|].
        apply digits_ascii.
        exact (field_ok_spelled_digits _ _ _ Hok (or_intror eq_refl)). }
    rewrite Dd.
    rewrite (digits_ascii [a; b; c; e]);
      [|cbn [forallb]; now rewrite Ha, Hb, Hc, He].
    destruct Htt as [-> | ->], Hzz as [-> | ->]; reflexivity. }
  unfold strptime. rewrite Hascii. unfold match_format. cbn [app re_Y].
  rewrite Ha, Hb, Hc, He. cbn [andb literal].
  change (lit_match 45 45) with true. cbv iota.
  erewrite (re_alts_takes alts_m m 45 45);
    [|apply digit_seconds_m|exact Tm|reflexivity|reflexivity
     |intros x; apply digit_not_sign; simpl; tauto].
  erewrite (re_alts_takes alts_d d 84 tt);
    [|apply digit_seconds_d|exact Td|apply Ltt|apply Ltt
     |intros x; apply digit_not_sign; simpl; tauto].
  erewrite (re_alts_takes alts_H H 58 58);
    [|apply digit_seconds_H|exact TH|reflexivity|reflexivity
     |intros x; apply digit_not_sign; simpl; tauto].
  erewrite (re_alts_takes alts_M M 58 58);
    [|apply digit_seconds_M|exact TM|reflexivity|reflexivity
     |intros x; apply digit_not_sign; simpl; tauto].
  erewrite (re_alts_takes alts_S S 90 zz);
    [|apply digit_seconds_S|exact TS|apply Lzz|apply Lzz
     |intros x; apply digit_not_sign; simpl; tauto].
  apply Z.eqb_eq in Ey. rewrite Ey, Em, Ed, EH, EM, ES.
  destruct t; cbn [year month day hour minute second] in *.
  rewrite Hvalid. reflexivity.
Qed.

Ltac class_facts :=
  unfold between, is_digit in *;
  repeat match goal with
         | H : (_ && _)%bool = true |- _ => apply andb_true_iff in H as [? ?]
         | H : (_ =? _)%N = true |- _ => apply N.eqb_eq in H
         | H : (_ <=? _)%N = true |- _ => apply N.leb_le in H
         end.

Ltac digit_tac :=
  class_facts; apply andb_true_iff; split; apply N.leb_le; lia.

(** A text that a group takes is a spelling of its value. *)
Ltac spelled_tac text H :=
  unfold alts_text in H; cbn [existsb] in H;
  destruct text as [|?a [|?b [|]]]; cbn [alt_takes] in H;
  repeat (apply orb_true_iff in H as [H|H]); try discriminate;
  first
    [ right; symmetry; apply one_digit_repr; digit_tac
    | left; symmetry; apply two_digits_pad; digit_tac ].

Lemma alts_m_spelled (text : str) :
  alts_text alts_m text = true -> spelled (field_int text) text.
Proof. intros H. unfold alts_m in H. spelled_tac text H. Qed.

Lemma alts_H_spelled (text : str) :
  alts_text alts_H text = true -> spelled (field_int text) text.
Proof. intros H. unfold alts_H in H. spelled_tac text H. Qed.

Lemma alts_M_spelled (text : str) :
  alts_text alts_M text = true -> spelled (field_int text) text.
Proof. intros H. unfold alts_M in H. spelled_tac text H. Qed.

Lemma alts_S_spelled (text : str) :
  alts_text alts_S text = true -> spelled (field_int text) text.
Proof. intros H. unfold alts_S in H. spelled_tac text H. Qed.

Lemma alts_d_spelled (text : str) :
  alts_text alts_d text = true -> day_spelled (field_int text) text.
Proof.
  intros H. unfold alts_d, alts_text in H. cbn [existsb] in H.
  destruct text as [|a [|b [|]]]; cbn [alt_takes] in H;
    repeat (apply orb_true_iff in H as [H|H]); try discriminate.
  - left. right. symmetry. apply one_digit_repr. digit_tac.
  - left. left. symmetry. apply two_digits_pad; digit_tac.
  - left. left. symmetry. apply two_digits_pad; digit_tac.
  - left. left. symmetry. apply two_digits_pad; digit_tac.
  - apply andb_true_iff in H as [Ha Hb]. apply N.eqb_eq in Ha. subst a.
    destruct (space_digit_repr b Hb) as [H9 Hr].
    right. split; [exact H9|]. now rewrite Hr.
Qed.

Lemma lit_match_cases (c x : N) :
  lit_match c x = true ->
  x = c \/ (between 65 90 c = true /\ x = (c + 32)%N).
Proof.
  unfold lit_match. intros H. apply orb_true_iff in H as [H|H].
  - left. now apply N.eqb_eq.
  - right. apply andb_true_iff in H as [H1 H2]. split; [exact H1|].
    now apply N.eqb_eq.
Qed.

(** Whatever [strptime] takes is an accepted text of a valid time. *)
Lemma strptime_inv (s : str) (t : datetime) :
  strptime s = Ok t -> valid_datetime t = true /\ accepted_text t s.
Proof.
  unfold strptime. destruct (forallb is_ascii s); [|discriminate].
  destruct (match_format s) as [[t' [|]]|] eqn:E; try discriminate.
  destruct (valid_datetime t') eqn:Hvalid; [|discriminate].
  intros Et. injection Et as <-. split; [exact Hvalid|].
  unfold match_format in E.
  apply re_Y_inv in E as (a & b & c & d & s1 & -> & Ha & Hb & Hc & Hd & E).
  apply literal_inv in E as (x1 & s2 & -> & L1 & E).
  apply re_alts_inv in E as (m & s3 & -> & Tm & E).
  apply literal_inv in E as (x2 & s4 & -> & L2 & E).
  apply re_alts_inv in E as (dd & s5 & -> & Td & E).
  apply literal_inv in E as (tt & s6 & -> & L3 & E).
  apply re_alts_inv in E as (H & s7 & -> & TH & E).
  apply literal_inv in E as (x4 & s8 & -> & L4 & E).
  apply re_alts_inv in E as (M & s9 & -> & TM & E).
  apply literal_inv in E as (x5 & s10 & -> & L5 & E).
  apply re_alts_inv in E as (S & s11 & -> & TS & E).
  apply literal_inv in E as (zz & s12 & -> & L6 & E).
  injection E as <- ->.
  apply lit_match_cases in L1 as [->|[L1 _]]; [|discriminate].
  apply lit_match_cases in L2 as [->|[L2 _]]; [|discriminate].
  apply lit_match_cases in L4 as [->|[L4 _]]; [|discriminate].
  apply lit_match_cases in L5 as [->|[L5 _]]; [|discriminate].
  exists m, dd, H, M, S, tt, zz.
  cbn [year month day hour minute second].
  rewrite (four_digits_pad a b c d Ha Hb Hc Hd).
  split; [reflexivity|].
  split; [now apply alts_m_spelled|]. split; [now apply alts_d_spelled|].
  split; [now apply alts_H_spelled|]. split; [now apply alts_M_spelled|].
  split; [now apply alts_S_spelled|].
  split.
  - apply lit_match_cases in L3 as [->|[_ ->]]; [now left|now right].
  - apply lit_match_cases in L6 as [->|[_ ->]]; [now left|now right].
Qed.

Lemma replace1_app (c : N) (new a b : str) :
  replace1 c new (a ++ b) = (replace1 c new a ++ replace1 c new b)%list.
Proof. unfold replace1. apply flat_map_app. Qed.

Lemma replace1_digits (l : str) :
  forallb is_digit l = true -> replace1 84 [32%N] l = l.
Proof.
  unfold replace1. induction l as [|x l IH]; simpl; [reflexivity|].
  intros H. apply andb_true_iff in H as [Hx Hl].
  destruct (x =? 84)%N eqn:E.
  - apply N.eqb_eq in E. subst x. discriminate.
  - simpl. now rewrite (IH Hl).
Qed.

Lemma drop_last_app (a b : str) : drop_last (length b) (a ++ b) = a.
Proof.
  unfold drop_last. rewrite length_app, Nat.add_sub.
  rewrite firstn_app, Nat.sub_diag, firstn_all. simpl. apply app_nil_r.
Qed.

(** What the conversion makes of a valid time. *)
Lemma render_valid (t : datetime) :
  valid_datetime t = true ->
  (drop_last 6 (replace1 84 [32%N] (isoformat t)) ++ lit "+00:00")%list
  = plaso_time t.
Proof.
  intros Hvalid.
  destruct (valid_datetime_ranges t Hvalid) as (Ry & Rm & Rd & RH & RM & RS).
  assert (Dy : forallb is_digit (zero_pad 4 (year t)) = true).
  { pose proof (year_ok_valid _ Ry) as Hy. unfold year_ok in Hy.
    destruct (zero_pad 4 (year t)) as [|a [|b [|c [|e [|]]]]];
      try discriminate.
    apply andb_true_iff in Hy as [Hy _]. cbn [forallb].
    now rewrite andb_true_r, !andb_assoc. }
  pose proof (field_ok_digits _ _ (month_ok _ Rm)) as Dm.
  pose proof (field_ok_digits _ _ (proj1 (day_ok _ Rd))) as Dd.
  pose proof (field_ok_digits _ _ (hour_ok _ RH)) as DH.
  pose proof (field_ok_digits _ _ (minute_ok _ RM)) as DM.
  pose proof (field_ok_digits _ _ (second_ok _ RS)) as DS.
  assert (E : replace1 84 [32%N] (isoformat t) = plaso_time t).
  { unfold isoformat, plaso_time. rewrite !replace1_app.
    rewrite (replace1_digits _ Dy), (replace1_digits _ Dm),
      (replace1_digits _ Dd), (replace1_digits _ DH),
      (replace1_digits _ DM), (replace1_digits _ DS).
    reflexivity. }
  rewrite E. unfold plaso_time. rewrite !app_assoc.
  change 6%nat with (length (lit "+00:00")).
  now rewrite drop_last_app.
Qed.

Lemma pad2_ok_valid (n : Z) : 0 <= n <= 59 -> pad2_ok n = true.
Proof.
  intros Hn. apply (upto_forall pad2_ok 60); [vm_compute; reflexivity|lia].
Qed.

Lemma fixed_format_text_shape (t : datetime) :
  valid_datetime t = true -> has_fixed_format (fixed_format_text t) = true.
Proof.
  intros Hvalid.
  destruct (valid_datetime_ranges t Hvalid) as (Ry & Rm & Rd & RH & RM & RS).
  pose proof (year_ok_valid _ Ry) as Hy. unfold year_ok in Hy.
  assert (Hm : pad2_ok (month t) = true) by (apply pad2_ok_valid; lia).
  assert (Hd : pad2_ok (day t) = true) by (apply pad2_ok_valid; lia).
  assert (HH : pad2_ok (hour t) = true) by (apply pad2_ok_valid; lia).
  assert (HM : pad2_ok (minute t) = true) by (apply pad2_ok_valid; lia).
  assert (HS : pad2_ok (second t) = true) by (apply pad2_ok_valid; lia).
  unfold pad2_ok, fixed_format_text in *.
  destruct (zero_pad 4 (year t)) as [|y1 [|y2 [|y3 [|y4 [|]]]]];
    try discriminate.
  destruct (zero_pad 2 (month t)) as [|m1 [|m2 [|]]]; try discriminate.
  destruct (zero_pad 2 (day t)) as [|d1 [|d2 [|]]]; try discriminate.
  destruct (zero_pad 2 (hour t)) as [|h1 [|h2 [|]]]; try discriminate.
  destruct (zero_pad 2 (minute t)) as [|n1 [|n2 [|]]]; try discriminate.
  destruct (zero_pad 2 (second t)) as [|c1 [|c2 [|]]]; try discriminate.
  apply andb_true_iff in Hy as [Hy _].
  apply andb_true_iff in Hy as [Hy Hy4]. apply andb_true_iff in Hy as [Hy Hy3].
  apply andb_true_iff in Hy as [Hy1 Hy2].
  apply andb_true_iff in Hm as [Hm1 Hm2], Hd as [Hd1 Hd2], HH as [HH1 HH2],
    HM as [HM1 HM2], HS as [HS1 HS2].
  cbn [app has_fixed_format forallb].
  rewrite Hy1, Hy2, Hy3, Hy4, Hm1, Hm2, Hd1, Hd2, HH1, HH2, HM1, HM2, HS1, HS2.
  reflexivity.
Qed.

Lemma fixed_format_text_accepted (t : datetime) :
  accepted_text t (fixed_format_text t).
Proof.
  exists (zero_pad 2 (month t)), (zero_pad 2 (day t)), (zero_pad 2 (hour t)),
    (zero_pad 2 (minute t)), (zero_pad 2 (second t)), 84%N, 90%N.
  unfold spelled, day_spelled.
  split; [reflexivity|]. repeat (split; [now repeat left|]).
  now left.
Qed.

(** C4, as the code has it.  Timestamp transform: [eventTime] is parsed
    with [strptime] and the format [%Y-%m-%dT%H:%M:%SZ] and rendered as
    [YYYY-MM-DD HH:MM:SS+00:00], every field zero-padded.  A text of the
    fixed format [YYYY-MM-DDTHH:MM:SSZ] whose fields are a date and a time
    of day is converted digit for digit.  The texts that are converted are
    exactly the accepted ones: a year of four digits, then month, day, hour,
    minute and second of one or two digits (the day also as a space and a
    digit), with [T] and [Z] in either case, the fields being a date and a
    time of day; every other text in ASCII fails with ValueError. *)
Theorem event_time_transform :
  (forall t,
      valid_datetime t = true ->
      has_fixed_format (fixed_format_text t) = true /\
      convert_event_time_to_local (JStr (fixed_format_text t))
      = Ok (plaso_time t)) /\
  (forall s out,
      convert_event_time_to_local (JStr s) = Ok out <->
      exists t, valid_datetime t = true /\ accepted_text t s /\
                out = plaso_time t) /\
  (forall s,
      forallb is_ascii s = true ->
      (forall t, valid_datetime t = true -> ~ accepted_text t s) ->
      convert_event_time_to_local (JStr s) = Raise ValueError) /\
  convert_event_time_to_local (JStr (lit "2024-08-12T10:15:30Z"))
  = Ok (lit "2024-08-12 10:15:30+00:00").
Proof.
  assert (Hconv : forall t s,
             valid_datetime t = true -> accepted_text t s ->
             convert_event_time_to_local (JStr s) = Ok (plaso_time t)).
  { intros t s Hvalid Hacc. unfold convert_event_time_to_local.
    rewrite (strptime_accepts t s Hvalid Hacc). cbn [bind].
    now rewrite render_valid. }
  assert (Hinv : forall s out,
             convert_event_time_to_local (JStr s) = Ok out ->
             exists t, valid_datetime t = true /\ accepted_text t s /\
                       out = plaso_time t).
  { intros s out. unfold convert_event_time_to_local.
    destruct (strptime s) as [t|e] eqn:E; cbn [bind]; [|discriminate].
    destruct (strptime_inv s t E) as [Hvalid Hacc].
    rewrite (render_valid t Hvalid). intros Eo. injection Eo as <-.
    now exists t. }
  split; [|split; [|split]].
  - intros t Hvalid. split; [now apply fixed_format_text_shape|].
    apply Hconv; [exact Hvalid|apply fixed_format_text_accepted].
  - intros s out. split; [apply Hinv|].
    intros (t & Hvalid & Hacc & ->). now apply Hconv.
  - intros s Hascii Hnone.
    destruct (convert_event_time_to_local (JStr s)) as [out|e] eqn:E.
    + destruct (Hinv s out E) as (t & Hvalid & Hacc & _).
      destruct (Hnone t Hvalid Hacc).
    + unfold convert_event_time_to_local, strptime in E. rewrite Hascii in E.
      destruct (match_format s) as [[t [|]]|]; cbn [bind] in E;
        try (injection E as <-; reflexivity).
      destruct (valid_datetime t); cbn [bind] in E;
        [discriminate|injection E as <-; reflexivity].
  - reflexivity.
Qed.

Lemma event_time_transform_witness :
  has_fixed_format (fixed_format_text sample_time) = true /\
  convert_event_time_to_local (JStr (fixed_format_text sample_time))
  = Ok (plaso_time sample_time).
Proof.
  apply (proj1 event_time_transform sample_time). reflexivity.
Defined.

(** C4, as the specification words it, fails: a month of one digit is not of the
    fixed format, and the text is converted all the same. *)
Lemma one_digit_month_is_converted :
  has_fixed_format (lit "2024-8-12T10:15:30Z") = false /\
  convert_event_time_to_local (JStr (lit "2024-8-12T10:15:30Z"))
  = Ok (lit "2024-08-12 10:15:30+00:00").
Proof.
  split; reflexivity.
Qed.

(** ** Paths *)

Lemma span_name_spec (s : str) :
  s = (fst (span_name s) ++ snd (span_name s))%list /\
  no_slash (fst (span_name s)) = true /\
  (snd (span_name s) = [] \/ exists b, snd (span_name s) = slash :: b).
Proof.
  induction s as [|c r (IH1 & IH2 & IH3)]; simpl.
  - repeat split. now left.
  - destruct (c =? slash)%N eqn:E; simpl.
    + apply N.eqb_eq in E. subst c. repeat split. right. now exists r.
    + destruct (span_name r) as [name rest]. simpl in *.
      rewrite E. simpl. repeat split; [now f_equal|assumption..].
Qed.

Lemma span_name_app (x s : str) :
  no_slash x = true ->
  span_name (x ++ s) = ((x ++ fst (span_name s))%list, snd (span_name s)).
Proof.
  induction x as [|c x IH]; simpl; intros H.
  - now destruct (span_name s).
  - apply andb_true_iff in H as [Hc Hx]. apply negb_true_iff in Hc.
    rewrite Hc, (IH Hx). reflexivity.
Qed.

Lemma span_name_no_slash (x : str) :
  no_slash x = true -> span_name x = (x, []).
Proof.
  intros H. rewrite <- (app_nil_r x) at 1.
  rewrite (span_name_app x [] H). simpl. now rewrite app_nil_r.
Qed.

Lemma no_slash_rev (x : str) : no_slash (rev x) = no_slash x.
Proof.
  unfold no_slash. apply eq_true_iff_eq. rewrite !forallb_forall.
  split; intros H c Hc; apply H; [now apply in_rev in Hc|now apply in_rev].
Qed.

Lemma no_slash_app (x y : str) :
  no_slash (x ++ y) = no_slash x && no_slash y.
Proof. unfold no_slash. apply forallb_app. Qed.

Lemma split_slash_cons (s : str) :
  exists name names, split_slash s = name :: names.
Proof.
  induction s as [|c r (name & names & IH)]; simpl; [now eexists _, _|].
  destruct (c =? slash)%N; [now eexists _, _|].
  rewrite IH. now eexists _, _.
Qed.

Lemma split_slash_app (x y : str) :
  split_slash (x ++ slash :: y) = (split_slash x ++ split_slash y)%list.
Proof.
  induction x as [|c x IH]; simpl.
  - reflexivity.
  - destruct (c =? slash)%N; [now rewrite IH|].
    rewrite IH. destruct (split_slash_cons x) as (name & names & ->).
    reflexivity.
Qed.

Lemma split_slash_no_slash (t : str) :
  no_slash t = true -> split_slash t = [t].
Proof.
  induction t as [|c t IH]; simpl; [reflexivity|].
  intros H. apply andb_true_iff in H as [Hc Ht]. apply negb_true_iff in Hc.
  now rewrite Hc, (IH Ht).
Qed.

Lemma split_slash_slashes (k : nat) (t : str) :
  no_slash t = true ->
  split_slash (repeat slash k ++ t) = (repeat [] k ++ [t])%list.
Proof.
  intros Ht. induction k as [|k IH]; simpl.
  - now apply split_slash_no_slash.
  - now rewrite IH.
Qed.

Lemma lstrip_slashes_spec (s : str) :
  exists k, s = (repeat slash k ++ lstrip_slashes s)%list /\
            (lstrip_slashes s = [] \/
             exists c r, lstrip_slashes s = c :: r /\ c <> slash).
Proof.
  induction s as [|c s (k & IH1 & IH2)]; simpl.
  - exists 0%nat. split; [reflexivity|now left].
  - destruct (c =? slash)%N eqn:E.
    + apply N.eqb_eq in E. subst c. exists (S k). simpl.
      split; [now f_equal|assumption].
    + exists 0%nat. split; [reflexivity|]. right. exists c, s.
      split; [reflexivity|]. now apply N.eqb_neq.
Qed.

Lemma all_slashes_repeat (s : str) :
  forallb (N.eqb slash) s = true -> s = repeat slash (length s).
Proof.
  induction s as [|c s IH]; cbn [forallb length repeat]; [reflexivity|].
  intros H. apply andb_true_iff in H as [Hc Hs]. apply N.eqb_eq in Hc.
  subst c. now rewrite <- (IH Hs).
Qed.

Lemma rev_repeat {A} (x : A) (k : nat) : rev (repeat x k) = repeat x k.
Proof.
  induction k as [|k IH]; simpl; [reflexivity|].
  rewrite IH. clear IH. induction k; simpl; [reflexivity|]. now f_equal.
Qed.

(** What [posixpath.split] gives: the tail has no separator; the head is
    made of separators only and the path is head and tail, or the head ends
    with a name and separators stand between it and the tail. *)
Lemma path_split_spec (p : str) :
  let (head, tail) := path_split p in
  no_slash tail = true /\
  ((forallb (N.eqb slash) head = true /\ p = (head ++ tail)%list) \/
   (exists k h c, head = (h ++ [c])%list /\ c <> slash /\
                  p = (head ++ repeat slash (S k) ++ tail)%list)).
Proof.
  unfold path_split.
  destruct (span_name_spec (rev p)) as (Hrev & Hns & Hrest).
  destruct (span_name (rev p)) as [tail_rev head_rev]. simpl in *.
  assert (Hp : p = (rev head_rev ++ rev tail_rev)%list).
  { rewrite <- (rev_involutive p), Hrev, rev_app_distr. reflexivity. }
  split; [now rewrite no_slash_rev|].
  destruct (forallb (N.eqb slash) (rev head_rev)) eqn:Hall.
  - left. split; [exact Hall|exact Hp].
  - right.
    destruct (lstrip_slashes_spec head_rev) as (k & Hk & Hstrip).
    destruct Hstrip as [Hnil|(c & r & Hcr & Hc)].
    + exfalso. rewrite Hnil, app_nil_r in Hk. rewrite Hk, rev_repeat in Hall.
      assert (forallb (N.eqb slash) (repeat slash k) = true).
      { clear. induction k; simpl; [reflexivity|assumption]. }
      congruence.
    + destruct k as [|k].
      * exfalso. simpl in Hk. rewrite Hcr in Hk.
        destruct Hrest as [E|(b & Eb)]; congruence.
      * exists k, (rev r), c. rewrite Hcr. simpl. split; [reflexivity|].
        split; [exact Hc|]. rewrite Hp at 1. rewrite Hk at 1.
        rewrite rev_app_distr, rev_repeat, Hcr. simpl.
        rewrite <- !app_assoc. reflexivity.
Qed.

Lemma filter_names_empties (k : nat) (l : list str) :
  filter is_name (repeat [] k ++ l) = filter is_name l.
Proof. induction k; simpl; assumption || reflexivity. Qed.

Lemma existsb_dotdot_empties (k : nat) (l : list str) :
  existsb is_dotdot (repeat [] k ++ l) = existsb is_dotdot l.
Proof. induction k; simpl; assumption || reflexivity. Qed.

Lemma startswith_slash_app (head x : str) :
  head <> [] -> startswith [slash] (head ++ x) = startswith [slash] head.
Proof. destruct head; [congruence|reflexivity]. Qed.

Lemma startswith_slash_no_slash (t : str) :
  no_slash t = true -> startswith [slash] t = false.
Proof.
  destruct t as [|c t]; [reflexivity|]. cbn [no_slash forallb startswith].
  intros H. apply andb_true_iff in H as [H _]. apply negb_true_iff in H.
  rewrite N.eqb_sym, H. reflexivity.
Qed.

(** The node of a path is the node of its head with its tail. *)
Lemma resolve_split (p : str) :
  resolve p =
  (nh <- resolve (fst (path_split p)) ;;
   if is_dotdot (snd (path_split p)) then Raise NotModelled
   else Ok (add_name nh (snd (path_split p)))).
Proof.
  pose proof (path_split_spec p) as H.
  destruct (path_split p) as [head tail]. cbn [fst snd].
  destruct H as [Htail [[Hall Hp]|(k & h & c & Hh & Hc & Hp)]].
  - apply all_slashes_repeat in Hall. remember (length head) as j.
    clear Heqj. subst head p. unfold resolve.
    replace (split_slash (repeat slash j))
      with (repeat (@nil N) j ++ [[]])%list
      by (rewrite <- (app_nil_r (repeat slash j));
          now rewrite split_slash_slashes).
    rewrite (split_slash_slashes j tail Htail).
    rewrite !existsb_dotdot_empties, !filter_names_empties.
    cbn [existsb filter is_name orb].
    replace (is_dotdot []) with false by reflexivity.
    rewrite orb_false_r. cbn [orb bind].
    assert (Hm : startswith [slash] (repeat slash j ++ tail)
                 = startswith [slash] (repeat slash j)).
    { destruct j; simpl;
        [now apply startswith_slash_no_slash|reflexivity]. }
    rewrite Hm.
    destruct (is_dotdot tail); [reflexivity|].
    unfold add_name. rewrite app_nil_r.
    destruct (is_name tail); [reflexivity|now rewrite app_nil_r].
  - subst p. unfold resolve. cbn [repeat app].
    rewrite split_slash_app, (split_slash_slashes k tail Htail).
    rewrite existsb_app, existsb_dotdot_empties, filter_app,
      filter_names_empties.
    rewrite startswith_slash_app by (rewrite Hh; now destruct h).
    cbn [existsb filter]. rewrite orb_false_r.
    destruct (existsb is_dotdot (split_slash head)); cbn [orb bind];
      [reflexivity|].
    destruct (is_dotdot tail); [reflexivity|].
    unfold add_name. destruct (is_name tail);
      [now rewrite app_assoc|now rewrite !app_nil_r].
Qed.

(** ** Directories *)

Lemma is_dir_spec (fs : filesystem) (n : node) :
  is_dir fs n = true <-> n = [] \/ n = [[]] \/ In n (dirs fs).
Proof.
  unfold is_dir.
  destruct n as [|[|c x] [|y n]]; try (split; [intros _|reflexivity]; tauto);
    destruct (in_dec node_eq_dec _ (dirs fs)); split; try tauto;
    try discriminate; intros [E|[E|E]]; try discriminate; contradiction.
Qed.

Lemma is_prefix_refl (n : node) : is_prefix n n.
Proof. exists []. now rewrite app_nil_r. Qed.

Lemma is_prefix_trans (a b c : node) :
  is_prefix a b -> is_prefix b c -> is_prefix a c.
Proof. intros [r ->] [r' ->]. exists (r ++ r')%list. now rewrite app_assoc. Qed.

Lemma is_prefix_snoc (q n : node) (x : str) :
  is_prefix q (n ++ [x]) <-> is_prefix q n \/ q = (n ++ [x])%list.
Proof.
  split.
  - intros [r E].
    destruct r as [|y r]; [right; now rewrite app_nil_r in E|].
    destruct (@exists_last _ (y :: r)) as (r' & z & Er); [discriminate|].
    rewrite Er, app_assoc in E. apply app_inj_tail in E as [E _].
    left. now exists r'.
  - intros [[r ->]| ->]; [|apply is_prefix_refl].
    exists (r ++ [x])%list. now rewrite app_assoc.
Qed.

Lemma is_prefix_add_name (q n : node) (t : str) :
  is_prefix q (add_name n t) <-> is_prefix q n \/ q = add_name n t.
Proof.
  unfold add_name. destruct (is_name t); [apply is_prefix_snoc|].
  split; [now left|]. intros [H| ->]; [exact H|apply is_prefix_refl].
Qed.

Lemma is_prefix_add_name_self (n : node) (t : str) :
  is_prefix n (add_name n t).
Proof. apply is_prefix_add_name. left. apply is_prefix_refl. Qed.

(** The walk to a node goes through when the nodes above it are
    directories. *)
Lemma walk_ok (fs : filesystem) (names : list str) (seen : node) :
  (forall q r, names = (q ++ r)%list -> q <> [] -> r <> [] ->
               is_dir fs (seen ++ q) = true) ->
  walk fs seen names = Ok tt.
Proof.
  revert seen. induction names as [|x names IH]; intros seen H;
    [reflexivity|].
  destruct names as [|y names]; [reflexivity|].
  cbn [walk]. rewrite (H [x] (y :: names) eq_refl); try discriminate.
  apply IH. intros q r E Hq Hr.
  rewrite <- app_assoc. apply (H (x :: q) r); try assumption;
    [simpl; now f_equal|discriminate].
Qed.

Lemma walk_inv (fs : filesystem) (names : list str) (seen : node) :
  walk fs seen names = Ok tt ->
  forall q r, names = (q ++ r)%list -> q <> [] -> r <> [] ->
              is_dir fs (seen ++ q) = true.
Proof.
  revert seen. induction names as [|x names IH]; intros seen H q r E Hq Hr.
  - destruct q; [congruence|discriminate].
  - destruct names as [|y names].
    + destruct q as [|x' [|]], r; try congruence; try discriminate.
    + cbn [walk] in H.
      destruct (is_dir fs (seen ++ [x])) eqn:Hd;
        [|destruct (is_file fs (seen ++ [x])); discriminate].
      destruct q as [|x' q]; [congruence|]. injection E as <- E.
      destruct q as [|z q]; [exact Hd|].
      change (seen ++ x :: z :: q)%list with (seen ++ [x] ++ z :: q)%list.
      rewrite app_assoc. apply (IH _ H (z :: q) r E); [discriminate|exact Hr].
Qed.

Lemma walk_Raise (fs : filesystem) (names : list str) (seen : node) (e : exn) :
  walk fs seen names = Raise e -> e <> NotModelled.
Proof.
  revert seen. induction names as [|x names IH]; intros seen; [discriminate|].
  destruct names as [|y names]; [discriminate|]. cbn [walk].
  destruct (is_dir fs (seen ++ [x])); [apply IH|].
  destruct (is_file fs (seen ++ [x])); intros E; injection E as <-;
    discriminate.
Qed.

Lemma lookup_spec (p : str) (n : node) (fs : filesystem) :
  p <> [] -> resolve p = Ok n ->
  lookup p fs = (_ <- walk fs [] n ;; Ok n, fs).
Proof.
  intros Hp Hn. unfold lookup. destruct p; [congruence|].
  unfold io_bind, lift. rewrite Hn. reflexivity.
Qed.

Lemma add_dir_is_dir (n : node) (fs : filesystem) :
  is_dir (add_dir n fs) n = true.
Proof.
  unfold add_dir. destruct (is_dir fs n) eqn:E; [exact E|].
  apply is_dir_spec. right. right. simpl. apply in_or_app. right. now left.
Qed.

Lemma add_dir_keeps (n q : node) (fs : filesystem) :
  is_dir fs q = true -> is_dir (add_dir n fs) q = true.
Proof.
  unfold add_dir. destruct (is_dir fs n); [tauto|].
  rewrite !is_dir_spec. simpl. rewrite in_app_iff. tauto.
Qed.

Lemma add_dir_only (n q : node) (fs : filesystem) :
  is_dir (add_dir n fs) q = true -> is_dir fs q = true \/ q = n.
Proof.
  unfold add_dir. destruct (is_dir fs n); [tauto|].
  rewrite !is_dir_spec. simpl. rewrite in_app_iff. simpl.
  intuition congruence.
Qed.

Lemma add_dir_files (n : node) (fs : filesystem) :
  files (add_dir n fs) = files fs.
Proof. unfold add_dir. now destruct (is_dir fs n). Qed.

(** [mkdir] with [exist_ok]: the directory is there afterwards. *)
Lemma mkdir_exist_ok_spec (p : str) (n : node) (fs : filesystem) :
  p <> [] -> resolve p = Ok n ->
  (forall q r, n = (q ++ r)%list -> r <> [] -> is_dir fs q = true) ->
  is_file fs n = false ->
  mkdir_exist_ok p fs = (Ok tt, add_dir n fs).
Proof.
  intros Hp Hn Habove Hfile.
  assert (Hwalk : walk fs [] n = Ok tt).
  { apply walk_ok. intros q r E _ Hr. exact (Habove q r E Hr). }
  unfold mkdir_exist_ok, mkdir, path_isdir, io_bind, add_dir.
  rewrite (lookup_spec p n fs Hp Hn), Hwalk. cbn [bind].
  rewrite Hfile, orb_false_r.
  destruct (is_dir fs n) eqn:Hd; [|reflexivity].
  rewrite (lookup_spec p n fs Hp Hn), Hwalk. cbn [bind]. now rewrite Hd.
Qed.

Lemma bind_ret {A} (m : result A) : (x <- m ;; Ok x) = m.
Proof. now destruct m. Qed.

Lemma resolve_makedirs_split (name : str) :
  resolve name =
  (nh <- resolve (fst (makedirs_split name)) ;;
   if is_dotdot (snd (makedirs_split name)) then Raise NotModelled
   else Ok (add_name nh (snd (makedirs_split name)))).
Proof.
  unfold makedirs_split. rewrite (resolve_split name).
  destruct (path_split name) as [head0 tail0]. cbn [fst snd].
  destruct tail0 as [|c tail0]; [|reflexivity].
  replace (is_dotdot []) with false by reflexivity.
  unfold add_name at 1. cbn [is_name]. rewrite bind_ret.
  rewrite (resolve_split head0). now destruct (path_split head0).
Qed.

Lemma path_split_length (p : str) :
  (length (fst (path_split p)) + length (snd (path_split p)) <= length p)%nat.
Proof.
  pose proof (path_split_spec p) as H.
  destruct (path_split p) as [head tail]. cbn [fst snd].
  destruct H as [_ [[_ Hp]|(k & h & c & _ & _ & Hp)]];
    apply (f_equal (@length N)) in Hp; rewrite !length_app in Hp; lia.
Qed.

Lemma makedirs_split_length (name : str) :
  snd (makedirs_split name) <> [] ->
  (length (fst (makedirs_split name)) < length name)%nat.
Proof.
  unfold makedirs_split. pose proof (path_split_length name) as H.
  destruct (path_split name) as [head0 tail0]. cbn [fst snd] in *.
  destruct tail0 as [|c tail0].
  - pose proof (path_split_length head0) as H'.
    destruct (path_split head0) as [head tail]. cbn [fst snd] in *.
    intros Ht. destruct tail; [congruence|]. simpl in *. lia.
  - cbn [fst snd]. intros _. simpl in *. lia.
Qed.

Lemma resolve_slashes (j : nat) : resolve (repeat slash (S j)) = Ok [[]].
Proof.
  unfold resolve.
  replace (split_slash (repeat slash (S j)))
    with (repeat (@nil N) (S j) ++ [[]])%list
    by (rewrite <- (app_nil_r (repeat slash (S j)));
        now rewrite split_slash_slashes).
  rewrite existsb_dotdot_empties, filter_names_empties. reflexivity.
Qed.

Lemma all_slashes_snoc (h : str) (c : N) :
  c <> slash -> forallb (N.eqb slash) (h ++ [c]) = false.
Proof.
  intros Hc. rewrite forallb_app. cbn [forallb].
  apply N.eqb_neq in Hc. rewrite N.eqb_sym, Hc.
  now rewrite andb_false_r.
Qed.

(** A path whose last name [os.makedirs] finds empty is made of separators:
    it is the root. *)
Lemma makedirs_split_root (name head : str) :
  makedirs_split name = (head, []) -> head <> [] ->
  resolve name = Ok [[]].
Proof.
  unfold makedirs_split. pose proof (path_split_spec name) as H0.
  destruct (path_split name) as [head0 tail0].
  destruct tail0 as [|c0 tail0]; [|discriminate].
  pose proof (path_split_spec head0) as H1. intros E. rewrite E in H1.
  intros Hhead. destruct H1 as [_ H1].
  destruct H0 as [_ [[Hall0 Hname]|(k & h & c & Hh & Hc & Hname)]].
  - destruct H1 as [[Hall E1]|(k' & h' & c' & Hh' & Hc' & E1)].
    + rewrite app_nil_r in Hname, E1. subst name head0.
      apply all_slashes_repeat in Hall. rewrite Hall.
      destruct (length head) eqn:El; [|apply resolve_slashes].
      destruct head; [congruence|discriminate].
    + exfalso. rewrite E1, Hh', app_nil_r in Hall0.
      rewrite forallb_app, (all_slashes_snoc h' c' Hc') in Hall0.
      discriminate.
  - exfalso. destruct H1 as [[Hall E1]|(k' & h' & c' & Hh' & Hc' & E1)].
    + rewrite app_nil_r in E1. rewrite E1 in Hh.
      rewrite Hh, (all_slashes_snoc h c Hc) in Hall. discriminate.
    + rewrite app_nil_r in E1. rewrite Hh in E1.
      change (repeat slash (S k')) with (slash :: repeat slash k') in E1.
      rewrite repeat_cons, app_assoc in E1.
      apply app_inj_tail in E1 as [_ E1]. congruence.
Qed.

Lemma proper_prefix_add_name (nh q r : node) (tail : str) :
  add_name nh tail = (q ++ r)%list -> r <> [] -> is_prefix q nh.
Proof.
  intros E Hr.
  assert (H : is_prefix q (add_name nh tail)) by now exists r.
  apply is_prefix_add_name in H as [H|H]; [exact H|].
  exfalso. rewrite <- H in E. rewrite <- (app_nil_r q) in E at 1.
  apply app_inv_head in E. congruence.
Qed.

Lemma is_file_same_files (fs fs' : filesystem) (n : node) :
  files fs' = files fs -> is_file fs' n = is_file fs n.
Proof. unfold is_file. now intros ->. Qed.

Lemma mkdir_made (name : str) (n : node) (fs : filesystem) :
  name <> [] -> resolve name = Ok n ->
  (forall q r, n = (q ++ r)%list -> r <> [] -> is_dir fs q = true) ->
  is_file fs n = false ->
  mkdir_exist_ok name fs = (Ok tt, add_dir n fs) /\ made fs (add_dir n fs) n.
Proof.
  intros Hname Hn Habove Hfile.
  split; [now apply mkdir_exist_ok_spec|].
  split; [apply add_dir_files|]. split; [|split].
  - intros q [r E]. destruct r as [|x r].
    + rewrite app_nil_r in E. subst q. apply add_dir_is_dir.
    + apply add_dir_keeps. apply (Habove q (x :: r) E). discriminate.
  - intros q Hq. apply add_dir_only in Hq as [Hq| ->]; [now left|].
    right. apply is_prefix_refl.
  - intros q. apply add_dir_keeps.
Qed.

Lemma walk_dirs_upto (fs : filesystem) (n : node) :
  walk fs [] n = Ok tt -> is_dir fs n = true ->
  forall q, is_prefix q n -> is_dir fs q = true.
Proof.
  intros Hw Hd q [r E]. destruct r as [|x r].
  - rewrite app_nil_r in E. now subst q.
  - destruct q as [|y q]; [reflexivity|].
    apply (walk_inv fs n [] Hw (y :: q) (x :: r) E); discriminate.
Qed.

(** [os.makedirs] makes the directory of a path and the missing ones above
    it, unless a regular file stands in the way. *)
Lemma makedirs_spec (fuel : nat) :
  forall (name : str) (n : node) (fs : filesystem),
    (length name < fuel)%nat -> name <> [] ->
    resolve name = Ok n -> no_file_on fs n ->
    exists fs', makedirs fuel name fs = (Ok tt, fs') /\ made fs fs' n.
Proof.
  induction fuel as [|fuel IH]; intros name n fs Hlen Hname Hn Hnf; [lia|].
  cbn [makedirs].
  pose proof (resolve_makedirs_split name) as F1. rewrite Hn in F1.
  pose proof (makedirs_split_length name) as F2.
  pose proof (makedirs_split_root name) as F3.
  destruct (makedirs_split name) as [head tail]. cbn [fst snd] in F1, F2.
  assert (Hfile : is_file fs n = false) by apply Hnf, is_prefix_refl.
  assert (Hshort : (length n <= 1)%nat ->
            exists fs', mkdir_exist_ok name fs = (Ok tt, fs') /\ made fs fs' n).
  { intros Hl. exists (add_dir n fs). apply mkdir_made; try assumption.
    intros q r E Hr. apply (f_equal (@length str)) in E.
    rewrite length_app in E. destruct q; [reflexivity|].
    destruct r; [congruence|]. simpl in E. lia. }
  destruct head as [|h head].
  { apply Hshort. cbn [resolve split_slash existsb bind] in F1.
    change (resolve []) with (@Ok node []) in F1. cbn [bind] in F1.
    destruct (is_dotdot tail); [discriminate|]. injection F1 as ->.
    unfold add_name. destruct (is_name tail); simpl; lia. }
  destruct tail as [|t tail].
  { apply Hshort. rewrite (F3 (h :: head) eq_refl) in Hn by discriminate.
    injection Hn as <-. simpl. lia. }
  destruct (resolve (h :: head)) as [nh|] eqn:Hnh; [|discriminate].
  cbn [bind] in F1.
  destruct (is_dotdot (t :: tail)); [discriminate|]. injection F1 as Hn'.
  assert (Hpre : is_prefix nh n)
    by (rewrite Hn'; apply is_prefix_add_name_self).
  assert (Hmk : forall fs1,
             files fs1 = files fs ->
             (forall q, is_prefix q nh -> is_dir fs1 q = true) ->
             exists fs', mkdir_exist_ok name fs1 = (Ok tt, fs') /\
                         made fs1 fs' n).
  { intros fs1 Hfiles Hdirs. exists (add_dir n fs1).
    apply mkdir_made; try assumption.
    - intros q r E Hr. apply Hdirs. rewrite Hn' in E.
      exact (proper_prefix_add_name _ _ _ _ E Hr).
    - now rewrite (is_file_same_files fs fs1 n Hfiles). }
  assert (Hrec : forall b fs0,
             path_exists (h :: head) fs = (Ok b, fs0) ->
             (b = true -> forall q, is_prefix q nh -> is_dir fs q = true) ->
             fs0 = fs /\
             exists fs',
               (if b then mkdir_exist_ok name
                else _ <~ (fun fs => match makedirs fuel (h :: head) fs with
                                     | (Raise FileExistsError, fs') =>
                                         (Ok tt, fs')
                                     | other => other
                                     end) ;;
                     if str_eq_dec (t :: tail) dot then io_ret tt
                     else mkdir_exist_ok name) fs
               = (Ok tt, fs') /\ made fs fs' n).
  { intros b fs0 Hex Hb.
    pose proof (path_exists_state (h :: head) fs) as Hst.
    rewrite Hex in Hst. cbn [snd] in Hst. split; [exact Hst|].
    destruct b.
    - apply (Hmk fs eq_refl). now apply Hb.
    - destruct (IH (h :: head) nh fs) as (fs1 & Hrun & Hmade);
        [specialize (F2 ltac:(discriminate)); lia|discriminate|exact Hnh|
         intros q Hq; apply Hnf; exact (is_prefix_trans _ _ _ Hq Hpre)|].
      unfold io_bind. rewrite Hrun.
      destruct Hmade as (Hf1 & Hd1 & Ho1 & Hk1).
      destruct (str_eq_dec (t :: tail) dot) as [Edot|Ndot].
      + exists fs1. split; [reflexivity|].
        assert (En : n = nh) by (rewrite Hn', Edot; reflexivity).
        rewrite En. repeat split; assumption.
      + destruct (Hmk fs1 Hf1 Hd1) as (fs' & Hrun' & Hf2 & Hd2 & Ho2 & Hk2).
        exists fs'. split; [exact Hrun'|].
        split; [congruence|]. split; [exact Hd2|]. split.
        * intros q Hq. apply Ho2 in Hq as [Hq|Hq]; [|now right].
          apply Ho1 in Hq as [Hq|Hq]; [now left|].
          right. exact (is_prefix_trans _ _ _ Hq Hpre).
        * intros q Hq. apply Hk2, Hk1, Hq. }
  unfold io_bind at 1.
  destruct (path_exists (h :: head) fs) as [[b|e] fs0] eqn:Hex.
  - assert (Hb : b = true -> forall q, is_prefix q nh -> is_dir fs q = true).
    { intros ->. unfold path_exists in Hex.
      rewrite (lookup_spec (h :: head) nh fs ltac:(discriminate) Hnh) in Hex.
      destruct (walk fs [] nh) as [[]|e] eqn:Hw; cbn [bind] in Hex.
      - injection Hex as Hex _.
        rewrite (Hnf nh Hpre), orb_false_r in Hex.
        now apply walk_dirs_upto.
      - destruct e; discriminate. }
    destruct (Hrec b fs0 eq_refl Hb) as [-> Hres]. exact Hres.
  - exfalso. unfold path_exists in Hex.
    rewrite (lookup_spec (h :: head) nh fs ltac:(discriminate) Hnh) in Hex.
    destruct (walk fs [] nh) as [[]|e'] eqn:Hw; cbn [bind] in Hex;
      [discriminate|].
    pose proof (walk_Raise _ _ _ _ Hw). destruct e'; congruence.
Qed.

(** ** The loop of the Writer *)

Lemma dict_set_set {K V} (eq_dec : forall a b : K, {a = b} + {a <> b})
    (k : K) (v v' : V) (d : list (K * V)) :
  dict_set eq_dec k v' (dict_set eq_dec k v d) = dict_set eq_dec k v' d.
Proof.
  induction d as [|[k0 v0] d IH]; simpl.
  - destruct (eq_dec k k); [reflexivity|congruence].
  - destruct (eq_dec k k0) as [->|Hne]; simpl.
    + destruct (eq_dec k0 k0); [reflexivity|congruence].
    + destruct (eq_dec k k0); [congruence|]. now rewrite IH.
Qed.

Lemma set_file_set_file (n : node) (a b : str) (fs : filesystem) :
  set_file n b (set_file n a fs) = set_file n b fs.
Proof. unfold set_file. simpl. now rewrite dict_set_set. Qed.

Lemma set_file_get (n : node) (a : str) (fs : filesystem) :
  dict_get node_eq_dec n (files (set_file n a fs)) = Some a.
Proof. apply dict_get_set_same. Qed.

Lemma set_file_get_other (n q : node) (a : str) (fs : filesystem) :
  q <> n ->
  dict_get node_eq_dec q (files (set_file n a fs))
  = dict_get node_eq_dec q (files fs).
Proof. intros H. now apply dict_get_set_other. Qed.

Lemma file_write_set_file (n : node) (text data : str) (fs : filesystem) :
  file_write (Some n) data (set_file n text fs)
  = (Ok tt, set_file n (text ++ data) fs).
Proof.
  unfold file_write. rewrite set_file_get.
  now rewrite <- (set_file_set_file n text (text ++ data) fs).
Qed.

Lemma open_w_spec (fs : filesystem) (path : str) (n : node) :
  can_open fs path n -> open_w path fs = (Ok n, set_file n [] fs).
Proof.
  intros (Hp & Hn & Hw & Hd & He). unfold open_w, io_bind.
  rewrite (lookup_spec path n fs Hp Hn), Hw. cbn [bind].
  now rewrite Hd, He.
Qed.

Lemma is_dir_same_dirs (fs fs' : filesystem) (n : node) :
  dirs fs' = dirs fs -> is_dir fs' n = is_dir fs n.
Proof. unfold is_dir. now intros ->. Qed.

Lemma can_open_same_dirs (fs fs' : filesystem) (path : str) (n : node) :
  dirs fs' = dirs fs -> can_open fs path n -> can_open fs' path n.
Proof.
  intros Hd (Hp & Hn & Hw & Hdir & He).
  repeat split; try assumption.
  - apply walk_ok. intros q r E Hq Hr.
    rewrite (is_dir_same_dirs fs fs' _ Hd).
    exact (walk_inv fs n [] Hw q r E Hq Hr).
  - now rewrite (is_dir_same_dirs fs fs' _ Hd).
Qed.

(** Events written between two openings go to the file that is open. *)
Lemma write_run (output_filepath : str) (multiple_files : bool)
    (seg rest : list json) :
  forall (file_index line_count : Z) (f : node) (text : str)
         (fs : filesystem),
    (forall j, 0 <= j < Z.of_nat (length seg) ->
               (line_count + j) mod 500000 <> 0) ->
    write_loop output_filepath multiple_files (seg ++ rest)
      file_index line_count (Some f) (set_file f text fs)
    = write_loop output_filepath multiple_files rest
        file_index (line_count + Z.of_nat (length seg)) (Some f)
        (set_file f (text ++ lines_of seg) fs).
Proof.
  induction seg as [|event seg IH]; intros file_index line_count f text fs H.
  - simpl. now rewrite Z.add_0_r, app_nil_r.
  - cbn [app write_loop].
    assert (H0 : (line_count mod 500000 =? 0) = false).
    { apply Z.eqb_neq. specialize (H 0). rewrite Z.add_0_r in H.
      apply H. simpl length. lia. }
    rewrite H0. unfold io_bind at 1. unfold io_ret at 1.
    unfold io_bind at 1. rewrite file_write_set_file.
    rewrite IH.
    + f_equal.
      * simpl length. lia.
      * unfold lines_of. cbn [flat_map]. now rewrite <- !app_assoc.
    + intros j Hj. replace (line_count + 1 + j) with (line_count + (1 + j))
        by lia. apply H. simpl length. lia.
Qed.

(** A chunk that starts where the count is a multiple of 500000: its file
    is opened, and the events of the chunk are its lines. *)
Lemma write_chunk (output_filepath : str) (multiple_files : bool)
    (event : json) (seg rest : list json) (file_index line_count : Z)
    (output_file : option node) (f : node) (fs : filesystem) :
  line_count mod 500000 = 0 ->
  (length seg < chunk_size)%nat ->
  can_open fs
    (if multiple_files then part_path output_filepath (file_index + 1)
     else output_filepath) f ->
  write_loop output_filepath multiple_files (event :: seg ++ rest)
    file_index line_count output_file fs
  = write_loop output_filepath multiple_files rest
      (file_index + 1) (line_count + Z.of_nat (length (event :: seg)))
      (Some f) (set_file f (lines_of (event :: seg)) fs).
Proof.
  intros Hlc Hlen Hopen. cbn [write_loop].
  rewrite Hlc. cbn [Z.eqb]. unfold io_bind at 1. unfold io_bind at 1.
  unfold part_path in Hopen.
  destruct multiple_files; rewrite (open_w_spec fs _ f Hopen);
    unfold io_ret at 1; unfold io_bind at 1;
    rewrite file_write_set_file, write_run;
    try (f_equal; simpl length; lia);
    intros j Hj; unfold chunk_size in Hlen;
    Z.to_euclidean_division_equations; lia.
Qed.

Lemma chunk_size_Z : Z.of_nat chunk_size = 500000.
Proof. unfold chunk_size. lia. Qed.

Lemma chunk_size_pos : (0 < chunk_size)%nat.
Proof. pose proof chunk_size_Z. lia. Qed.

Lemma part_exists_first (n : nat) : (0 < n)%nat -> part_exists n 1.
Proof. unfold part_exists. lia. Qed.

Lemma part_exists_none (k : nat) : ~ part_exists 0 k.
Proof. unfold part_exists. lia. Qed.

Lemma part_exists_next (n k : nat) :
  part_exists (n - chunk_size) k -> part_exists n (S k).
Proof.
  unfold part_exists. generalize chunk_size. intros T [H1 H2].
  split; [lia|]. nia.
Qed.

Lemma part_exists_prev (n k : nat) :
  part_exists n (S k) -> (1 <= k)%nat -> part_exists (n - chunk_size) k.
Proof.
  unfold part_exists. generalize chunk_size. intros T [H1 H2] Hk.
  split; [lia|]. nia.
Qed.

Lemma part_events_next (events : list json) (k : nat) :
  (1 <= k)%nat ->
  part_events events (S k) = part_events (skipn chunk_size events) k.
Proof.
  intros Hk. unfold part_events. generalize chunk_size. intros T.
  rewrite skipn_skipn. do 2 f_equal. nia.
Qed.

Lemma part_events_first (event : json) (events : list json) :
  part_events (event :: events) 1
  = event :: firstn (chunk_size - 1) events.
Proof.
  unfold part_events. pose proof chunk_size_pos as H. revert H.
  generalize chunk_size. intros T HT.
  replace ((1 - 1) * T)%nat with 0%nat by lia.
  destruct T; [lia|]. simpl. now rewrite Nat.sub_0_r.
Qed.

Lemma skipn_chunk_cons (event : json) (events : list json) :
  skipn chunk_size (event :: events) = skipn (chunk_size - 1) events.
Proof.
  pose proof chunk_size_pos as H. revert H.
  generalize chunk_size. intros T HT.
  destruct T; [lia|]. simpl. now rewrite Nat.sub_0_r.
Qed.

Section Parts.
Variables (output_filepath : str) (multiple_files : bool).
Variable node_of : Z -> node.

(** The loop from the start of a chunk: every part that the events fill is
    opened once and holds the lines of its events; no other file is
    touched. *)
Lemma write_parts (m : nat) :
  forall (events : list json) (file_index line_count : Z)
         (output_file : option node) (fs : filesystem),
    (length events <= m)%nat ->
    (events = [] \/ line_count = file_index * 500000) ->
    (forall k, part_exists (length events) k ->
               can_open fs
                 (path_of output_filepath multiple_files
                    (file_index + Z.of_nat k))
                 (node_of (file_index + Z.of_nat k))) ->
    (forall i k, (1 <= i < k)%nat -> part_exists (length events) k ->
                 node_of (file_index + Z.of_nat i)
                 <> node_of (file_index + Z.of_nat k)) ->
    exists fs' output_file',
      write_loop output_filepath multiple_files events file_index line_count
        output_file fs = (Ok output_file', fs') /\
      dirs fs' = dirs fs /\
      (forall k, part_exists (length events) k ->
                 dict_get node_eq_dec (node_of (file_index + Z.of_nat k))
                   (files fs')
                 = Some (lines_of (part_events events k))) /\
      (forall q, (forall k, part_exists (length events) k ->
                            q <> node_of (file_index + Z.of_nat k)) ->
                 dict_get node_eq_dec q (files fs')
                 = dict_get node_eq_dec q (files fs)).
Proof.
  induction m as [|m IH]; intros events file_index line_count output_file fs
    Hlen Hlc Hopen Hdiff.
  - destruct events; [|simpl in Hlen; lia].
    exists fs, output_file. repeat split.
    intros k Hk. destruct (part_exists_none k Hk).
  - destruct events as [|event events].
    { exists fs, output_file. repeat split.
      intros k Hk. destruct (part_exists_none k Hk). }
    destruct Hlc as [Hlc|Hlc]; [discriminate|].
    pose proof chunk_size_pos as Hpos. pose proof chunk_size_Z as HZ.
    set (seg := firstn (chunk_size - 1) events).
    set (rest := skipn (chunk_size - 1) events).
    assert (Hsplit : events = (seg ++ rest)%list)
      by (symmetry; apply firstn_skipn).
    assert (Hseg : (length seg < chunk_size)%nat).
    { unfold seg. rewrite length_firstn. lia. }
    assert (Hrest : rest = skipn chunk_size (event :: events))
      by (symmetry; apply skipn_chunk_cons).
    assert (Hchunk : event :: seg = part_events (event :: events) 1)
      by (symmetry; apply part_events_first).
    assert (Hrlen : length rest = (length (event :: events) - chunk_size)%nat).
    { rewrite Hrest. apply length_skipn. }
    assert (Hfirst : part_exists (length (event :: events)) 1)
      by (apply part_exists_first; simpl length; lia).
    pose proof (Hopen 1%nat Hfirst) as Ho1.
    set (f := node_of (file_index + Z.of_nat 1)) in *.
    set (fs1 := set_file f (lines_of (event :: seg)) fs).
    assert (Hstep :
              write_loop output_filepath multiple_files (event :: events)
                file_index line_count output_file fs
              = write_loop output_filepath multiple_files rest
                  (file_index + 1)
                  (line_count + Z.of_nat (length (event :: seg)))
                  (Some f) fs1).
    { transitivity (write_loop output_filepath multiple_files
                      (event :: seg ++ rest) file_index line_count
                      output_file fs); [now rewrite <- Hsplit|].
      apply write_chunk;
        [subst line_count; apply Z_mod_mult|exact Hseg|exact Ho1]. }
    rewrite Hstep.
    destruct (IH rest (file_index + 1)
                (line_count + Z.of_nat (length (event :: seg)))
                (Some f) fs1) as (fs' & out' & Hrun & Hdirs & Hparts & Hother).
    + rewrite Hrlen. simpl length in *. lia.
    + destruct rest as [|r rest'] eqn:Er; [now left|]. right.
      assert (length seg = (chunk_size - 1)%nat).
      { unfold seg. rewrite length_firstn.
        assert (length (skipn (chunk_size - 1) events) <> 0)%nat
          by (fold rest; rewrite Er; discriminate).
        rewrite length_skipn in H. lia. }
      simpl length. lia.
    + intros k Hk. rewrite Hrlen in Hk. apply part_exists_next in Hk.
      replace (file_index + 1 + Z.of_nat k) with (file_index + Z.of_nat (S k))
        by lia.
      apply (can_open_same_dirs fs fs1); [reflexivity|]. now apply Hopen.
    + intros i k Hik Hk. rewrite Hrlen in Hk. apply part_exists_next in Hk.
      replace (file_index + 1 + Z.of_nat k) with (file_index + Z.of_nat (S k))
        by lia.
      replace (file_index + 1 + Z.of_nat i) with (file_index + Z.of_nat (S i))
        by lia.
      apply Hdiff; [lia|exact Hk].
    + exists fs', out'. split; [exact Hrun|]. split; [exact Hdirs|].
      assert (Hf : forall k, part_exists (length rest) k ->
                 f <> node_of (file_index + 1 + Z.of_nat k)).
      { intros k Hk. rewrite Hrlen in Hk. pose proof Hk as [Hk1 _].
        apply part_exists_next in Hk.
        replace (file_index + 1 + Z.of_nat k)
          with (file_index + Z.of_nat (S k)) by lia.
        apply Hdiff; [lia|exact Hk]. }
      split.
      * intros k Hk. destruct k as [|[|k]].
        -- destruct Hk. lia.
        -- fold f. rewrite (Hother f Hf). unfold fs1.
           rewrite set_file_get, Hchunk. reflexivity.
        -- replace (file_index + Z.of_nat (S (S k)))
             with (file_index + 1 + Z.of_nat (S k)) by lia.
           rewrite part_events_next by lia. rewrite <- Hrest.
           apply Hparts. rewrite Hrlen.
           apply part_exists_prev; [exact Hk|lia].
      * intros q Hq. rewrite Hother.
        -- unfold fs1. apply set_file_get_other.
           apply (Hq 1%nat). exact Hfirst.
        -- intros k Hk. rewrite Hrlen in Hk. apply part_exists_next in Hk.
           replace (file_index + 1 + Z.of_nat k)
             with (file_index + Z.of_nat (S k)) by lia.
           now apply Hq.
Qed.
End Parts.

(** ** The text of numbers and of events *)

Lemma digits_of_uint_digits (u : Decimal.uint) :
  forallb is_digit (digits_of_uint u) = true.
Proof. induction u; simpl; assumption || reflexivity. Qed.

Lemma digits_of_uint_inj (u u' : Decimal.uint) :
  digits_of_uint u = digits_of_uint u' -> u = u'.
Proof.
  revert u'. induction u; destruct u'; simpl; intros E;
    try discriminate; try reflexivity;
    injection E as E; f_equal; now apply IHu.
Qed.

Lemma repr_int_number (z : Z) : number_text (repr_int z) = true.
Proof.
  unfold repr_int, number_text.
  assert (H : forall u, forallb (fun c => is_digit c || (c =? 45)%N)
                          (digits_of_uint u) = true).
  { intros u. pose proof (digits_of_uint_digits u) as H.
    rewrite forallb_forall in *. intros c Hc. now rewrite (H c Hc). }
  destruct (Z.to_int z); simpl; apply H.
Qed.

Lemma repr_int_inj (z z' : Z) : repr_int z = repr_int z' -> z = z'.
Proof.
  unfold repr_int. intros E. apply DecimalZ.to_int_inj.
  destruct (Z.to_int z) as [u|u] eqn:Ez, (Z.to_int z') as [u'|u'] eqn:Ez'.
  - f_equal. now apply digits_of_uint_inj.
  - exfalso. pose proof (digits_of_uint_digits u) as H. rewrite E in H.
    discriminate.
  - exfalso. pose proof (digits_of_uint_digits u') as H. rewrite <- E in H.
    discriminate.
  - injection E as E. f_equal. now apply digits_of_uint_inj.
Qed.

Lemma number_text_no_slash (s : str) :
  number_text s = true -> no_slash s = true.
Proof.
  unfold number_text, no_slash. rewrite !forallb_forall.
  intros H c Hc. specialize (H c Hc).
  destruct (c =? slash)%N eqn:E; [|reflexivity].
  apply N.eqb_eq in E. subst c. discriminate.
Qed.

Lemma number_text_no_newline (s : str) :
  number_text s = true -> no_newline s = true.
Proof.
  unfold number_text, no_newline. rewrite !forallb_forall.
  intros H c Hc. specialize (H c Hc).
  destruct (c =? 10)%N eqn:E; [|reflexivity].
  apply N.eqb_eq in E. subst c. discriminate.
Qed.

Lemma no_newline_app (a b : str) :
  no_newline (a ++ b) = no_newline a && no_newline b.
Proof. apply forallb_app. Qed.

Lemma hexdigit_no_newline (n : N) : negb (hexdigit n =? 10)%N = true.
Proof.
  unfold hexdigit. apply negb_true_iff, N.eqb_neq.
  destruct (n <? 10)%N; lia.
Qed.

Lemma u_escape_no_newline (n : N) : no_newline (u_escape n) = true.
Proof.
  unfold u_escape, hex4_of, no_newline. cbn [forallb].
  now rewrite !hexdigit_no_newline.
Qed.

Lemma escape_char_no_newline (c : N) : no_newline (escape_char c) = true.
Proof.
  unfold escape_char.
  repeat match goal with
         | |- context [if ?b then _ else _] => destruct b eqn:?
         end;
    try reflexivity;
    try (rewrite no_newline_app; now rewrite !u_escape_no_newline);
    try apply u_escape_no_newline.
  unfold no_newline. cbn [forallb].
  match goal with H : (c =? 10)%N = false |- _ => now rewrite H end.
Qed.

Lemma encode_basestring_ascii_no_newline (s : str) :
  no_newline (encode_basestring_ascii s) = true.
Proof.
  unfold encode_basestring_ascii. rewrite !no_newline_app.
  assert (H : no_newline (flat_map escape_char s) = true).
  { induction s as [|c s IH]; [reflexivity|]. cbn [flat_map].
    now rewrite no_newline_app, escape_char_no_newline, IH. }
  now rewrite H.
Qed.

Lemma join_no_newline (sep : str) (parts : list str) :
  no_newline sep = true ->
  Forall (fun p => no_newline p = true) parts ->
  no_newline (join sep parts) = true.
Proof.
  intros Hsep. induction 1 as [|p parts Hp _ IH]; [reflexivity|].
  cbn [join]. destruct parts as [|p' parts]; [exact Hp|].
  now rewrite !no_newline_app, Hp, Hsep, IH.
Qed.

(** [json.dumps] puts no line end in its text. *)
Lemma json_dumps_no_newline (j : json) : no_newline (json_dumps j) = true.
Proof.
  induction j as [| [|] | z | s | l IH | d IH] using json_ind;
    cbn [json_dumps]; try reflexivity.
  - apply number_text_no_newline, repr_int_number.
  - apply encode_basestring_ascii_no_newline.
  - rewrite !no_newline_app. rewrite join_no_newline; [reflexivity..|].
    apply Forall_map. exact IH.
  - rewrite !no_newline_app. rewrite join_no_newline; [reflexivity..|].
    apply Forall_map. eapply Forall_impl; [|exact IH].
    intros [k v] Hv. cbn [snd] in Hv.
    now rewrite !no_newline_app, encode_basestring_ascii_no_newline, Hv.
Qed.

Lemma count_lines_app (a b : str) :
  count_lines (a ++ b) = (count_lines a + count_lines b)%nat.
Proof. unfold count_lines. now rewrite filter_app, length_app. Qed.

Lemma count_lines_no_newline (s : str) :
  no_newline s = true -> count_lines s = 0%nat.
Proof.
  unfold count_lines, no_newline. induction s as [|c s IH];
    [reflexivity|].
  cbn [forallb filter]. intros H. apply andb_true_iff in H as [Hc Hs].
  apply negb_true_iff in Hc. rewrite N.eqb_sym in Hc.
  now rewrite Hc, (IH Hs).
Qed.

(** One line for every event. *)
Lemma count_lines_of (events : list json) :
  count_lines (lines_of events) = length events.
Proof.
  induction events as [|event events IH]; [reflexivity|].
  unfold lines_of in *. cbn [flat_map length].
  rewrite !count_lines_app, IH.
  rewrite (count_lines_no_newline _ (json_dumps_no_newline event)).
  reflexivity.
Qed.

(** ** The paths of the output files *)

Lemma path_split_app (p x : str) :
  no_slash x = true ->
  path_split (p ++ x)
  = (fst (path_split p), (snd (path_split p) ++ x)%list).
Proof.
  intros Hx. unfold path_split. rewrite rev_app_distr.
  rewrite span_name_app by now rewrite no_slash_rev.
  destruct (span_name (rev p)) as [a b]. cbn [fst snd].
  now rewrite rev_app_distr, rev_involutive.
Qed.

Lemma dirname_app (p x : str) :
  no_slash x = true -> dirname (p ++ x) = dirname p.
Proof. intros Hx. unfold dirname. now rewrite path_split_app. Qed.

Lemma underscore_name (name : str) :
  In 95%N name -> is_name name = true /\ is_dotdot name = false.
Proof.
  intros H. unfold is_name, is_dotdot.
  destruct name as [|c name]; [destruct H|].
  destruct (str_eq_dec (c :: name) dot) as [E|_];
    [rewrite E in H; simpl in H; intuition discriminate|].
  destruct (str_eq_dec (c :: name) dotdot) as [E|_];
    [rewrite E in H; simpl in H; intuition discriminate|].
  now split.
Qed.

Lemma endswith_no_slash (p x : str) :
  x <> [] -> no_slash x = true -> endswith (p ++ x) [slash] = false.
Proof.
  intros Hx Hns. destruct (exists_last Hx) as (x' & c & ->).
  unfold endswith. rewrite app_assoc, rev_app_distr. cbn [rev app startswith].
  rewrite no_slash_app in Hns. apply andb_true_iff in Hns as [_ Hc].
  cbn [no_slash forallb] in Hc. rewrite andb_true_r in Hc.
  apply negb_true_iff in Hc. rewrite N.eqb_sym, Hc. reflexivity.
Qed.

Lemma no_slash_dirname (p : str) : no_slash p = true -> dirname p = [].
Proof.
  intros H. unfold dirname, path_split.
  rewrite span_name_no_slash by now rewrite no_slash_rev. reflexivity.
Qed.

Lemma slash_dirname (p : str) : no_slash p = false -> dirname p <> [].
Proof.
  intros H E. unfold dirname in E. pose proof (path_split_spec p) as Hs.
  destruct (path_split p) as [head tail]. cbn [fst] in E. subst head.
  destruct Hs as [Ht [[_ Hp]|(k & h & c & Hh & _)]].
  - simpl in Hp. subst p. congruence.
  - destruct h; discriminate.
Qed.

Lemma part_suffix_no_slash (k : Z) : no_slash (part_suffix k) = true.
Proof.
  unfold part_suffix. rewrite no_slash_app.
  now rewrite (number_text_no_slash _ (repr_int_number k)).
Qed.

Lemma part_path_suffix (p : str) (k : Z) :
  part_path p k = (p ++ part_suffix k)%list.
Proof. reflexivity. Qed.

(** The file of a part is in the directory of the output path. *)
Lemma resolve_part_path (p : str) (nd : node) (k : Z) :
  resolve (dirname p) = Ok nd ->
  resolve (part_path p k)
  = Ok (nd ++ [snd (path_split p) ++ part_suffix k])%list.
Proof.
  intros Hnd. rewrite part_path_suffix, resolve_split.
  rewrite (path_split_app p _ (part_suffix_no_slash k)). cbn [fst snd].
  unfold dirname in Hnd. rewrite Hnd. cbn [bind].
  destruct (underscore_name (snd (path_split p) ++ part_suffix k)) as [H1 H2].
  { apply in_or_app. right. unfold part_suffix. simpl. now left. }
  rewrite H2. unfold add_name. now rewrite H1.
Qed.

(** After [os.makedirs] a path in the directory can be opened, when its
    node is not the directory itself and was no directory before. *)
Lemma can_open_made (fs fs1 : filesystem) (path : str) (nd np : node) :
  made fs fs1 nd ->
  resolve (dirname path) = Ok nd ->
  resolve path = Ok np -> np <> nd -> is_dir fs np = false ->
  endswith path [slash] = false ->
  can_open fs1 path np.
Proof.
  intros (Hfiles & Hdirs & Honly & _) Hnd Hnp Hne Hdir Hend.
  assert (Hadd : np = add_name nd (snd (path_split path))).
  { rewrite resolve_split in Hnp. unfold dirname in Hnd.
    rewrite Hnd in Hnp. cbn [bind] in Hnp.
    destruct (is_dotdot (snd (path_split path))); [discriminate|].
    now injection Hnp. }
  assert (Hp : path <> []).
  { intros ->. apply Hne. rewrite Hadd.
    assert (E : resolve (dirname []) = Ok []) by reflexivity.
    rewrite E in Hnd. injection Hnd as <-. reflexivity. }
  split; [exact Hp|]. split; [exact Hnp|]. split; [|split; [|exact Hend]].
  - apply walk_ok. intros q r E _ Hr. apply Hdirs. rewrite Hadd in E.
    exact (proper_prefix_add_name _ _ _ _ E Hr).
  - destruct (is_dir fs1 np) eqn:Hd1; [|reflexivity].
    apply Honly in Hd1 as [Hd1|[r Hr]]; [congruence|].
    exfalso. unfold add_name in Hadd.
    destruct (is_name (snd (path_split path))); [|congruence].
    rewrite Hadd, <- app_assoc in Hr.
    rewrite <- (app_nil_r nd) in Hr at 1.
    apply app_inv_head in Hr. discriminate.
Qed.

(** ** The Writer *)

(** With a directory in the output path, and no regular file in the way,
    the Writer makes the directories and goes on to the events. *)
Lemma writer_makes_directory (p : str) (fs : filesystem) (nd : node) :
  no_slash p = false -> resolve (dirname p) = Ok nd -> no_file_on fs nd ->
  exists fs1,
    makedirs (S (length (dirname p))) (dirname p) fs = (Ok tt, fs1) /\
    made fs fs1 nd /\
    forall events,
      write_events_to_jsonl events p fs
      = (_ <~ write_loop p (Z.of_nat (length events) >? 500000) events 0 0
                None ;; io_ret tt) fs1.
Proof.
  intros Hslash Hnd Hnf.
  destruct (makedirs_spec (S (length (dirname p))) (dirname p) nd fs)
    as (fs1 & Hrun & Hmade);
    [lia|now apply slash_dirname|exact Hnd|exact Hnf|].
  exists fs1. split; [exact Hrun|]. split; [exact Hmade|].
  intros events. unfold write_events_to_jsonl.
  unfold io_bind at 1. now rewrite Hrun.
Qed.

Lemma part_exists_single (n k : nat) :
  (n <= chunk_size)%nat -> part_exists n k -> k = 1%nat.
Proof.
  unfold part_exists. generalize chunk_size. intros T Hn [H1 H2]. nia.
Qed.

Lemma part_events_single (events : list json) :
  (length events <= chunk_size)%nat -> part_events events 1 = events.
Proof.
  intros H. unfold part_events.
  replace ((1 - 1) * chunk_size)%nat with 0%nat by lia.
  now apply firstn_all2.
Qed.

Lemma part_events_length (events : list json) (k : nat) :
  part_exists (length events) k ->
  (1 <= length (part_events events k) <= chunk_size)%nat.
Proof.
  unfold part_exists, part_events. pose proof chunk_size_pos as Hpos.
  revert Hpos. generalize chunk_size. intros T HT [H1 H2].
  rewrite length_firstn, length_skipn. lia.
Qed.

(** At most 500000 events, at least one: the file of the output path. *)
Lemma writer_single_file (events : list json) (p : str) (fs : filesystem)
    (nd np : node) :
  no_slash p = false -> resolve (dirname p) = Ok nd -> no_file_on fs nd ->
  (1 <= length events <= chunk_size)%nat ->
  resolve p = Ok np -> np <> nd -> is_dir fs np = false ->
  endswith p [slash] = false ->
  exists fs',
    write_events_to_jsonl events p fs = (Ok tt, fs') /\
    file_at fs' p = Some (lines_of events) /\
    (forall q, q <> np ->
               dict_get node_eq_dec q (files fs')
               = dict_get node_eq_dec q (files fs)).
Proof.
  intros Hslash Hnd Hnf Hn Hnp Hne Hdir Hend.
  destruct (writer_makes_directory p fs nd Hslash Hnd Hnf)
    as (fs1 & _ & Hmade & Hrun).
  pose proof chunk_size_Z as HZ.
  assert (Hmulti : (Z.of_nat (length events) >? 500000) = false).
  { rewrite Z.gtb_ltb. apply Z.ltb_ge. lia. }
  destruct (write_parts p false (fun _ => np) (length events) events 0 0 None
              fs1) as (fs' & out' & Hloop & _ & Hpart & Hother).
  - lia.
  - now right.
  - intros k Hk. cbn [path_of].
    exact (can_open_made fs fs1 p nd np Hmade Hnd Hnp Hne Hdir Hend).
  - intros i k Hik Hk.
    rewrite (part_exists_single _ k (proj2 Hn) Hk) in Hik. lia.
  - exists fs'. split.
    + rewrite Hrun, Hmulti. unfold io_bind. now rewrite Hloop.
    + split.
      * unfold file_at. rewrite Hnp.
        rewrite (Hpart 1%nat (part_exists_first _ (proj1 Hn))).
        now rewrite part_events_single by apply Hn.
      * intros q Hq. destruct Hmade as (Hfiles & _). rewrite <- Hfiles.
        apply Hother. intros k _. exact Hq.
Qed.

(** More than 500000 events: the parts. *)
Lemma writer_parts (events : list json) (p : str) (fs : filesystem)
    (nd : node) :
  no_slash p = false -> resolve (dirname p) = Ok nd -> no_file_on fs nd ->
  (chunk_size < length events)%nat ->
  (forall k q, part_exists (length events) k ->
               resolve (part_path p (Z.of_nat k)) = Ok q ->
               is_dir fs q = false) ->
  exists fs',
    write_events_to_jsonl events p fs = (Ok tt, fs') /\
    (forall k, part_exists (length events) k ->
               file_at fs' (part_path p (Z.of_nat k))
               = Some (lines_of (part_events events k))) /\
    (forall q, (forall k, part_exists (length events) k ->
                          resolve (part_path p (Z.of_nat k)) <> Ok q) ->
               dict_get node_eq_dec q (files fs')
               = dict_get node_eq_dec q (files fs)).
Proof.
  intros Hslash Hnd Hnf Hn Hdir.
  destruct (writer_makes_directory p fs nd Hslash Hnd Hnf)
    as (fs1 & _ & Hmade & Hrun).
  pose proof chunk_size_Z as HZ.
  assert (Hmulti : (Z.of_nat (length events) >? 500000) = true).
  { rewrite Z.gtb_ltb. apply Z.ltb_lt. lia. }
  set (node_of := fun k : Z =>
                    (nd ++ [snd (path_split p) ++ part_suffix k])%list).
  assert (Hres : forall k, resolve (part_path p k) = Ok (node_of k))
    by (intros k; now apply resolve_part_path).
  destruct (write_parts p true node_of (length events) events 0 0 None fs1)
    as (fs' & out' & Hloop & _ & Hpart & Hother).
  - lia.
  - now right.
  - intros k Hk. cbn [path_of Z.add].
    apply (can_open_made fs fs1 _ nd); try assumption.
    + rewrite part_path_suffix, dirname_app; [exact Hnd|].
      apply part_suffix_no_slash.
    + apply Hres.
    + unfold node_of. intros E. rewrite <- (app_nil_r nd) in E at 2.
      apply app_inv_head in E. discriminate.
    + exact (Hdir k _ Hk (Hres _)).
    + rewrite part_path_suffix. apply endswith_no_slash.
      * unfold part_suffix. discriminate.
      * apply part_suffix_no_slash.
  - intros i k Hik Hk E. unfold node_of in E. cbn [Z.add] in E.
    apply app_inv_head in E. injection E as E.
    apply app_inv_head in E. unfold part_suffix in E.
    apply app_inv_head in E. apply repr_int_inj in E. lia.
  - exists fs'. split.
    + rewrite Hrun, Hmulti. unfold io_bind. now rewrite Hloop.
    + split.
      * intros k Hk. unfold file_at. rewrite Hres.
        exact (Hpart k Hk).
      * intros q Hq. destruct Hmade as (Hfiles & _). rewrite <- Hfiles.
        apply Hother. intros k Hk E. apply (Hq k Hk).
        cbn [Z.add] in E. rewrite Hres. now f_equal.
Qed.

Lemma part_path_inj (p : str) (nd : node) (k k' : Z) :
  resolve (dirname p) = Ok nd ->
  resolve (part_path p k) = resolve (part_path p k') -> k = k'.
Proof.
  intros Hnd E. rewrite !(resolve_part_path p nd _ Hnd) in E.
  injection E as E. apply app_inv_head in E. injection E as E.
  apply app_inv_head in E. unfold part_suffix in E.
  apply app_inv_head in E. now apply repr_int_inj.
Qed.

Lemma part_exists_two (n k : nat) :
  n = (2 * chunk_size)%nat -> (part_exists n k <-> k = 1%nat \/ k = 2%nat).
Proof.
  unfold part_exists. pose proof chunk_size_pos as Hpos. revert Hpos.
  generalize chunk_size. intros T HT ->. split.
  - intros [H1 H2]. nia.
  - intros [-> | ->]; split; lia.
Qed.

Lemma part_events_full (events : list json) (k : nat) :
  length events = (2 * chunk_size)%nat -> k = 1%nat \/ k = 2%nat ->
  length (part_events events k) = chunk_size.
Proof.
  unfold part_events. generalize chunk_size. intros T Hn Hk.
  rewrite length_firstn, length_skipn. destruct Hk as [-> | ->]; lia.
Qed.

(** C3, as the code has it.  Writer file layout, for an output path with a
    directory that can be made (no [..], no regular file in the way).
    More than 500000 events: the files are the parts [_part1], [_part2],
    ..., one for every started run of 500000 events, the part [k] holding
    the lines of the events of its run, between 1 and 500000 lines; no
    other file is touched, a part beyond the last is not written; for
    1000000 events the parts are [_part1] and [_part2], of 500000 lines
    each.  Between 1 and 500000 events: one file, at the output path, with
    one line for each event.  No event: no file is written. *)
Theorem writer_file_layout :
  forall (events : list json) (output_filepath : str) (fs : filesystem)
         (nd : node),
    no_slash output_filepath = false ->
    resolve (dirname output_filepath) = Ok nd ->
    no_file_on fs nd ->
    ((chunk_size < length events)%nat ->
     (forall k q, part_exists (length events) k ->
                  resolve (part_path output_filepath (Z.of_nat k)) = Ok q ->
                  is_dir fs q = false) ->
     exists fs',
       write_events_to_jsonl events output_filepath fs = (Ok tt, fs') /\
       (forall k, part_exists (length events) k ->
          file_at fs' (part_path output_filepath (Z.of_nat k))
          = Some (lines_of (part_events events k)) /\
          count_lines (lines_of (part_events events k))
          = length (part_events events k) /\
          (1 <= length (part_events events k) <= chunk_size)%nat) /\
       (forall k, ~ part_exists (length events) k ->
          file_at fs' (part_path output_filepath (Z.of_nat k))
          = file_at fs (part_path output_filepath (Z.of_nat k))) /\
       (forall q, (forall k, part_exists (length events) k ->
                     resolve (part_path output_filepath (Z.of_nat k))
                     <> Ok q) ->
          dict_get node_eq_dec q (files fs')
          = dict_get node_eq_dec q (files fs)) /\
       (length events = (2 * chunk_size)%nat ->
        forall k,
          (part_exists (length events) k <-> k = 1%nat \/ k = 2%nat) /\
          (part_exists (length events) k ->
           count_lines (lines_of (part_events events k)) = chunk_size))) /\
    ((1 <= length events <= chunk_size)%nat ->
     forall np,
       resolve output_filepath = Ok np -> np <> nd ->
       is_dir fs np = false -> endswith output_filepath [slash] = false ->
       exists fs',
         write_events_to_jsonl events output_filepath fs = (Ok tt, fs') /\
         file_at fs' output_filepath = Some (lines_of events) /\
         count_lines (lines_of events) = length events /\
         (forall q, q <> np ->
            dict_get node_eq_dec q (files fs')
            = dict_get node_eq_dec q (files fs))) /\
    (length events = 0%nat ->
     files (snd (write_events_to_jsonl events output_filepath fs))
     = files fs).
Proof.
  intros events p fs nd Hslash Hnd Hnf. split; [|split].
  - intros Hn Hdir.
    destruct (writer_parts events p fs nd Hslash Hnd Hnf Hn Hdir)
      as (fs' & Hrun & Hparts & Hother).
    exists fs'. split; [exact Hrun|]. split; [|split; [|split]].
    + intros k Hk. split; [exact (Hparts k Hk)|].
      split; [apply count_lines_of|now apply part_events_length].
    + intros k Hk. unfold file_at.
      rewrite (resolve_part_path p nd _ Hnd). apply Hother.
      intros k' Hk' E. rewrite <- (resolve_part_path p nd _ Hnd) in E.
      apply (part_path_inj p nd _ _ Hnd) in E.
      apply Nat2Z.inj in E. congruence.
    + exact Hother.
    + intros Htwo k. split; [now apply part_exists_two|].
      intros Hk. rewrite count_lines_of.
      apply part_events_full; [exact Htwo|].
      now apply (part_exists_two _ k Htwo).
  - intros Hn np Hnp Hne Hdir Hend.
    destruct (writer_single_file events p fs nd np Hslash Hnd Hnf Hn Hnp Hne
                Hdir Hend) as (fs' & Hrun & Hfile & Hother).
    exists fs'. split; [exact Hrun|]. split; [exact Hfile|].
    split; [apply count_lines_of|exact Hother].
  - intros Hn. destruct events; [|discriminate].
    unfold write_events_to_jsonl.
    apply (keeps_files_bind _ _ (keeps_files_makedirs _ _)).
    intros _. simpl. easy.
Qed.

Lemma writer_file_layout_witness :
  exists fs',
    write_events_to_jsonl ten_events (lit "out/events.jsonl") empty_fs
    = (Ok tt, fs') /\
    file_at fs' (lit "out/events.jsonl") = Some (lines_of ten_events) /\
    count_lines (lines_of ten_events) = 10%nat.
Proof.
  destruct (writer_file_layout ten_events (lit "out/events.jsonl") empty_fs
              [lit "out"]) as (_ & Hsingle & _).
  - reflexivity.
  - reflexivity.
  - intros q _. reflexivity.
  - destruct (Hsingle) with (np := [lit "out"; lit "events.jsonl"])
      as (fs' & Hrun & Hfile & Hcount & _).
    + change (length ten_events) with 10%nat.
      pose proof chunk_size_Z. lia.
    + reflexivity.
    + discriminate.
    + reflexivity.
    + reflexivity.
    + exists fs'. split; [exact Hrun|]. split; [exact Hfile|exact Hcount].
Defined.

(** C3, as the specification words it, fails.  A list of no events is at
    most 500000 events: the Writer returns and there is no file at the
    output path.  And ten events with an output path that is a bare file
    name: the Writer fails and there is no file. *)
Lemma no_events_no_single_file :
  (Z.of_nat (length (@nil json)) <= 500000 /\
   exists fs',
     write_events_to_jsonl [] (lit "out/events.jsonl") empty_fs
     = (Ok tt, fs') /\
     file_at fs' (lit "out/events.jsonl") = None /\
     files fs' = []) /\
  (Z.of_nat (length ten_events) <= 500000 /\
   write_events_to_jsonl ten_events (lit "events.jsonl") empty_fs
   = (Raise FileNotFoundError, empty_fs) /\
   file_at empty_fs (lit "events.jsonl") = None).
Proof.
  split.
  - split; [simpl; lia|]. eexists. split; [reflexivity|]. split; reflexivity.
  - split; [simpl; lia|]. split; reflexivity.
Qed.

(** C10, as the code has it.  An output path without a directory (no
    separator in it): the Writer fails with FileNotFoundError before it
    writes an event, and leaves the file system as it was.  An output path
    with a directory, without [..] and with no regular file at the directory
    or above it: [os.makedirs] returns, the directory and the directories
    above it exist afterwards, the directories of before are kept and no
    file is touched; the Writer goes on to the events from there, and for
    no event it returns. *)
Theorem output_directory :
  (forall (events : list json) (output_filepath : str) (fs : filesystem),
      no_slash output_filepath = true ->
      dirname output_filepath = [] /\
      write_events_to_jsonl events output_filepath fs
      = (Raise FileNotFoundError, fs)) /\
  (forall (output_filepath : str) (fs : filesystem) (nd : node),
      no_slash output_filepath = false ->
      resolve (dirname output_filepath) = Ok nd ->
      no_file_on fs nd ->
      dirname output_filepath <> [] /\
      exists fs1,
        makedirs (S (length (dirname output_filepath)))
          (dirname output_filepath) fs = (Ok tt, fs1) /\
        made fs fs1 nd /\
        write_events_to_jsonl [] output_filepath fs = (Ok tt, fs1) /\
        forall events,
          write_events_to_jsonl events output_filepath fs
          = (_ <~ write_loop output_filepath
                    (Z.of_nat (length events) >? 500000) events 0 0 None ;;
             io_ret tt) fs1).
Proof.
  split.
  - intros events p fs Hp. pose proof (no_slash_dirname p Hp) as Hd.
    split; [exact Hd|]. unfold write_events_to_jsonl. rewrite Hd.
    reflexivity.
  - intros p fs nd Hp Hnd Hnf. split; [now apply slash_dirname|].
    destruct (writer_makes_directory p fs nd Hp Hnd Hnf)
      as (fs1 & Hmk & Hmade & Hrun).
    exists fs1. split; [exact Hmk|]. split; [exact Hmade|].
    split; [|exact Hrun]. rewrite Hrun. reflexivity.
Qed.

Lemma output_directory_witness :
  write_events_to_jsonl [sample_event] (lit "events.jsonl") empty_fs
  = (Raise FileNotFoundError, empty_fs) /\
  exists fs1,
    write_events_to_jsonl [] (lit "out/sub/events.jsonl") empty_fs
    = (Ok tt, fs1) /\
    made empty_fs fs1 [lit "out"; lit "sub"].
Proof.
  split.
  - apply (proj1 output_directory [sample_event] (lit "events.jsonl")
             empty_fs). reflexivity.
  - destruct (proj2 output_directory (lit "out/sub/events.jsonl") empty_fs
                [lit "out"; lit "sub"]) as (_ & fs1 & _ & Hmade & Hrun & _).
    + reflexivity.
    + reflexivity.
    + intros q _. reflexivity.
    + exists fs1. split; [exact Hrun|exact Hmade].
Defined.

(** C10, as the specification words it, fails: with a directory in the output
    path the Writer does not always succeed.  Where [out] is a regular file
    the directory [out] cannot be made; and for a path that ends with a
    separator the directory is made and the file cannot be opened. *)
Lemma directory_in_path_may_fail :
  (no_slash (lit "out/events.jsonl") = false /\
   write_events_to_jsonl [sample_event] (lit "out/events.jsonl")
     fs_with_file_out
   = (Raise FileExistsError, fs_with_file_out)) /\
  (no_slash (lit "out/") = false /\
   write_events_to_jsonl [sample_event] (lit "out/") empty_fs
   = (Raise IsADirectoryError, {| dirs := [[lit "out"]]; files := [] |})).
Proof.
  repeat split.
Qed.

Lemma hexdigit_cases (d : N) :
  (d < 16)%N ->
  hexval (hexdigit d) = Some d /\ printable (hexdigit d) = true.
Proof.
  intros Hd.
  assert (H : In d [0; 1; 2; 3; 4; 5; 6; 7; 8; 9; 10; 11; 12; 13; 14; 15]%N).
  { simpl. lia. }
  simpl in H.
  repeat (destruct H as [<-|H]; [split; reflexivity|]). destruct H.
Qed.

Lemma hex4_hex4_of (n : N) :
  (n < 65536)%N ->
  hex4 (hexdigit (n / 4096 mod 16)) (hexdigit (n / 256 mod 16))
       (hexdigit (n / 16 mod 16)) (hexdigit (n mod 16)) = Some n.
Proof.
  intros Hn. unfold hex4.
  assert (H16 : (16 <> 0)%N) by discriminate.
  destruct (hexdigit_cases (n / 4096 mod 16)) as [-> _];
    [apply N.mod_lt, H16|].
  destruct (hexdigit_cases (n / 256 mod 16)) as [-> _];
    [apply N.mod_lt, H16|].
  destruct (hexdigit_cases (n / 16 mod 16)) as [-> _];
    [apply N.mod_lt, H16|].
  destruct (hexdigit_cases (n mod 16)) as [-> _];
    [apply N.mod_lt, H16|].
  f_equal. zify. Z.to_euclidean_division_equations. lia.
Qed.

Lemma lor_shifted (a b : N) :
  (b < 1024)%N -> N.lor (a * 1024) b = (a * 1024 + b)%N.
Proof.
  intros Hb.
  assert (Hland : N.land (a * 1024) b = 0%N).
  { apply N.bits_inj. intros i. rewrite N.land_spec, N.bits_0.
    destruct (N.lt_ge_cases i 10) as [Hi|Hi].
    - change 1024%N with (2 ^ 10)%N.
      rewrite N.mul_pow2_bits_low by assumption. reflexivity.
    - rewrite <- (N.mod_small b (2 ^ 10)) by exact Hb.
      rewrite N.mod_pow2_bits_high by assumption. apply andb_false_r. }
  rewrite (N.add_nocarry_lxor _ _ Hland). symmetry.
  apply N.lxor_lor, Hland.
Qed.

(** The two halves of a character above the basic plane. *)
Lemma surrogate_pair (c : N) :
  (65536 <= c)%N -> (c < 1114112)%N ->
  let n := (c - 65536)%N in
  let s1 := N.lor 55296 (N.land (N.shiftr n 10) 1023) in
  let s2 := N.lor 56320 (N.land n 1023) in
  (s1 < 65536)%N /\ (s2 < 65536)%N /\
  is_high_surrogate s1 = true /\ is_low_surrogate s2 = true /\
  join_surrogates s1 s2 = c.
Proof.
  intros Hlo Hhi n s1 s2.
  assert (Hn : (n < 1048576)%N) by (unfold n; lia).
  assert (H1 : s1 = (55296 + n / 1024)%N).
  { unfold s1. change 1023%N with (N.ones 10).
    rewrite N.land_ones, N.shiftr_div_pow2.
    change (2 ^ 10)%N with 1024%N.
    rewrite (N.mod_small (n / 1024) 1024)
      by (apply N.Div0.div_lt_upper_bound; lia).
    change 55296%N with (54 * 1024)%N. apply lor_shifted.
    apply N.Div0.div_lt_upper_bound; lia. }
  assert (H2 : s2 = (56320 + n mod 1024)%N).
  { unfold s2. change 1023%N with (N.ones 10).
    rewrite N.land_ones. change (2 ^ 10)%N with 1024%N.
    change 56320%N with (55 * 1024)%N. apply lor_shifted.
    apply N.mod_lt. discriminate. }
  assert (Hq : (n / 1024 < 1024)%N)
    by (apply N.Div0.div_lt_upper_bound; lia).
  assert (Hr : (n mod 1024 < 1024)%N) by (apply N.mod_lt; discriminate).
  assert (Hc : c = (n + 65536)%N) by (unfold n; lia).
  unfold is_high_surrogate, is_low_surrogate, join_surrogates.
  rewrite H1, H2. clearbody n s1 s2.
  pose proof (N.le_0_l (n / 1024)) as Hq0.
  pose proof (N.le_0_l (n mod 1024)) as Hr0.
  repeat split; try lia.
  - apply andb_true_iff; split; apply N.leb_le; lia.
  - apply andb_true_iff; split; apply N.leb_le; lia.
  - replace (55296 + n / 1024 - 55296)%N with (n / 1024)%N by lia.
    replace (56320 + n mod 1024 - 56320)%N with (n mod 1024)%N by lia.
    rewrite N.shiftl_mul_pow2. change (2 ^ 10)%N with 1024%N.
    rewrite lor_shifted by exact Hr.
    pose proof (N.Div0.div_mod n 1024) as Hdm. lia.
Qed.

Lemma scanstring_plain (c : N) (r : str) :
  c <> 34%N -> c <> 92%N -> (32 <= c)%N ->
  scanstring (c :: r) = cons_char c (scanstring r).
Proof.
  intros H1 H2 H3. cbn [scanstring].
  rewrite (proj2 (N.eqb_neq _ _) H1), (proj2 (N.eqb_neq _ _) H2).
  rewrite (proj2 (N.ltb_ge _ _) H3). reflexivity.
Qed.

Lemma scanstring_escape (e ch : N) (r : str) :
  e <> 117%N -> backslash e = Some ch ->
  scanstring (92%N :: e :: r) = cons_char ch (scanstring r).
Proof.
  intros H1 H2. cbn [scanstring].
  change (92 =? 34)%N with false. change (92 =? 92)%N with true.
  cbv iota. rewrite (proj2 (N.eqb_neq _ _) H1), H2. reflexivity.
Qed.

Lemma scanstring_u (h1 h2 h3 h4 uni : N) (r2 : str) :
  hex4 h1 h2 h3 h4 = Some uni -> is_high_surrogate uni = false ->
  scanstring (92%N :: 117%N :: h1 :: h2 :: h3 :: h4 :: r2)
  = cons_char uni (scanstring r2).
Proof.
  intros Hhex Hhigh. cbn [scanstring].
  change (92 =? 34)%N with false. change (92 =? 92)%N with true.
  change (117 =? 117)%N with true. cbv iota. rewrite Hhex, Hhigh.
  destruct r2 as [|b [|u [|g1 [|g2 [|g3 [|g4 r3]]]]]]; reflexivity.
Qed.

Lemma scanstring_pair (h1 h2 h3 h4 g1 g2 g3 g4 uni uni2 : N) (r3 : str) :
  hex4 h1 h2 h3 h4 = Some uni -> is_high_surrogate uni = true ->
  hex4 g1 g2 g3 g4 = Some uni2 -> is_low_surrogate uni2 = true ->
  scanstring (92%N :: 117%N :: h1 :: h2 :: h3 :: h4 ::
              92%N :: 117%N :: g1 :: g2 :: g3 :: g4 :: r3)
  = cons_char (join_surrogates uni uni2) (scanstring r3).
Proof.
  intros Hhex Hhigh Hhex2 Hlow. cbn [scanstring].
  change (92 =? 34)%N with false. change (92 =? 92)%N with true.
  change (117 =? 117)%N with true. cbv iota.
  rewrite Hhex, Hhigh, Hhex2, Hlow. reflexivity.
Qed.

(** The decoder reads the escape of a character as the character. *)
Lemma scanstring_escape_char (c : N) (rest : str) :
  plain_char c = true ->
  scanstring (escape_char c ++ rest)%list = cons_char c (scanstring rest).
Proof.
  unfold plain_char. intros Hc. apply andb_true_iff in Hc.
  destruct Hc as [Hlt Hhigh]. apply N.ltb_lt in Hlt.
  apply negb_true_iff in Hhigh. unfold escape_char.
  destruct (N.eqb_spec c 92) as [->|H92];
    [apply scanstring_escape; [discriminate|reflexivity]|].
  destruct (N.eqb_spec c 34) as [->|H34];
    [apply scanstring_escape; [discriminate|reflexivity]|].
  destruct (N.eqb_spec c 8) as [->|H8];
    [apply scanstring_escape; [discriminate|reflexivity]|].
  destruct (N.eqb_spec c 12) as [->|H12];
    [apply scanstring_escape; [discriminate|reflexivity]|].
  destruct (N.eqb_spec c 10) as [->|H10];
    [apply scanstring_escape; [discriminate|reflexivity]|].
  destruct (N.eqb_spec c 13) as [->|H13];
    [apply scanstring_escape; [discriminate|reflexivity]|].
  destruct (N.eqb_spec c 9) as [->|H9];
    [apply scanstring_escape; [discriminate|reflexivity]|].
  destruct ((32 <=? c)%N && (c <=? 126)%N) eqn:Hprint.
  - apply andb_true_iff in Hprint. destruct Hprint as [Hlo _].
    apply N.leb_le in Hlo. apply scanstring_plain; assumption.
  - destruct (N.ltb_spec c 65536) as [Hbmp|Hbig].
    + apply scanstring_u; [apply hex4_hex4_of, Hbmp|exact Hhigh].
    + destruct (surrogate_pair c Hbig Hlt) as (H1 & H2 & Hh & Hl & Hjoin).
      cbv zeta. rewrite <- Hjoin at 3.
      apply scanstring_pair;
        [apply hex4_hex4_of, H1|exact Hh|apply hex4_hex4_of, H2|exact Hl].
Qed.

Lemma scanstring_encoded (s rest : str) :
  forallb plain_char s = true ->
  scanstring (flat_map escape_char s ++ 34%N :: rest)%list = Ok (s, rest).
Proof.
  induction s as [|c s IH]; intros Hs.
  - reflexivity.
  - cbn [forallb] in Hs. apply andb_true_iff in Hs. destruct Hs as [Hc Hs].
    cbn [flat_map]. rewrite <- app_assoc.
    rewrite (scanstring_escape_char c _ Hc), (IH Hs). reflexivity.
Qed.

(** ** Numbers *)

Lemma nzhead_no_zero (u v : Decimal.uint) :
  Decimal.nzhead u <> Decimal.D0 v.
Proof. induction u; simpl; try discriminate. exact IHu. Qed.

(** The digits of a positive number start with a digit that is not 0. *)
Lemma to_uint_head (p : positive) :
  exists d ds,
    digits_of_uint (Pos.to_uint p) = d :: ds /\
    (49 <= d)%N /\ (d <= 57)%N /\ forallb is_digit ds = true.
Proof.
  pose proof (Unsigned.to_of (Pos.to_uint p)) as Hnorm.
  rewrite Unsigned.of_to in Hnorm. cbn [N.to_uint] in Hnorm.
  pose proof (Unsigned.to_uint_nonzero p) as Hnz.
  pose proof (Unsigned.to_uint_nonnil p) as Hnn.
  pose proof (digits_of_uint_digits (Pos.to_uint p)) as Hdigits.
  destruct (Pos.to_uint p) as [|u|u|u|u|u|u|u|u|u|u] eqn:E;
    [congruence| |cbn [digits_of_uint forallb] in *;
                  apply andb_true_iff in Hdigits;
                  eexists _, _; repeat split; try apply Hdigits; lia..].
  exfalso. unfold Decimal.unorm in Hnorm. cbn [Decimal.nzhead] in Hnorm.
  destruct (Decimal.nzhead u) as [|v|v|v|v|v|v|v|v|v|v] eqn:Eu;
    try discriminate.
  - exact (Hnz Hnorm).
  - exact (nzhead_no_zero u v Eu).
Qed.

Lemma span_digits_app (ds rest : str) :
  forallb is_digit ds = true ->
  match rest with [] => true | c :: _ => negb (is_digit c) end = true ->
  span_digits (ds ++ rest) = (ds, rest).
Proof.
  intros Hds Hrest. induction ds as [|c ds IH].
  - destruct rest as [|c r]; [reflexivity|]. cbn [app span_digits].
    apply negb_true_iff in Hrest. now rewrite Hrest.
  - cbn [forallb] in Hds. apply andb_true_iff in Hds. destruct Hds as [Hc Hds].
    cbn [app span_digits]. now rewrite Hc, (IH Hds).
Qed.

Lemma match_number_digits (sign : str) (d : N) (ds rest : str) :
  (sign = [] \/ sign = [45%N]) ->
  is_digit d = true ->
  (d = 48%N -> ds = []) ->
  forallb is_digit ds = true ->
  ends_number rest = true ->
  match_number (sign ++ d :: ds ++ rest)
  = Some ((sign ++ d :: ds)%list, false, rest).
Proof.
  intros Hsign Hd Hzero Hds Hrest.
  assert (Hspan : span_digits (ds ++ rest) = (ds, rest)).
  { apply span_digits_app; [exact Hds|].
    destruct rest as [|c r]; [reflexivity|]. cbn [ends_number] in Hrest.
    apply negb_true_iff in Hrest. apply negb_true_iff.
    destruct (is_digit c); [discriminate|reflexivity]. }
  assert (Hminus : (d =? 45)%N = false).
  { apply N.eqb_neq. intros ->. discriminate. }
  assert (E : (if (d =? 48)%N then Some ([d], (ds ++ rest)%list)
               else if is_digit d
                    then let (ds0, rest0) := span_digits (ds ++ rest) in
                         Some (d :: ds0, rest0)
                    else None) = Some (d :: ds, rest)).
  { destruct (N.eqb_spec d 48) as [E|E].
    - now rewrite (Hzero E).
    - now rewrite Hd, Hspan. }
  assert (Hfollow :
    match rest with
    | [] => True
    | c :: _ => (c =? 46)%N = false /\ (c =? 101)%N = false /\
                (c =? 69)%N = false
    end).
  { destruct rest as [|c r]; [exact I|].
    cbn [ends_number] in Hrest. apply negb_true_iff in Hrest.
    apply orb_false_iff in Hrest. destruct Hrest as [Hrest H69].
    apply orb_false_iff in Hrest. destruct Hrest as [Hrest H101].
    apply orb_false_iff in Hrest. destruct Hrest as [_ H46]. auto. }
  unfold match_number.
  destruct Hsign as [->| ->]; cbn [app].
  - rewrite Hminus, E. destruct rest as [|c [|c' r]]; [reflexivity| |];
      destruct Hfollow as (H46 & H101 & H69);
      rewrite ?H46; cbn [andb]; rewrite H101, H69; reflexivity.
  - change (45 =? 45)%N with true. cbv iota. rewrite E.
    destruct rest as [|c [|c' r]]; [reflexivity| |];
      destruct Hfollow as (H46 & H101 & H69);
      rewrite ?H46; cbn [andb]; rewrite H101, H69; reflexivity.
Qed.

Lemma match_number_repr (z : Z) (rest : str) :
  ends_number rest = true ->
  match_number (repr_int z ++ rest) = Some (repr_int z, false, rest).
Proof.
  intros Hrest. unfold repr_int.
  destruct z as [|p|p]; cbn [Z.to_int].
  - apply (match_number_digits [] 48%N [] rest); auto.
  - destruct (to_uint_head p) as (d & ds & -> & Hlo & Hhi & Hds).
    apply (match_number_digits [] d ds rest); auto.
    + apply andb_true_iff; split; apply N.leb_le; lia.
    + lia.
  - destruct (to_uint_head p) as (d & ds & -> & Hlo & Hhi & Hds).
    apply (match_number_digits [45%N] d ds rest); auto.
    + apply andb_true_iff; split; apply N.leb_le; lia.
    + lia.
Qed.

Lemma int_of_digits_acc (u : Decimal.uint) (acc : positive) :
  fold_left (fun a c => 10 * a + Z.of_N (c - 48)) (digits_of_uint u)
    (Z.pos acc)
  = Z.pos (Pos.of_uint_acc u acc).
Proof.
  revert acc. induction u; intros acc; cbn [digits_of_uint fold_left];
    [reflexivity|..].
  all: cbn [Pos.of_uint_acc]; rewrite <- IHu; f_equal; lia.
Qed.

Lemma int_of_digits_uint (u : Decimal.uint) :
  int_of_digits (digits_of_uint u) = Z.of_N (Pos.of_uint u).
Proof.
  unfold int_of_digits. induction u; cbn [digits_of_uint fold_left];
    [reflexivity|exact IHu|..].
  all: cbn [Pos.of_uint Z.of_N]; rewrite <- int_of_digits_acc; reflexivity.
Qed.

(** [int(repr(z)) = z] *)
Lemma parse_int_repr (z : Z) : parse_int (repr_int z) = z.
Proof.
  unfold repr_int. destruct z as [|p|p]; cbn [Z.to_int].
  - reflexivity.
  - destruct (to_uint_head p) as (d & ds & E & Hlo & Hhi & Hds).
    unfold parse_int. rewrite E.
    assert (Hminus : (d =? 45)%N = false) by (apply N.eqb_neq; lia).
    rewrite Hminus, <- E, int_of_digits_uint, Unsigned.of_to. reflexivity.
  - cbn [parse_int]. change (45 =? 45)%N with true. cbv iota.
    rewrite int_of_digits_uint, Unsigned.of_to. reflexivity.
Qed.

Lemma json_dumps_with (j : json) :
  json_dumps j = dumps_with (lit ", ") (lit ": ") j.
Proof. reflexivity. Qed.

Lemma distinct_NoDup (ks : list str) : distinct ks = true -> NoDup ks.
Proof.
  induction ks as [|k ks IH]; cbn [distinct]; intros H; constructor.
  - apply andb_true_iff in H. destruct H as [H _].
    apply negb_true_iff in H. intros Hin.
    assert (E : existsb (str_eqb k) ks = true).
    { apply existsb_exists. exists k. split; [exact Hin|].
      unfold str_eqb. destruct (str_eq_dec k k); congruence. }
    congruence.
  - apply IH. apply andb_true_iff in H. apply H.
Qed.

Lemma dict_set_new {K V} (eq_dec : forall a b : K, {a = b} + {a <> b})
    (k : K) (v : V) (d : list (K * V)) :
  ~ In k (map fst d) -> dict_set eq_dec k v d = (d ++ [(k, v)])%list.
Proof.
  induction d as [|[k' v'] d IH]; cbn [dict_set map fst In app];
    intros Hk; [reflexivity|].
  destruct (eq_dec k k') as [->|_]; [tauto|]. f_equal. apply IH. tauto.
Qed.

Lemma skip_ws_ws (w t : str) :
  forallb is_ws w = true -> skip_ws (w ++ t) = skip_ws t.
Proof.
  induction w as [|c w IH]; cbn [forallb app skip_ws]; [reflexivity|].
  intros H. apply andb_true_iff in H. destruct H as [-> H]. apply IH, H.
Qed.

Lemma skip_ws_value (t : str) : value_head t = true -> skip_ws t = t.
Proof.
  destruct t as [|c t]; [discriminate|]. cbn [value_head skip_ws].
  intros H. apply andb_true_iff in H. destruct H as [H _].
  apply andb_true_iff in H. destruct H as [H _].
  apply negb_true_iff in H. now rewrite H.
Qed.

Lemma repr_int_head (z : Z) :
  exists c t, repr_int z = c :: t /\ (is_digit c || (c =? 45)%N) = true.
Proof.
  pose proof (repr_int_number z) as H. unfold repr_int in *.
  destruct z as [|p|p]; cbn [Z.to_int] in *.
  - eexists _, _. split; reflexivity.
  - destruct (to_uint_head p) as (d & ds & E & _). rewrite E in *.
    exists d, ds. split; [reflexivity|].
    unfold number_text in H. cbn [forallb] in H.
    apply andb_true_iff in H. apply H.
  - eexists _, _. split; reflexivity.
Qed.

Ltac norm_app :=
  repeat (rewrite <- app_assoc || rewrite <- app_comm_cons).

Section RoundTrip.
Variables w1 w2 : str.
Hypothesis Hw1 : forallb is_ws w1 = true.
Hypothesis Hw2 : forallb is_ws w2 = true.

Let dumps := dumps_with (44%N :: w1) (58%N :: w2).

Lemma dumps_head (j : json) (rest : str) :
  value_head (dumps j ++ rest) = true /\ (1 <= length (dumps j))%nat.
Proof.
  destruct j as [| [|] | z | s | l | d]; try (split; [reflexivity|]);
    try (cbn; lia).
  - destruct (repr_int_head z) as (c & t & E & Hc).
    unfold dumps. cbn [dumps_with]. rewrite E. cbn [app value_head length].
    split; [|lia].
    apply orb_true_iff in Hc. destruct Hc as [Hc|Hc].
    + unfold is_digit in Hc. apply andb_true_iff in Hc.
      destruct Hc as [Hlo Hhi]. apply N.leb_le in Hlo, Hhi.
      unfold is_ws.
      repeat match goal with
             | |- context [(c =? ?k)%N] =>
                 destruct (N.eqb_spec c k); [lia|]
             end.
      reflexivity.
    + apply N.eqb_eq in Hc. subst c. reflexivity.
Qed.

Lemma ends_number_sign (c : N) (t : str) :
  (c = 44 \/ c = 93 \/ c = 125 \/ c = 10)%N -> ends_number (c :: t) = true.
Proof. intros [->|[->|[->| ->]]]; reflexivity. Qed.

Lemma join_cons (sep p : str) (ps : list str) :
  join sep (p :: ps)
  = match ps with [] => p | _ :: _ => (p ++ sep ++ join sep ps)%list end.
Proof. destruct ps; reflexivity. Qed.

Lemma join_length (sep : str) (ps : list str) :
  Forall (fun p => (1 <= length p)%nat) ps ->
  (length ps <= length (join sep ps))%nat /\
  Forall (fun p => (length p <= length (join sep ps))%nat) ps.
Proof.
  induction 1 as [|p ps Hp _ [IH1 IH2]]; [split; [reflexivity|constructor]|].
  rewrite join_cons. destruct ps as [|p' ps].
  - split; [exact Hp|]. constructor; [lia|constructor].
  - rewrite !length_app. split.
    + cbn [length] in *. lia.
    + constructor; [lia|]. eapply Forall_impl; [|exact IH2].
      cbn beta. intros q Hq. lia.
Qed.

Section Items.
Variable scan : str -> result (json * str).

(** The loop of [JSONArray] on the text of the items of a list. *)
Lemma array_values_items (l : list json) :
  Forall (fun x => forall rest, ends_number rest = true ->
                     scan (dumps x ++ rest) = Ok (x, rest)) l ->
  forall (n : nat) (acc : list json) (rest : str),
    l <> [] -> (length l <= n)%nat ->
    array_values scan n acc
      (join (44%N :: w1) (map dumps l) ++ 93%N :: rest)
    = Ok (JArr (acc ++ l), rest).
Proof.
  induction 1 as [|x l Hx _ IH]; intros n acc rest Hne Hn; [congruence|].
  destruct n as [|n]; [cbn [length] in Hn; lia|].
  cbn [map]. rewrite join_cons. cbn [array_values].
  destruct l as [|x' l].
  - cbn [map]. rewrite Hx by (apply ends_number_sign; auto).
    cbn [bind skip_ws]. change (is_ws 93) with false. cbv iota.
    change (93 =? 93)%N with true. reflexivity.
  - cbn [map]. rewrite <- !app_assoc.
    rewrite Hx by (apply ends_number_sign; auto).
    cbn [bind app skip_ws]. change (is_ws 44) with false. cbv iota.
    change (44 =? 93)%N with false. change (44 =? 44)%N with true.
    cbv iota. rewrite skip_ws_ws by exact Hw1.
    rewrite skip_ws_value.
    + rewrite IH; [|discriminate|cbn [length] in *; lia].
      now rewrite <- app_assoc.
    + cbn [map]. rewrite join_cons.
      destruct (map dumps l); rewrite <- ?app_assoc;
        apply (dumps_head x').
Qed.

(** The text of an entry of a dict after the quote that opens its key. *)
Let entry_tail (kv : str * json) : str :=
  (flat_map escape_char (fst kv) ++
   34%N :: 58%N :: w2 ++ dumps (snd kv))%list.

Let entry (kv : str * json) : str :=
  let (k, v) := kv in
  (encode_basestring_ascii k ++ (58%N :: w2) ++ dumps v)%list.

Lemma entry_eq (kv : str * json) : entry kv = 34%N :: entry_tail kv.
Proof.
  destruct kv as [k v]. unfold entry, entry_tail, encode_basestring_ascii.
  cbn [fst snd app]. now rewrite <- !app_assoc.
Qed.

(** The loop of [JSONObject] on the text of the entries of a dict. *)
Lemma object_pairs_items (d : list (str * json)) :
  Forall (fun kv => forallb plain_char (fst kv) = true /\
                    forall rest, ends_number rest = true ->
                      scan (dumps (snd kv) ++ rest) = Ok (snd kv, rest)) d ->
  forall (n : nat) (acc : list (str * json)) (t rest : str),
    join (44%N :: w1) (map entry d) = 34%N :: t ->
    (length d <= n)%nat ->
    NoDup (map fst (acc ++ d)) ->
    object_pairs scan n acc (t ++ 125%N :: rest)
    = Ok (JObj (acc ++ d), rest).
Proof.
  induction 1 as [|[k v] d [Hk Hv] _ IH]; intros n acc t rest Ht Hn Hnd;
    [discriminate|].
  cbn [fst snd] in Hk, Hv.
  destruct n as [|n]; [cbn [length] in Hn; lia|].
  assert (Hnew : jset k v acc = (acc ++ [(k, v)])%list).
  { apply dict_set_new. rewrite map_app in Hnd.
    apply NoDup_remove_2 in Hnd. rewrite in_app_iff in Hnd.
    intros Hin. apply Hnd. left. exact Hin. }
  cbn [object_pairs]. destruct d as [|kv' d].
  - cbn [map join] in Ht. rewrite entry_eq in Ht. injection Ht as <-.
    unfold entry_tail. cbn [fst snd]. norm_app.
    rewrite scanstring_encoded by exact Hk.
    cbn [bind app skip_ws]. change (is_ws 58) with false. cbv iota.
    change (58 =? 58)%N with true. cbv iota.
    rewrite skip_ws_ws by exact Hw2.
    rewrite skip_ws_value by apply dumps_head.
    rewrite Hv by (apply ends_number_sign; auto).
    cbn [bind skip_ws]. change (is_ws 125) with false. cbv iota.
    change (125 =? 125)%N with true. cbv iota. now rewrite Hnew.
  - assert (Hnext : exists t', join (44%N :: w1) (map entry (kv' :: d))
                               = 34%N :: t').
    { cbn [map]. rewrite join_cons, entry_eq.
      destruct (map entry d); eexists; reflexivity. }
    destruct Hnext as [t' Ht'].
    change (map entry ((k, v) :: kv' :: d))
      with (entry (k, v) :: map entry (kv' :: d)) in Ht.
    rewrite join_cons, Ht', entry_eq in Ht. cbn [map] in Ht.
    cbv iota in Ht. injection Ht as <-.
    unfold entry_tail. cbn [fst snd]. norm_app.
    rewrite scanstring_encoded by exact Hk.
    cbn [bind app skip_ws]. change (is_ws 58) with false. cbv iota.
    change (58 =? 58)%N with true. cbv iota.
    rewrite skip_ws_ws by exact Hw2.
    rewrite skip_ws_value by apply dumps_head.
    rewrite Hv by (apply ends_number_sign; auto).
    cbn [bind app skip_ws]. change (is_ws 44) with false. cbv iota.
    change (44 =? 125)%N with false. change (44 =? 44)%N with true.
    cbv iota. rewrite skip_ws_ws by exact Hw1.
    cbn [app skip_ws]. change (is_ws 34) with false. cbv iota.
    change (34 =? 34)%N with true. cbv iota.
    rewrite Hnew, (IH n _ t' rest Ht').
    + now rewrite <- app_assoc.
    + cbn [length] in *. lia.
    + now rewrite <- app_assoc.
Qed.
End Items.

Lemma scan_once_number (depth : nat) (c : N) (t text rest : str) :
  (is_digit c || (c =? 45)%N) = true ->
  match_number (c :: t) = Some (text, false, rest) ->
  scan_once (S depth) (c :: t) = Ok (JInt (parse_int text), rest).
Proof.
  intros Hc E.
  assert (H : forall k,
             In k [34; 123; 91; 110; 116; 102]%N ->
             (c =? k)%N = false /\ (k =? c)%N = false).
  { intros k Hk. rewrite (N.eqb_sym k c).
    assert (c <> k); [|split; now apply N.eqb_neq].
    apply orb_true_iff in Hc. destruct Hc as [Hc|Hc].
    - unfold is_digit in Hc. apply andb_true_iff in Hc.
      destruct Hc as [Hlo Hhi]. apply N.leb_le in Hlo, Hhi.
      cbn [In] in Hk. lia.
    - apply N.eqb_eq in Hc. cbn [In] in Hk. lia. }
  cbn [scan_once].
  change (lit "null") with [110; 117; 108; 108]%N.
  change (lit "true") with [116; 114; 117; 101]%N.
  change (lit "false") with [102; 97; 108; 115; 101]%N.
  cbn [startswith].
  rewrite (proj1 (H 34%N ltac:(cbn; tauto))).
  rewrite (proj1 (H 123%N ltac:(cbn; tauto))).
  rewrite (proj1 (H 91%N ltac:(cbn; tauto))).
  rewrite (proj2 (H 110%N ltac:(cbn; tauto))).
  rewrite (proj2 (H 116%N ltac:(cbn; tauto))).
  rewrite (proj2 (H 102%N ltac:(cbn; tauto))).
  cbn [andb]. rewrite E. reflexivity.
Qed.

(** The scanner reads the text of a value as the value. *)
Lemma scan_dumps (j : json) :
  plain_value j = true ->
  forall (depth : nat) (rest : str),
    (length (dumps j) <= depth)%nat ->
    ends_number rest = true ->
    scan_once depth (dumps j ++ rest) = Ok (j, rest).
Proof.
  induction j as [| [|] | z | s | l IH | d IH] using json_ind;
    intros Hj depth rest Hdepth Hrest.
  - destruct depth; [cbn in Hdepth; lia|reflexivity].
  - destruct depth; [cbn in Hdepth; lia|reflexivity].
  - destruct depth; [cbn in Hdepth; lia|reflexivity].
  - destruct (dumps_head (JInt z) rest) as [_ Hlen].
    destruct depth as [|depth]; [lia|].
    unfold dumps. cbn [dumps_with].
    destruct (repr_int_head z) as (c & t & E & Hc).
    pose proof (match_number_repr z rest Hrest) as Hnum.
    rewrite E in Hnum |- *. cbn [app] in *.
    rewrite (scan_once_number depth c _ _ _ Hc Hnum).
    now rewrite <- E, parse_int_repr.
  - destruct depth as [|depth]; [cbn in Hdepth; lia|].
    unfold dumps. cbn [dumps_with]. unfold encode_basestring_ascii.
    norm_app. cbn [app scan_once]. change (34 =? 34)%N with true. cbv iota.
    cbn [plain_value] in Hj. now rewrite scanstring_encoded.
  - destruct depth as [|depth]; [cbn in Hdepth; lia|].
    unfold dumps in Hdepth |- *. cbn [dumps_with] in Hdepth |- *.
    fold dumps in Hdepth |- *.
    norm_app. cbn [app scan_once].
    change (91 =? 34)%N with false. change (91 =? 123)%N with false.
    change (91 =? 91)%N with true. cbv iota.
    cbn [plain_value] in Hj. unfold JSONArray.
    destruct l as [|x l].
    + cbn [map join app skip_ws]. change (is_ws 93) with false. cbv iota.
      change (93 =? 93)%N with true. reflexivity.
    + assert (Hlens : Forall (fun p => (1 <= length p)%nat)
                        (map dumps (x :: l))).
      { apply Forall_map, Forall_forall. intros y _.
        apply (dumps_head y []). }
      destruct (join_length (44%N :: w1) _ Hlens) as [Hcount Hitems].
      rewrite length_map in Hcount.
      set (text := (join (44%N :: w1) (map dumps (x :: l)) ++ 93%N :: rest)
                   %list).
      assert (Hhead : value_head text = true).
      { unfold text. cbn [map]. rewrite join_cons.
        destruct (map dumps l); norm_app; apply (dumps_head x). }
      rewrite (skip_ws_value _ Hhead).
      destruct text as [|c r] eqn:Etext; [discriminate|].
      assert (Hc : (c =? 93)%N = false).
      { cbn [value_head] in Hhead. apply andb_true_iff in Hhead.
        destruct Hhead as [Hhead _]. apply andb_true_iff in Hhead.
        destruct Hhead as [_ Hhead]. now apply negb_true_iff in Hhead. }
      rewrite Hc, <- Etext. unfold text.
      rewrite (array_values_items (scan_once depth) (x :: l)).
      * reflexivity.
      * rewrite Forall_forall in IH, Hitems.
        apply Forall_forall. intros y Hy rest' Hrest'.
        apply IH; [exact Hy| |..]; [| |exact Hrest'].
        -- rewrite forallb_forall in Hj. apply Hj, Hy.
        -- specialize (Hitems (dumps y) (in_map dumps _ _ Hy)).
           rewrite !length_app in Hdepth. cbn [length] in Hdepth. lia.
      * discriminate.
      * rewrite length_app. lia.
  - destruct depth as [|depth]; [cbn in Hdepth; lia|].
    unfold dumps in Hdepth |- *. cbn [dumps_with] in Hdepth |- *.
    fold dumps in Hdepth |- *.
    set (entry := fun kv : str * json =>
                    let (k, v) := kv in
                    (encode_basestring_ascii k ++ (58%N :: w2) ++ dumps v)
                    %list) in *.
    norm_app. cbn [app scan_once].
    change (123 =? 34)%N with false. change (123 =? 123)%N with true.
    cbv iota. cbn [plain_value] in Hj. apply andb_true_iff in Hj.
    destruct Hj as [Hkeys Hj]. unfold JSONObject.
    destruct d as [|kv d].
    + cbn [map join app skip_ws]. change (is_ws 125) with false. cbv iota.
      change (125 =? 125)%N with true. reflexivity.
    + assert (Hlens : Forall (fun p => (1 <= length p)%nat)
                        (map entry (kv :: d))).
      { apply Forall_map, Forall_forall. intros [k v] _. unfold entry.
        unfold encode_basestring_ascii. cbn [app length]. lia. }
      destruct (join_length (44%N :: w1) _ Hlens) as [Hcount Hitems].
      rewrite length_map in Hcount.
      assert (Hnext : exists t, join (44%N :: w1) (map entry (kv :: d))
                                = 34%N :: t).
      { assert (He : exists t0, entry kv = 34%N :: t0).
        { destruct kv as [k v]. eexists.
          unfold entry, encode_basestring_ascii. reflexivity. }
        destruct He as [t0 He]. cbn [map]. rewrite join_cons, He.
        destruct (map entry d); eexists; reflexivity. }
      destruct Hnext as [t Ht]. rewrite Ht in Hdepth, Hcount |- *.
      cbn [app skip_ws]. change (is_ws 34) with false. cbv iota.
      change (34 =? 125)%N with false. change (34 =? 34)%N with true.
      cbv iota.
      rewrite (object_pairs_items (scan_once depth) (kv :: d)).
      * reflexivity.
      * rewrite Forall_forall in IH, Hitems.
        apply Forall_forall. intros [k v] Hkv. cbn [fst snd].
        rewrite forallb_forall in Hj. specialize (Hj _ Hkv).
        cbn [fst snd] in Hj. apply andb_true_iff in Hj.
        destruct Hj as [Hk Hv]. split; [exact Hk|].
        intros rest' Hrest'.
        apply (IH _ Hkv); [exact Hv| |exact Hrest'].
        specialize (Hitems (entry (k, v)) (in_map entry _ _ Hkv)).
        rewrite Ht in Hitems. unfold entry in Hitems.
        cbv beta iota in Hitems. rewrite !length_app in Hitems.
        cbn [length] in Hdepth. rewrite !length_app in Hdepth.
        cbn [length] in Hdepth, Hitems. cbn [snd]. lia.
      * exact Ht.
      * cbn [length] in *. rewrite length_app. lia.
      * cbn [app]. apply distinct_NoDup, Hkeys.
Qed.

(** [json.loads] reads the text of a value, with any white space after
    the separators, as the value. *)
Lemma json_loads_dumps (j : json) (tail : str) :
  plain_value j = true -> forallb is_ws tail = true ->
  json_loads (dumps j ++ tail) = Ok j.
Proof.
  intros Hj Htail. destruct (dumps_head j tail) as [Hhead Hlen].
  unfold json_loads.
  assert (Hbom : startswith [65279%N] (dumps j ++ tail) = false).
  { destruct (dumps j ++ tail)%list as [|c t] eqn:E; [reflexivity|].
    cbn [startswith]. cbn [value_head] in Hhead.
    apply andb_true_iff in Hhead. destruct Hhead as [_ Hhead].
    apply negb_true_iff in Hhead. rewrite N.eqb_sym, Hhead. reflexivity. }
  rewrite Hbom, (skip_ws_value _ Hhead).
  rewrite scan_dumps; [| exact Hj | rewrite length_app; lia |].
  - cbn [bind]. rewrite <- (app_nil_r tail), skip_ws_ws by exact Htail.
    reflexivity.
  - destruct tail as [|c t]; [reflexivity|]. cbn [forallb] in Htail.
    apply andb_true_iff in Htail. destruct Htail as [Hc _].
    unfold is_ws in Hc. cbn [ends_number].
    repeat (apply orb_true_iff in Hc; destruct Hc as [Hc|Hc]);
      apply N.eqb_eq in Hc; subst c; reflexivity.
Qed.
End RoundTrip.

(** ** The text of [json.dumps] *)

Lemma u_escape_printable (n : N) :
  forallb printable (u_escape n) = true /\
  forallb (fun c => negb (c =? 32)%N) (u_escape n) = true.
Proof.
  unfold u_escape, hex4_of. cbn [forallb].
  assert (H : forall d, (d < 16)%N ->
                printable (hexdigit d) = true /\
                negb (hexdigit d =? 32)%N = true).
  { intros d Hd. split; [apply hexdigit_cases, Hd|].
    unfold hexdigit. apply negb_true_iff, N.eqb_neq.
    destruct (d <? 10)%N; lia. }
  assert (H16 : forall m, (m mod 16 < 16)%N)
    by (intros m; apply N.mod_lt; discriminate).
  destruct (H _ (H16 (n / 4096)%N)) as [-> ->].
  destruct (H _ (H16 (n / 256)%N)) as [-> ->].
  destruct (H _ (H16 (n / 16)%N)) as [-> ->].
  destruct (H _ (H16 n)) as [-> ->]. split; reflexivity.
Qed.

(** The escape of a character is printable ASCII, and it has a space only
    when the character is the space. *)
Lemma escape_char_printable (c : N) :
  forallb printable (escape_char c) = true /\
  (c <> 32%N -> forallb (fun x => negb (x =? 32)%N) (escape_char c) = true).
Proof.
  unfold escape_char.
  repeat match goal with
         | |- context [if ?b then _ else _] => destruct b eqn:?
         end;
    try (split; [reflexivity|intros _; reflexivity]);
    try (rewrite !forallb_app;
         split; [|intros _]; now rewrite !(proj1 (u_escape_printable _))
                              || now rewrite !(proj2 (u_escape_printable _)));
    try (split; [|intros _]; apply u_escape_printable).
  cbn [forallb]. unfold printable.
  match goal with H : _ && _ = true |- _ => rewrite H end.
  split; [reflexivity|]. intros Hc. apply N.eqb_neq in Hc. now rewrite Hc.
Qed.

Lemma flat_map_escape_printable (s : str) :
  forallb printable (flat_map escape_char s) = true.
Proof.
  induction s as [|c s IH]; [reflexivity|]. cbn [flat_map].
  now rewrite forallb_app, (proj1 (escape_char_printable c)), IH.
Qed.

Lemma encode_printable (s : str) :
  forallb printable (encode_basestring_ascii s) = true.
Proof.
  unfold encode_basestring_ascii.
  now rewrite !forallb_app, flat_map_escape_printable.
Qed.

Lemma repr_int_printable (z : Z) :
  forallb printable (repr_int z) = true /\ unspaced (repr_int z) = repr_int z.
Proof.
  pose proof (repr_int_number z) as H. unfold number_text in H.
  rewrite forallb_forall in H. split.
  - apply forallb_forall. intros c Hc. specialize (H c Hc).
    apply orb_true_iff in H. destruct H as [H|H].
    + unfold is_digit in H. apply andb_true_iff in H. destruct H as [Hlo Hhi].
      apply N.leb_le in Hlo, Hhi. unfold printable.
      apply andb_true_iff; split; apply N.leb_le; lia.
    + apply N.eqb_eq in H. now subst c.
  - unfold unspaced. apply forallb_filter_id, forallb_forall.
    intros c Hc. specialize (H c Hc). apply negb_true_iff, N.eqb_neq.
    intros ->. discriminate.
Qed.

Lemma join_forallb (P : N -> bool) (sep : str) (parts : list str) :
  forallb P sep = true ->
  Forall (fun p => forallb P p = true) parts ->
  forallb P (join sep parts) = true.
Proof.
  intros Hsep. induction 1 as [|p parts Hp _ IH]; [reflexivity|].
  rewrite join_cons. destruct parts as [|p' parts]; [exact Hp|].
  now rewrite !forallb_app, Hp, Hsep, IH.
Qed.

(** With [ensure_ascii], the text of a value is printable ASCII. *)
Lemma dumps_with_printable (sep1 sep2 : str) (j : json) :
  forallb printable sep1 = true -> forallb printable sep2 = true ->
  forallb printable (dumps_with sep1 sep2 j) = true.
Proof.
  intros H1 H2.
  induction j as [| [|] | z | s | l IH | d IH] using json_ind;
    cbn [dumps_with]; try reflexivity.
  - apply repr_int_printable.
  - apply encode_printable.
  - rewrite !forallb_app. rewrite join_forallb; [reflexivity|exact H1|].
    apply Forall_map. exact IH.
  - rewrite !forallb_app. rewrite join_forallb; [reflexivity|exact H1|].
    apply Forall_map. eapply Forall_impl; [|exact IH].
    intros [k v] Hv. cbn [snd] in Hv.
    now rewrite !forallb_app, encode_printable, H2, Hv.
Qed.

Lemma unspaced_app (a b : str) :
  unspaced (a ++ b) = (unspaced a ++ unspaced b)%list.
Proof. apply filter_app. Qed.

Lemma unspaced_join (sep : str) (parts : list str) :
  unspaced (join sep parts) = join (unspaced sep) (map unspaced parts).
Proof.
  induction parts as [|p parts IH]; [reflexivity|].
  cbn [map]. rewrite !join_cons. destruct parts as [|p' parts];
    [reflexivity|].
  cbn [map] in *. now rewrite !unspaced_app, IH.
Qed.

Lemma unspaced_escape (s : str) :
  unspaced (flat_map escape_char s) = flat_map escape_char (unspaced s).
Proof.
  induction s as [|c s IH]; [reflexivity|].
  cbn [flat_map]. rewrite unspaced_app, IH. unfold unspaced at 3.
  cbn [filter]. destruct (N.eqb_spec c 32) as [->|Hc]; cbn [negb].
  - reflexivity.
  - cbn [flat_map]. f_equal. unfold unspaced.
    apply forallb_filter_id, escape_char_printable, Hc.
Qed.

Lemma unspaced_encode (s : str) :
  unspaced (encode_basestring_ascii s) = encode_basestring_ascii (unspaced s).
Proof.
  unfold encode_basestring_ascii. rewrite !unspaced_app, unspaced_escape.
  reflexivity.
Qed.

(** Taking the spaces out of the text of a value gives the text, with the
    separators [,] and [:], of the value without its spaces. *)
Lemma unspaced_dumps (j : json) :
  unspaced (json_dumps j) = dumps_with [44%N] [58%N] (without_spaces j).
Proof.
  rewrite json_dumps_with.
  induction j as [| [|] | z | s | l IH | d IH] using json_ind;
    cbn [dumps_with without_spaces]; try reflexivity.
  - apply repr_int_printable.
  - apply unspaced_encode.
  - rewrite !unspaced_app, unspaced_join, !map_map.
    do 3 f_equal. apply map_ext_Forall, IH.
  - rewrite !unspaced_app, unspaced_join, !map_map.
    do 3 f_equal. apply map_ext_Forall.
    eapply Forall_impl; [|exact IH]. intros [k v] Hv. cbn [fst snd] in *.
    now rewrite !unspaced_app, unspaced_encode, Hv.
Qed.

Lemma without_whitespace_printable (t : str) :
  forallb printable t = true -> without_whitespace t = unspaced t.
Proof.
  unfold without_whitespace, unspaced. induction t as [|c t IH];
    [reflexivity|].
  cbn [forallb filter]. intros H. apply andb_true_iff in H.
  destruct H as [Hc Ht]. rewrite (IH Ht).
  unfold printable in Hc. apply andb_true_iff in Hc. destruct Hc as [Hlo _].
  apply N.leb_le in Hlo.
  destruct (N.eqb_spec c 10); [lia|]. destruct (N.eqb_spec c 9); [lia|].
  reflexivity.
Qed.

Lemma json_dumps_printable (j : json) :
  forallb printable (json_dumps j) = true.
Proof. rewrite json_dumps_with. now apply dumps_with_printable. Qed.

Lemma squeeze_dumps (record : json) :
  squeeze record = dumps_with [44%N] [58%N] (without_spaces record).
Proof.
  rewrite squeeze_without_whitespace, <- unspaced_dumps.
  apply without_whitespace_printable, json_dumps_printable.
Qed.

Lemma json_loads_json_dumps (j : json) (tail : str) :
  plain_value j = true -> forallb is_ws tail = true ->
  json_loads (json_dumps j ++ tail) = Ok j.
Proof.
  intros Hj Htail. rewrite json_dumps_with.
  apply (json_loads_dumps [32%N] [32%N]); auto.
Qed.

Lemma json_loads_squeeze (record : json) :
  plain_value (without_spaces record) = true ->
  json_loads (squeeze record) = Ok (without_spaces record).
Proof.
  intros H. rewrite squeeze_dumps, <- (app_nil_r (dumps_with _ _ _)).
  apply (json_loads_dumps [] []); auto.
Qed.

(** ** Reading back what the Writer wrote *)

Lemma universal_newlines_id (t : str) :
  forallb (fun c => negb (c =? 13)%N) t = true -> universal_newlines t = t.
Proof.
  induction t as [|c t IH]; [reflexivity|]. cbn [forallb universal_newlines].
  intros H. apply andb_true_iff in H. destruct H as [Hc Ht].
  apply negb_true_iff in Hc. now rewrite Hc, (IH Ht).
Qed.

Lemma file_lines_line (l t : str) :
  no_newline l = true ->
  file_lines (l ++ 10%N :: t) = (l ++ [10%N])%list :: file_lines t.
Proof.
  unfold no_newline. induction l as [|c l IH]; [reflexivity|].
  cbn [forallb app file_lines]. intros H. apply andb_true_iff in H.
  destruct H as [Hc Hl]. apply negb_true_iff in Hc.
  now rewrite Hc, (IH Hl).
Qed.

Lemma file_lines_lines_of (events : list json) :
  file_lines (lines_of events)
  = map (fun event => (json_dumps event ++ [10%N])%list) events.
Proof.
  unfold lines_of. induction events as [|event events IH]; [reflexivity|].
  cbn [flat_map map]. rewrite <- app_assoc. cbn [app].
  rewrite file_lines_line by apply json_dumps_no_newline. now rewrite IH.
Qed.

Lemma lines_of_no_return (events : list json) :
  forallb (fun c => negb (c =? 13)%N) (lines_of events) = true.
Proof.
  unfold lines_of. induction events as [|event events IH]; [reflexivity|].
  cbn [flat_map]. rewrite !forallb_app, IH, andb_true_r. cbn [forallb].
  rewrite andb_true_r. pose proof (json_dumps_printable event) as H.
  rewrite forallb_forall in *. intros c Hc. specialize (H c Hc).
  apply negb_true_iff, N.eqb_neq. intros ->. discriminate.
Qed.

Lemma mapM_map_Ok {A B C} (f : B -> result C) (g : A -> B) (h : A -> C)
    (l : list A) :
  Forall (fun a => f (g a) = Ok (h a)) l ->
  mapM f (map g l) = Ok (map h l).
Proof.
  induction 1 as [|a l Ha _ IH]; [reflexivity|].
  cbn [map mapM]. now rewrite Ha, IH.
Qed.

(** The JSON Lines reader gives back the events of the lines the Writer
    writes for them. *)
Lemma read_lines_of (events : list json) :
  forallb plain_value events = true ->
  read_jsonl_file (lines_of events)
  = Ok (JObj [(Records_key, JArr events)]).
Proof.
  intros Hplain. unfold read_jsonl_file.
  rewrite universal_newlines_id by apply lines_of_no_return.
  rewrite file_lines_lines_of.
  rewrite (mapM_map_Ok json_loads _ (fun event => event)).
  - cbn [bind]. now rewrite map_id.
  - rewrite forallb_forall in Hplain. apply Forall_forall.
    intros event Hevent. apply json_loads_json_dumps; [|reflexivity].
    apply Hplain, Hevent.
Qed.

(** ** White space at the end of a JSON text *)

Lemma is_ws_cases (c : N) :
  is_ws c = true -> c = 32%N \/ c = 9%N \/ c = 10%N \/ c = 13%N.
Proof.
  unfold is_ws. intros H.
  repeat (apply orb_true_iff in H; destruct H as [H|H]);
    apply N.eqb_eq in H; auto.
Qed.

Lemma skip_ws_snoc (s : str) (c : N) :
  is_ws c = true ->
  skip_ws (s ++ [c])
  = match skip_ws s with [] => [] | _ :: _ => (skip_ws s ++ [c])%list end.
Proof.
  intros Hc. induction s as [|a s IH]; cbn [app skip_ws].
  - now rewrite Hc.
  - destruct (is_ws a); [exact IH|reflexivity].
Qed.

Lemma skip_ws_length (s : str) : (length (skip_ws s) <= length s)%nat.
Proof.
  induction s as [|a s IH]; cbn [skip_ws length]; [lia|].
  destruct (is_ws a); cbn [length]; lia.
Qed.

Lemma extended_cons_char (w : str) (a : N) (x y : result (str * str)) :
  extended w x y -> extended w (cons_char a x) (cons_char a y).
Proof.
  unfold extended, cons_char. destruct x as [[v rest]|e]; intros ->;
    reflexivity.
Qed.

Lemma hex4_ws (h1 h2 h3 c : N) : is_ws c = true -> hex4 h1 h2 h3 c = None.
Proof.
  intros Hc. unfold hex4.
  assert (E : hexval c = None)
    by (destruct (is_ws_cases c Hc) as [->|[->|[->| ->]]]; reflexivity).
  rewrite E. destruct (hexval h1), (hexval h2), (hexval h3); reflexivity.
Qed.

Lemma scanstring_u_eq (h1 h2 h3 h4 : N) (r2 : str) :
  scanstring (92%N :: 117%N :: h1 :: h2 :: h3 :: h4 :: r2)
  = match hex4 h1 h2 h3 h4 with
    | None => Raise JSONDecodeError
    | Some uni =>
        match r2 with
        | b :: u :: g1 :: g2 :: g3 :: g4 :: r3 =>
            if is_high_surrogate uni && (b =? 92)%N && (u =? 117)%N
            then
              match hex4 g1 g2 g3 g4 with
              | None => Raise JSONDecodeError
              | Some uni2 =>
                  if is_low_surrogate uni2
                  then cons_char (join_surrogates uni uni2) (scanstring r3)
                  else cons_char uni (scanstring r2)
              end
            else cons_char uni (scanstring r2)
        | _ => cons_char uni (scanstring r2)
        end
    end.
Proof. reflexivity. Qed.

Lemma scanstring_u_short (r1 : str) :
  (length r1 < 4)%nat -> scanstring (92%N :: 117%N :: r1) = Raise JSONDecodeError.
Proof.
  destruct r1 as [|h1 [|h2 [|h3 [|h4 r2]]]]; cbn [length]; intros H;
    try reflexivity. lia.
Qed.

Section Snoc.
Variable c : N.
Hypothesis Hc : is_ws c = true.

Lemma scanstring_snoc (n : nat) :
  forall s, (length s <= n)%nat ->
    extended [c] (scanstring s) (scanstring (s ++ [c])).
Proof.
  assert (Hc34 : (c =? 34)%N = false /\ (c =? 92)%N = false /\
                 (c =? 117)%N = false /\ backslash c = None /\
                 scanstring [c] = Raise JSONDecodeError).
  { destruct (is_ws_cases c Hc) as [->|[->|[->| ->]]]; repeat split. }
  destruct Hc34 as (H34 & H92 & H117 & Hback & Hone).
  induction n as [|n IH]; intros s Hs.
  - destruct s; [exact Hone|cbn [length] in Hs; lia].
  - destruct s as [|a r]; [exact Hone|].
    cbn [length] in Hs.
    assert (IHr : forall t, (length t <= length r)%nat ->
                    extended [c] (scanstring t) (scanstring (t ++ [c])))
      by (intros t Ht; apply IH; lia).
    clear IH. cbn [app].
    destruct (N.eqb_spec a 34) as [->|Ha34]; [reflexivity|].
    destruct (N.eqb_spec a 92) as [->|Ha92].
    + destruct r as [|e r1].
      * cbn [app scanstring]. change (92 =? 34)%N with false.
        change (92 =? 92)%N with true. cbv iota. now rewrite H117, Hback.
      * destruct (N.eqb_spec e 117) as [->|He].
        -- destruct r1 as [|h1 [|h2 [|h3 [|h4 r2]]]];
             try (rewrite !scanstring_u_short by (cbn [app length]; lia);
                  reflexivity).
           ++ rewrite scanstring_u_short by (cbn [length]; lia).
              cbn [app]. rewrite scanstring_u_eq, hex4_ws by exact Hc.
              reflexivity.
           ++ cbn [app]. rewrite !scanstring_u_eq.
              destruct (hex4 h1 h2 h3 h4) as [uni|]; [|reflexivity].
              assert (IH2 : forall t, (length t <= length r2)%nat ->
                              extended [c] (cons_char uni (scanstring t))
                                (cons_char uni (scanstring (t ++ [c]))))
                by (intros t Ht; apply extended_cons_char, IHr;
                    cbn [length]; lia).
              destruct r2 as [|b [|u [|g1 [|g2 [|g3 [|g4 r3]]]]]];
                try (apply (IH2 _ (le_n _))).
              ** cbn [app].
                 destruct (is_high_surrogate uni && (b =? 92)%N &&
                           (u =? 117)%N) eqn:Econd;
                   [|apply (IH2 [b; u; g1; g2; g3] (le_n _))].
                 rewrite hex4_ws by exact Hc.
                 apply andb_true_iff in Econd. destruct Econd as [Econd Eu].
                 apply andb_true_iff in Econd. destruct Econd as [_ Eb].
                 apply N.eqb_eq in Eu, Eb. subst b u. reflexivity.
              ** cbn [app].
                 destruct (is_high_surrogate uni && (b =? 92)%N &&
                           (u =? 117)%N);
                   [|apply (IH2 (b :: u :: g1 :: g2 :: g3 :: g4 :: r3)
                              (le_n _))].
                 destruct (hex4 g1 g2 g3 g4) as [uni2|]; [|reflexivity].
                 destruct (is_low_surrogate uni2);
                   [|apply (IH2 (b :: u :: g1 :: g2 :: g3 :: g4 :: r3)
                              (le_n _))].
                 apply extended_cons_char, IHr. cbn [length]. lia.
        -- cbn [app scanstring]. change (92 =? 34)%N with false.
           change (92 =? 92)%N with true. cbv iota.
           rewrite (proj2 (N.eqb_neq _ _) He).
           destruct (backslash e); [|reflexivity].
           apply extended_cons_char, IHr. cbn [length]. lia.
    + cbn [scanstring].
      rewrite (proj2 (N.eqb_neq _ _) Ha34), (proj2 (N.eqb_neq _ _) Ha92).
      destruct (a <? 32)%N; [reflexivity|].
      apply extended_cons_char, IHr. lia.
Qed.

Lemma cons_char_Ok (a : N) (x : result (str * str)) (v rest : str) :
  cons_char a x = Ok (v, rest) -> exists v', x = Ok (v', rest).
Proof.
  unfold cons_char. destruct x as [[v' rest']|e]; cbn [bind];
    [|discriminate].
  intros E. injection E as _ <-. now exists v'.
Qed.

(** The text left after a string is a part of the text scanned. *)
Lemma scanstring_shorter (n : nat) :
  forall s v rest, (length s <= n)%nat ->
    scanstring s = Ok (v, rest) -> (length rest <= length s)%nat.
Proof.
  induction n as [|n IH]; intros s v rest Hs E.
  - destruct s; [discriminate|cbn [length] in Hs; lia].
  - destruct s as [|a r]; [discriminate|]. cbn [length] in Hs.
    assert (IHr : forall t a' v', (length t <= length r)%nat ->
                    cons_char a' (scanstring t) = Ok (v', rest) ->
                    (length rest <= length t)%nat).
    { intros t a' v' Ht Et. apply cons_char_Ok in Et. destruct Et as [v'' Et].
      apply (IH t v''); [lia|exact Et]. }
    clear IH.
    destruct (N.eqb_spec a 34) as [->|Ha34].
    { injection E as _ <-. cbn [length]. lia. }
    destruct (N.eqb_spec a 92) as [->|Ha92].
    + destruct r as [|e r1]; [discriminate|].
      destruct (N.eqb_spec e 117) as [->|He].
      * destruct r1 as [|h1 [|h2 [|h3 [|h4 r2]]]]; try discriminate.
        rewrite scanstring_u_eq in E.
        destruct (hex4 h1 h2 h3 h4) as [uni|]; [|discriminate].
        assert (IH2 : forall t, (length t <= length r2)%nat ->
                        cons_char uni (scanstring t) = Ok (v, rest) ->
                        (length rest <= length (92%N :: 117%N :: h1 :: h2
                                                 :: h3 :: h4 :: r2))%nat).
        { intros t Ht Et. apply IHr in Et; cbn [length] in *; lia. }
        destruct r2 as [|b [|u [|g1 [|g2 [|g3 [|g4 r3]]]]]];
          try (apply (IH2 _ (le_n _) E)).
        destruct (is_high_surrogate uni && (b =? 92)%N && (u =? 117)%N);
          [|apply (IH2 _ (le_n _) E)].
        destruct (hex4 g1 g2 g3 g4) as [uni2|]; [|discriminate].
        destruct (is_low_surrogate uni2); [|apply (IH2 _ (le_n _) E)].
        apply IHr in E; cbn [length] in *; lia.
      * cbn [scanstring] in E. change (92 =? 34)%N with false in E.
        change (92 =? 92)%N with true in E. cbv iota in E.
        rewrite (proj2 (N.eqb_neq _ _) He) in E.
        destruct (backslash e); [|discriminate].
        apply IHr in E; cbn [length] in *; lia.
    + cbn [scanstring] in E.
      rewrite (proj2 (N.eqb_neq _ _) Ha34), (proj2 (N.eqb_neq _ _) Ha92) in E.
      destruct (a <? 32)%N; [discriminate|].
      apply IHr in E; cbn [length] in *; lia.
Qed.

Lemma span_digits_snoc (s : str) :
  span_digits (s ++ [c])
  = (fst (span_digits s), (snd (span_digits s) ++ [c])%list).
Proof.
  assert (Hd : is_digit c = false)
    by (destruct (is_ws_cases c Hc) as [->|[->|[->| ->]]]; reflexivity).
  induction s as [|a s IH]; cbn [app span_digits].
  - now rewrite Hd.
  - destruct (is_digit a); [|reflexivity].
    rewrite IH. now destruct (span_digits s).
Qed.

Lemma span_digits_shorter (s : str) :
  (length (snd (span_digits s)) <= length s)%nat.
Proof.
  induction s as [|a s IH]; cbn [span_digits]; [cbn; lia|].
  destruct (is_digit a); [|cbn; lia].
  destruct (span_digits s). cbn [snd length] in *. lia.
Qed.

(** The exponent of NUMBER_RE, from the text after the fraction. *)
Let exponent (rest1 : str) : bool * str :=
  match rest1 with
  | e :: r2 =>
      if (e =? 101)%N || (e =? 69)%N then
        let r3 := match r2 with
                  | sg :: r3 =>
                      if (sg =? 45)%N || (sg =? 43)%N then r3 else r2
                  | [] => r2
                  end in
        match match r3 with
              | d2 :: _ => if is_digit d2
                           then Some (snd (span_digits r3)) else None
              | [] => None
              end with
        | Some rest2 => (true, rest2)
        | None => (false, rest1)
        end
      else (false, rest1)
  | [] => (false, rest1)
  end.

(** The fraction of NUMBER_RE, from the text after the integer. *)
Let fraction (rest : str) : bool * str :=
  match rest with
  | p :: d1 :: r1 =>
      if (p =? 46)%N && is_digit d1
      then (true, snd (span_digits (d1 :: r1)))
      else (false, rest)
  | _ => (false, rest)
  end.

Let integer (s1 : str) : option (str * str) :=
  match s1 with
  | d :: r =>
      if (d =? 48)%N then Some ([d], r)
      else if is_digit d
           then let (ds, rest) := span_digits r in Some (d :: ds, rest)
           else None
  | [] => None
  end.

Lemma match_number_eq (s : str) :
  match_number s
  = let (sign, s1) := match s with
                      | a :: r => if (a =? 45)%N then ([45%N], r) else ([], s)
                      | [] => ([], s)
                      end in
    match integer s1 with
    | None => None
    | Some (ds, rest) =>
        let (has_frac, rest1) := fraction rest in
        let (has_exp, rest2) := exponent rest1 in
        Some ((sign ++ ds)%list, has_frac || has_exp, rest2)
    end.
Proof.
  unfold match_number, integer, fraction, exponent.
  destruct s as [|a r]; [reflexivity|].
  destruct (a =? 45)%N.
  - destruct r as [|d r]; [reflexivity|].
    destruct (d =? 48)%N; [reflexivity|].
    destruct (is_digit d); reflexivity.
  - destruct (a =? 48)%N; [reflexivity|].
    destruct (is_digit a); reflexivity.
Qed.

Lemma c_facts :
  is_digit c = false /\ (c =? 45)%N = false /\ (c =? 48)%N = false /\
  (c =? 46)%N = false /\ (c =? 101)%N = false /\ (c =? 69)%N = false /\
  (c =? 43)%N = false.
Proof.
  destruct (is_ws_cases c Hc) as [->|[->|[->| ->]]]; repeat split.
Qed.

Lemma exponent_snoc (rest1 : str) :
  exponent (rest1 ++ [c])
  = (fst (exponent rest1), (snd (exponent rest1) ++ [c])%list).
Proof.
  destruct c_facts as (Hd & H45 & _ & _ & H101 & H69 & H43).
  unfold exponent. destruct rest1 as [|e r2]; cbn [app].
  - now rewrite H101, H69.
  - destruct ((e =? 101)%N || (e =? 69)%N); [|reflexivity].
    destruct r2 as [|sg r3]; cbn [app].
    + rewrite H45, H43. cbn [orb]. now rewrite Hd.
    + destruct ((sg =? 45)%N || (sg =? 43)%N).
      * destruct r3 as [|d2 r4]; cbn [app]; [now rewrite Hd|].
        destruct (is_digit d2) eqn:E2; [|reflexivity].
        change (d2 :: r4 ++ [c])%list with ((d2 :: r4) ++ [c])%list.
        now rewrite span_digits_snoc.
      * destruct (is_digit sg) eqn:E2; [|reflexivity].
        change (sg :: r3 ++ [c])%list with ((sg :: r3) ++ [c])%list.
        now rewrite span_digits_snoc.
Qed.

Lemma fraction_snoc (rest : str) :
  fraction (rest ++ [c])
  = (fst (fraction rest), (snd (fraction rest) ++ [c])%list).
Proof.
  destruct c_facts as (Hd & _).
  unfold fraction. destruct rest as [|p [|d1 r1]]; cbn [app].
  - reflexivity.
  - now rewrite Hd, andb_false_r.
  - destruct ((p =? 46)%N && is_digit d1); [|reflexivity].
    change (d1 :: r1 ++ [c])%list with ((d1 :: r1) ++ [c])%list.
    now rewrite span_digits_snoc.
Qed.

Lemma integer_snoc (s1 : str) :
  integer (s1 ++ [c])
  = match integer s1 with
    | Some (ds, rest) => Some (ds, (rest ++ [c])%list)
    | None => None
    end.
Proof.
  destruct c_facts as (Hd & _ & H48 & _).
  unfold integer. destruct s1 as [|d r]; cbn [app].
  - now rewrite H48, Hd.
  - destruct (d =? 48)%N; [reflexivity|].
    destruct (is_digit d); [|reflexivity].
    rewrite span_digits_snoc. now destruct (span_digits r).
Qed.

(** NUMBER_RE takes the same number when white space follows the text. *)
Lemma match_number_snoc (s : str) :
  match_number (s ++ [c])
  = match match_number s with
    | Some (text, is_float, rest) => Some (text, is_float, (rest ++ [c])%list)
    | None => None
    end.
Proof.
  destruct c_facts as (Hd & H45 & _).
  rewrite !match_number_eq.
  assert (E : forall sign s1,
             (let (sign0, s2) := (sign, (s1 ++ [c])%list) in
              match integer s2 with
              | None => None
              | Some (ds, rest) =>
                  let (has_frac, rest1) := fraction rest in
                  let (has_exp, rest2) := exponent rest1 in
                  Some ((sign0 ++ ds)%list, has_frac || has_exp, rest2)
              end)
             = match (let (sign0, s2) := (sign : str, s1) in
                      match integer s2 with
                      | None => None
                      | Some (ds, rest) =>
                          let (has_frac, rest1) := fraction rest in
                          let (has_exp, rest2) := exponent rest1 in
                          Some ((sign0 ++ ds)%list, has_frac || has_exp,
                                rest2)
                      end) with
               | Some (text, is_float, rest) =>
                   Some (text, is_float, (rest ++ [c])%list)
               | None => None
               end).
  { intros sign s1. cbv beta iota. rewrite integer_snoc.
    destruct (integer s1) as [[ds rest]|]; [|reflexivity].
    rewrite fraction_snoc. destruct (fraction rest) as [hf rest1].
    cbn [fst snd]. rewrite exponent_snoc.
    destruct (exponent rest1) as [he rest2]. reflexivity. }
  destruct s as [|a r]; cbn [app].
  - rewrite H45. apply (E [] []).
  - destruct (a =? 45)%N.
    + apply (E [45%N] r).
    + apply (E [] (a :: r)).
Qed.

Lemma match_number_shorter (s text rest : str) (is_float : bool) :
  match_number s = Some (text, is_float, rest) ->
  (length rest <= length s)%nat.
Proof.
  rewrite match_number_eq.
  assert (Hexp : forall r, (length (snd (exponent r)) <= length r)%nat).
  { intros r. unfold exponent. destruct r as [|e r2]; [cbn; lia|].
    destruct ((e =? 101)%N || (e =? 69)%N); [|cbn; lia].
    destruct r2 as [|sg r3]; [cbn; lia|].
    destruct ((sg =? 45)%N || (sg =? 43)%N).
    - destruct r3 as [|d2 r4]; [cbn; lia|].
      destruct (is_digit d2); [|cbn; lia].
      pose proof (span_digits_shorter (d2 :: r4)). cbn [snd length] in *.
      lia.
    - destruct (is_digit sg); [|cbn; lia].
      pose proof (span_digits_shorter (sg :: r3)). cbn [snd length] in *.
      lia. }
  assert (Hfrac : forall r, (length (snd (fraction r)) <= length r)%nat).
  { intros r. unfold fraction. destruct r as [|p [|d1 r1]]; try (cbn; lia).
    destruct ((p =? 46)%N && is_digit d1); [|cbn; lia].
    pose proof (span_digits_shorter (d1 :: r1)). cbn [snd length] in *.
    lia. }
  assert (Hint : forall s1 ds r, integer s1 = Some (ds, r) ->
                   (length r <= length s1)%nat).
  { intros s1 ds r. unfold integer. destruct s1 as [|d r0]; [discriminate|].
    destruct (d =? 48)%N.
    - intros E. injection E as _ <-. cbn. lia.
    - destruct (is_digit d); [|discriminate].
      pose proof (span_digits_shorter r0).
      destruct (span_digits r0) as [ds0 rest0]. intros E.
      injection E as _ <-. cbn [snd length] in *. lia. }
  assert (E : forall sign s1,
             (let (sign0, s2) := (sign : str, s1) in
              match integer s2 with
              | None => None
              | Some (ds, rest) =>
                  let (has_frac, rest1) := fraction rest in
                  let (has_exp, rest2) := exponent rest1 in
                  Some ((sign0 ++ ds)%list, has_frac || has_exp, rest2)
              end) = Some (text, is_float, rest) ->
             (length rest <= length s1)%nat).
  { intros sign s1. cbv beta iota.
    destruct (integer s1) as [[ds r]|] eqn:Ei; [|discriminate].
    apply Hint in Ei. pose proof (Hfrac r) as Hf.
    destruct (fraction r) as [hf rest1]. pose proof (Hexp rest1) as He.
    destruct (exponent rest1) as [he rest2]. intros E.
    injection E as _ _ <-. cbn [snd] in *. lia. }
  destruct s as [|a r].
  - apply (E [] []).
  - destruct (a =? 45)%N.
    + intros H. apply E in H. cbn [length]. lia.
    + apply (E [] (a :: r)).
Qed.

Section Scans.
Variables scan scan' : str -> result (json * str).
Variable bound : nat.
Hypothesis scan_nil : scan [] = Raise JSONDecodeError.
Hypothesis scan'_nil : scan' [] = Raise JSONDecodeError.
Hypothesis scan_snoc :
  forall t, (length t <= bound)%nat -> extended [c] (scan t) (scan' (t ++ [c])).
Hypothesis scan_shorter :
  forall t v rest, scan t = Ok (v, rest) -> (length rest <= length t)%nat.

(** A scan after white space was skipped. *)
Lemma scan_skip_ws (r : str) :
  (length r <= bound)%nat ->
  extended [c] (scan (skip_ws r)) (scan' (skip_ws (r ++ [c]))).
Proof.
  intros Hr. rewrite skip_ws_snoc by exact Hc.
  pose proof (skip_ws_length r) as Hlen.
  destruct (skip_ws r) as [|a t] eqn:E.
  - rewrite scan_nil, scan'_nil. reflexivity.
  - apply scan_snoc. lia.
Qed.

Lemma array_values_snoc (n : nat) :
  forall (n' : nat) (acc : list json) (t : str),
    (length t <= bound)%nat -> (length t <= n)%nat ->
    (length t < n')%nat ->
    extended [c] (array_values scan n acc t)
      (array_values scan' n' acc (t ++ [c])).
Proof.
  induction n as [|n IH]; intros n' acc t Hb Hn Hn'.
  - destruct t; [|cbn [length] in Hn; lia].
    destruct n' as [|n']; [lia|]. cbn [array_values app].
    pose proof (scan_snoc [] ltac:(cbn; lia)) as H.
    rewrite scan_nil in H. cbn [extended app] in H. now rewrite H.
  - destruct n' as [|n']; [lia|]. cbn [array_values].
    pose proof (scan_snoc t Hb) as H.
    destruct (scan t) as [[value rest]|e] eqn:E; cbn [extended] in H;
      rewrite H; cbn [bind]; [|reflexivity].
    apply scan_shorter in E. rewrite skip_ws_snoc by exact Hc.
    pose proof (skip_ws_length rest) as Hlen.
    destruct (skip_ws rest) as [|a r] eqn:Erest; [reflexivity|].
    cbn [app length] in *.
    destruct (a =? 93)%N; [reflexivity|].
    destruct (a =? 44)%N; [|reflexivity].
    rewrite skip_ws_snoc by exact Hc.
    pose proof (skip_ws_length r) as Hlen'.
    destruct (skip_ws r) as [|a' r'] eqn:Er.
    + destruct n as [|n], n' as [|n']; cbn [array_values];
        rewrite ?scan_nil, ?scan'_nil; reflexivity.
    + apply IH; cbn [length] in *; lia.
Qed.

Lemma array_values_shorter (n : nat) :
  forall (acc : list json) (t : str) v rest,
    array_values scan n acc t = Ok (v, rest) ->
    (length rest <= length t)%nat.
Proof.
  induction n as [|n IH]; intros acc t v rest; cbn [array_values];
    [discriminate|].
  destruct (scan t) as [[value rest0]|e] eqn:E; cbn [bind]; [|discriminate].
  apply scan_shorter in E. pose proof (skip_ws_length rest0) as Hlen.
  destruct (skip_ws rest0) as [|a r] eqn:Erest; [discriminate|].
  cbn [length] in Hlen.
  destruct (a =? 93)%N; [intros H; injection H as _ <-; lia|].
  destruct (a =? 44)%N; [|discriminate].
  intros H. apply IH in H. pose proof (skip_ws_length r). lia.
Qed.

Lemma JSONArray_snoc (s : str) :
  (length s <= bound)%nat ->
  extended [c] (JSONArray scan s) (JSONArray scan' (s ++ [c])).
Proof.
  intros Hs. unfold JSONArray. rewrite skip_ws_snoc by exact Hc.
  pose proof (skip_ws_length s) as Hlen.
  destruct (skip_ws s) as [|a r] eqn:E; [reflexivity|].
  cbn [app]. destruct (a =? 93)%N; [reflexivity|].
  change (a :: r ++ [c])%list with ((a :: r) ++ [c])%list.
  apply array_values_snoc; rewrite ?length_app; cbn [length] in *; lia.
Qed.

Lemma JSONArray_shorter (s : str) v rest :
  JSONArray scan s = Ok (v, rest) -> (length rest <= length s)%nat.
Proof.
  unfold JSONArray. pose proof (skip_ws_length s) as Hlen.
  destruct (skip_ws s) as [|a r] eqn:E; [discriminate|].
  cbn [length] in Hlen.
  destruct (a =? 93)%N; [intros H; injection H as _ <-; lia|].
  intros H. apply array_values_shorter in H. cbn [length] in H. lia.
Qed.

Lemma object_pairs_snoc (n : nat) :
  forall (n' : nat) (acc : list (str * json)) (t : str),
    (length t <= bound)%nat -> (length t <= n)%nat ->
    (length t < n')%nat ->
    extended [c] (object_pairs scan n acc t)
      (object_pairs scan' n' acc (t ++ [c])).
Proof.
  induction n as [|n IH]; intros n' acc t Hb Hn Hn'.
  - destruct t; [|cbn [length] in Hn; lia].
    destruct n' as [|n']; [lia|]. cbn [object_pairs app].
    pose proof (scanstring_snoc (length (@nil N)) [] (le_n _)) as H.
    change (scanstring []) with (@Raise (str * str) JSONDecodeError) in H.
    cbn [extended app] in H. now rewrite H.
  - destruct n' as [|n']; [lia|]. cbn [object_pairs].
    pose proof (scanstring_snoc (length t) t (le_n _)) as H.
    destruct (scanstring t) as [[key rest]|e] eqn:E; cbn [extended] in H;
      rewrite H; cbn [bind]; [|reflexivity].
    apply (scanstring_shorter (length t)) in E; [|lia].
    rewrite skip_ws_snoc by exact Hc.
    pose proof (skip_ws_length rest) as Hlen.
    destruct (skip_ws rest) as [|a r] eqn:Erest; [reflexivity|].
    cbn [app length] in *.
    destruct (a =? 58)%N; [|reflexivity].
    pose proof (scan_skip_ws r ltac:(lia)) as Hv.
    pose proof (skip_ws_length r) as Hlen1.
    destruct (scan (skip_ws r)) as [[value rest1]|e] eqn:Ev;
      cbn [extended] in Hv; rewrite Hv; cbn [bind]; [|reflexivity].
    apply scan_shorter in Ev. rewrite skip_ws_snoc by exact Hc.
    pose proof (skip_ws_length rest1) as Hlen2.
    destruct (skip_ws rest1) as [|a1 r1] eqn:Erest1; [reflexivity|].
    cbn [app length] in *.
    destruct (a1 =? 125)%N; [reflexivity|].
    destruct (a1 =? 44)%N; [|reflexivity].
    rewrite skip_ws_snoc by exact Hc.
    pose proof (skip_ws_length r1) as Hlen3.
    destruct (skip_ws r1) as [|q r2] eqn:Er1; [reflexivity|].
    cbn [app length] in *.
    destruct (q =? 34)%N; [|reflexivity].
    apply IH; lia.
Qed.

Lemma object_pairs_shorter (n : nat) :
  forall (acc : list (str * json)) (t : str) v rest,
    object_pairs scan n acc t = Ok (v, rest) ->
    (length rest <= length t)%nat.
Proof.
  induction n as [|n IH]; intros acc t v rest; cbn [object_pairs];
    [discriminate|].
  destruct (scanstring t) as [[key rest0]|e] eqn:E; cbn [bind];
    [|discriminate].
  apply (scanstring_shorter (length t)) in E; [|lia].
  pose proof (skip_ws_length rest0) as Hlen.
  destruct (skip_ws rest0) as [|a r] eqn:Erest; [discriminate|].
  cbn [length] in Hlen.
  destruct (a =? 58)%N; [|discriminate].
  pose proof (skip_ws_length r) as Hlen1.
  destruct (scan (skip_ws r)) as [[value rest1]|e] eqn:Ev; cbn [bind];
    [|discriminate].
  apply scan_shorter in Ev. pose proof (skip_ws_length rest1) as Hlen2.
  destruct (skip_ws rest1) as [|a1 r1] eqn:Erest1; [discriminate|].
  cbn [length] in Hlen2.
  destruct (a1 =? 125)%N; [intros H; injection H as _ <-; lia|].
  destruct (a1 =? 44)%N; [|discriminate].
  pose proof (skip_ws_length r1) as Hlen3.
  destruct (skip_ws r1) as [|q r2] eqn:Er1; [discriminate|].
  cbn [length] in Hlen3.
  destruct (q =? 34)%N; [|discriminate].
  intros H. apply IH in H. lia.
Qed.

Lemma JSONObject_snoc (s : str) :
  (length s <= bound)%nat ->
  extended [c] (JSONObject scan s) (JSONObject scan' (s ++ [c])).
Proof.
  intros Hs. unfold JSONObject. rewrite skip_ws_snoc by exact Hc.
  pose proof (skip_ws_length s) as Hlen.
  destruct (skip_ws s) as [|a r] eqn:E; [reflexivity|].
  cbn [app]. destruct (a =? 125)%N; [reflexivity|].
  destruct (a =? 34)%N; [|reflexivity].
  apply object_pairs_snoc; rewrite ?length_app; cbn [length] in *; lia.
Qed.

Lemma JSONObject_shorter (s : str) v rest :
  JSONObject scan s = Ok (v, rest) -> (length rest <= length s)%nat.
Proof.
  unfold JSONObject. pose proof (skip_ws_length s) as Hlen.
  destruct (skip_ws s) as [|a r] eqn:E; [discriminate|].
  cbn [length] in Hlen.
  destruct (a =? 125)%N; [intros H; injection H as _ <-; lia|].
  destruct (a =? 34)%N; [|discriminate].
  intros H. apply object_pairs_shorter in H. lia.
Qed.
End Scans.
End Snoc.

Lemma startswith_length (p s : str) :
  startswith p s = true -> (length p <= length s)%nat.
Proof.
  revert s. induction p as [|a p IH]; intros s; [cbn; lia|].
  destruct s as [|b s]; [discriminate|]. cbn [startswith length].
  intros H. apply andb_true_iff in H. destruct H as [_ H].
  apply IH in H. lia.
Qed.

Lemma startswith_snoc (p s : str) (c : N) :
  forallb (fun a => negb (a =? c)%N) p = true ->
  startswith p (s ++ [c]) = startswith p s.
Proof.
  revert s. induction p as [|a p IH]; intros s Hp; [reflexivity|].
  cbn [forallb] in Hp. apply andb_true_iff in Hp. destruct Hp as [Ha Hp].
  destruct s as [|b s]; cbn [app startswith].
  - apply negb_true_iff in Ha. now rewrite Ha.
  - now rewrite (IH s Hp).
Qed.

Lemma skipn_snoc {A} (k : nat) (s : list A) (c : A) :
  (k <= length s)%nat -> skipn k (s ++ [c]) = (skipn k s ++ [c])%list.
Proof. intros H. rewrite skipn_app. replace (k - length s)%nat with 0%nat by lia. reflexivity. Qed.

Lemma scan_once_cons (depth : nat) (a : N) (r : str) :
  scan_once (S depth) (a :: r)
  = let s := a :: r in
    if (a =? 34)%N then '(v, rest) <- scanstring r ;; Ok (JStr v, rest)
    else if (a =? 123)%N then JSONObject (scan_once depth) r
    else if (a =? 91)%N then JSONArray (scan_once depth) r
    else if startswith (lit "null") s then Ok (JNull, skipn 4 s)
    else if startswith (lit "true") s then Ok (JBool true, skipn 4 s)
    else if startswith (lit "false") s then Ok (JBool false, skipn 5 s)
    else
      match match_number s with
      | Some (text, is_float, rest) =>
          if is_float then Raise NotModelled
          else Ok (JInt (parse_int text), rest)
      | None =>
          if startswith (lit "NaN") s
             || startswith (lit "Infinity") s
             || startswith (lit "-Infinity") s
          then Raise NotModelled
          else Raise JSONDecodeError
      end.
Proof. reflexivity. Qed.

Lemma skipn_result (k : nat) (s rest : str) (x v : json) :
  @Ok (json * str) (x, skipn k s) = Ok (v, rest) ->
  (length rest <= length s)%nat.
Proof. intros H. injection H as _ <-. rewrite length_skipn. lia. Qed.

Lemma scan_once_shorter (depth : nat) :
  forall s v rest,
    scan_once depth s = Ok (v, rest) -> (length rest <= length s)%nat.
Proof.
  induction depth as [|depth IH]; intros s v rest; [discriminate|].
  destruct s as [|a r]; [discriminate|]. rewrite scan_once_cons. cbv zeta.
  destruct (a =? 34)%N.
  { destruct (scanstring r) as [[v0 rest0]|e] eqn:E; cbn [bind];
      [|discriminate].
    apply (scanstring_shorter (length r)) in E; [|lia].
    intros H. injection H as _ <-. cbn [length]. lia. }
  destruct (a =? 123)%N.
  { intros H. apply (JSONObject_shorter _ IH) in H. cbn [length]. lia. }
  destruct (a =? 91)%N.
  { intros H. apply (JSONArray_shorter _ IH) in H. cbn [length]. lia. }
  destruct (startswith (lit "null") (a :: r)); [apply skipn_result|].
  destruct (startswith (lit "true") (a :: r)); [apply skipn_result|].
  destruct (startswith (lit "false") (a :: r)); [apply skipn_result|].
  destruct (match_number (a :: r)) as [[[text fl] rest0]|] eqn:E.
  - apply match_number_shorter in E. destruct fl; [discriminate|].
    intros H. injection H as _ <-. exact E.
  - destruct (_ || _); discriminate.
Qed.

(** The scanner reads the same value when white space follows the text,
    whatever bound on the nesting lies above the length of the text. *)
Lemma scan_once_snoc (c : N) (depth : nat) :
  is_ws c = true ->
  forall depth' s,
    (length s < depth)%nat -> (length s < depth')%nat ->
    extended [c] (scan_once depth s) (scan_once depth' (s ++ [c])).
Proof.
  intros Hc. induction depth as [|depth IH]; intros depth' s Hd Hd'; [lia|].
  destruct depth' as [|depth']; [lia|].
  destruct s as [|a r].
  - destruct (is_ws_cases c Hc) as [->|[->|[->| ->]]]; reflexivity.
  - cbn [length] in Hd, Hd'.
    assert (Hnil : forall d, (length r < d)%nat ->
                     scan_once d [] = Raise JSONDecodeError).
    { intros [|d] Hlt; [lia|reflexivity]. }
    assert (Hin : forall t, (length t <= length r)%nat ->
                    extended [c] (scan_once depth t)
                      (scan_once depth' (t ++ [c]))).
    { intros t Ht. apply IH; lia. }
    cbn [app]. rewrite !scan_once_cons. cbv zeta.
    destruct (a =? 34)%N.
    { pose proof (scanstring_snoc c Hc (length r) r (le_n _)) as H.
      destruct (scanstring r) as [[v0 rest0]|e]; cbn [extended] in H;
        rewrite H; reflexivity. }
    destruct (a =? 123)%N.
    { apply (JSONObject_snoc c Hc _ _ (length r)); auto.
      - apply Hnil; lia.
      - apply Hnil; lia.
      - apply scan_once_shorter. }
    destruct (a =? 91)%N.
    { apply (JSONArray_snoc c Hc _ _ (length r)); auto.
      - apply Hnil; lia.
      - apply Hnil; lia.
      - apply scan_once_shorter. }
    change (a :: r ++ [c])%list with ((a :: r) ++ [c])%list.
    assert (Hlit : forall p,
               In p [lit "null"; lit "true"; lit "false"; lit "NaN";
                     lit "Infinity"; lit "-Infinity"] ->
               startswith p ((a :: r) ++ [c]) = startswith p (a :: r)).
    { intros p Hp. apply startswith_snoc.
      destruct (is_ws_cases c Hc) as [->|[->|[->| ->]]];
        cbn [In] in Hp;
        repeat (destruct Hp as [<-|Hp]; [reflexivity|]); destruct Hp. }
    rewrite !Hlit by (cbn [In]; tauto).
    destruct (startswith (lit "null") (a :: r)) eqn:E1.
    { apply startswith_length in E1. cbn [extended].
      now rewrite skipn_snoc by exact E1. }
    destruct (startswith (lit "true") (a :: r)) eqn:E2.
    { apply startswith_length in E2. cbn [extended].
      now rewrite skipn_snoc by exact E2. }
    destruct (startswith (lit "false") (a :: r)) eqn:E3.
    { apply startswith_length in E3. cbn [extended].
      now rewrite skipn_snoc by exact E3. }
    rewrite (match_number_snoc c Hc).
    destruct (match_number (a :: r)) as [[[text fl] rest0]|].
    + destruct fl; reflexivity.
    + destruct (_ || _); reflexivity.
Qed.

(** [json.loads] does not mind white space at the end of the text. *)
Lemma json_loads_snoc (s : str) (c : N) :
  is_ws c = true -> json_loads (s ++ [c]) = json_loads s.
Proof.
  intros Hc. unfold json_loads.
  assert (Hbom : startswith [65279%N] (s ++ [c]) = startswith [65279%N] s).
  { apply startswith_snoc.
    destruct (is_ws_cases c Hc) as [->|[->|[->| ->]]]; reflexivity. }
  rewrite Hbom. destruct (startswith [65279%N] s); [reflexivity|].
  rewrite skip_ws_snoc by exact Hc. pose proof (skip_ws_length s) as Hlen.
  destruct (skip_ws s) as [|a t] eqn:E; [reflexivity|].
  pose proof (scan_once_snoc c (S (length s)) Hc (S (length (s ++ [c])))
                (a :: t)) as H.
  rewrite length_app in *. cbn [length] in *.
  specialize (H ltac:(lia) ltac:(lia)).
  destruct (scan_once (S (length s)) (a :: t)) as [[obj rest]|e];
    cbn [extended] in H; rewrite H; cbn [bind]; [|reflexivity].
  rewrite skip_ws_snoc by exact Hc. now destruct (skip_ws rest).
Qed.

Lemma json_loads_trailing (s w : str) :
  forallb is_ws w = true -> json_loads (s ++ w) = json_loads s.
Proof.
  revert s. induction w as [|c w IH]; intros s Hw;
    [now rewrite app_nil_r|].
  cbn [forallb] in Hw. apply andb_true_iff in Hw. destruct Hw as [Hc Hw].
  change (c :: w) with ([c] ++ w)%list. rewrite app_assoc, (IH _ Hw).
  apply json_loads_snoc, Hc.
Qed.

(** ** The two readers of JSON Lines *)

Lemma universal_newlines_chars (n : nat) :
  forall s, (length s <= n)%nat ->
    plain_line_ends s = true ->
    forallb (fun c => negb (is_linebreak c) || (c =? 10)%N)
      (universal_newlines s) = true.
Proof.
  unfold plain_line_ends.
  induction n as [|n IH]; intros s Hs Hp.
  - destruct s; [reflexivity|cbn [length] in Hs; lia].
  - destruct s as [|a r]; [reflexivity|]. cbn [length forallb] in Hs, Hp.
    apply andb_true_iff in Hp. destruct Hp as [Ha Hr].
    cbn [universal_newlines]. destruct (N.eqb_spec a 13) as [->|Ha13].
    + destruct r as [|a' r']; [reflexivity|].
      pose proof Hr as Hr'. cbn [forallb] in Hr'.
      apply andb_true_iff in Hr'. destruct Hr' as [_ Hr'].
      destruct (a' =? 10)%N; cbn [forallb].
      * apply IH; [cbn [length] in Hs; lia|exact Hr'].
      * apply IH; [lia|exact Hr].
    + cbn [forallb]. rewrite (IH r ltac:(lia) Hr), andb_true_r.
      rewrite orb_false_r in Ha. exact Ha.
Qed.

(** The lines a file gives are those that [splitlines] gives, with their
    line feeds. *)
Lemma file_lines_splitlines (content : str) :
  forallb (fun c => negb (is_linebreak c) || (c =? 10)%N) content = true ->
  Forall2 same_line (file_lines content) (splitlines content).
Proof.
  induction content as [|a r IH]; intros H; [constructor|].
  cbn [forallb] in H. apply andb_true_iff in H. destruct H as [Ha Hr].
  specialize (IH Hr). cbn [file_lines splitlines].
  destruct (N.eqb_spec a 10) as [->|Ha10].
  - change (is_linebreak 10) with true. cbv iota.
    change (10 =? 13)%N with false. cbn [andb].
    destruct r as [|a' r'].
    + constructor; [now right|constructor].
    + constructor; [now right|exact IH].
  - rewrite orb_false_r in Ha. apply negb_true_iff in Ha. rewrite Ha.
    destruct IH as [|l l' ls ls' Hl Hls].
    + constructor; [now left|constructor].
    + constructor; [|exact Hls].
      destruct Hl as [->| ->]; [now left|now right].
Qed.

Lemma mapM_same_lines (a b : list str) :
  Forall2 same_line a b -> mapM json_loads a = mapM json_loads b.
Proof.
  induction 1 as [|l l' ls ls' Hl _ IH]; [reflexivity|].
  cbn [mapM]. rewrite IH. destruct Hl as [->| ->]; [reflexivity|].
  now rewrite json_loads_snoc.
Qed.

Lemma read_gz_read_jsonl (file_path text : str) :
  endswith file_path (lit ".jsonl.gz") = true ->
  plain_line_ends text = true ->
  read_gz_file file_path text = read_jsonl_file text.
Proof.
  intros Hext Hplain. unfold read_gz_file, read_jsonl_file. rewrite Hext.
  rewrite (mapM_same_lines _ _
             (file_lines_splitlines _
                (universal_newlines_chars _ text (le_n _) Hplain))).
  reflexivity.
Qed.

(** ** The line end of the last line *)

Lemma universal_newlines_app (n : nat) :
  forall s t, (length s <= n)%nat ->
    (forall s0, s <> (s0 ++ [13%N])%list) ->
    universal_newlines (s ++ t)
    = (universal_newlines s ++ universal_newlines t)%list.
Proof.
  induction n as [|n IH]; intros s t Hs Hend.
  - destruct s; [reflexivity|cbn [length] in Hs; lia].
  - destruct s as [|a r]; [reflexivity|]. cbn [length] in Hs.
    assert (Hr : forall s0, r <> (s0 ++ [13%N])%list).
    { intros s0 E. apply (Hend (a :: s0)). now rewrite E. }
    cbn [app universal_newlines]. destruct (N.eqb_spec a 13) as [->|Ha].
    + destruct r as [|a' r'].
      * exfalso. now apply (Hend []).
      * cbn [app]. destruct (a' =? 10)%N; cbn [app]; f_equal.
        -- apply IH; [cbn [length] in Hs; lia|].
           intros s0 E. apply (Hr (a' :: s0)). now rewrite E.
        -- apply (IH (a' :: r')); [lia|exact Hr].
    + cbn [app]. f_equal. apply IH; [lia|exact Hr].
Qed.

Lemma universal_newlines_return (n : nat) :
  forall s, (length s <= n)%nat ->
    universal_newlines ((s ++ [13%N]) ++ [10%N])
    = universal_newlines (s ++ [13%N]).
Proof.
  induction n as [|n IH]; intros s Hs.
  - destruct s; [reflexivity|cbn [length] in Hs; lia].
  - destruct s as [|a r]; [reflexivity|]. cbn [length] in Hs.
    cbn [app universal_newlines]. destruct (a =? 13)%N.
    + destruct r as [|a' r']; [reflexivity|]. cbn [app].
      destruct (a' =? 10)%N; f_equal.
      * apply IH. cbn [length] in Hs. lia.
      * apply (IH (a' :: r')). lia.
    + f_equal. apply IH. lia.
Qed.

Lemma universal_newlines_last (n : nat) :
  forall s c, (length s <= n)%nat -> c <> 13%N ->
    exists u, universal_newlines (s ++ [c]) = (u ++ [c])%list.
Proof.
  induction n as [|n IH]; intros s c Hs Hc.
  - destruct s; [|cbn [length] in Hs; lia]. exists [].
    cbn [app universal_newlines]. now rewrite (proj2 (N.eqb_neq _ _) Hc).
  - destruct s as [|a r].
    + exists []. cbn [app universal_newlines].
      now rewrite (proj2 (N.eqb_neq _ _) Hc).
    + cbn [length] in Hs. cbn [app universal_newlines].
      destruct (a =? 13)%N.
      * destruct r as [|a' r']; cbn [app].
        -- destruct (N.eqb_spec c 10) as [->|Hc10].
           ++ now exists [].
           ++ exists [10%N]. cbn [universal_newlines].
              now rewrite (proj2 (N.eqb_neq _ _) Hc).
        -- destruct (a' =? 10)%N.
           ++ destruct (IH r' c ltac:(cbn [length] in Hs; lia) Hc) as [u ->].
              now exists (10%N :: u).
           ++ destruct (IH (a' :: r') c ltac:(lia) Hc) as [u Hu].
              cbn [app] in Hu. rewrite Hu. now exists (10%N :: u).
      * destruct (IH r c ltac:(lia) Hc) as [u ->]. now exists (a :: u).
Qed.

Lemma file_lines_last (u : str) (c : N) :
  c <> 10%N ->
  Forall2 same_line (file_lines ((u ++ [c]) ++ [10%N])) (file_lines (u ++ [c])).
Proof.
  intros Hc. induction u as [|a u IH]; cbn [app file_lines].
  - rewrite (proj2 (N.eqb_neq _ _) Hc). change (10 =? 10)%N with true.
    cbv iota. constructor; [now right|constructor].
  - destruct (a =? 10)%N.
    + constructor; [now left|exact IH].
    + destruct IH as [|l l' ls ls' Hl Hls].
      * constructor; [now left|constructor].
      * constructor; [|exact Hls].
        destruct Hl as [->| ->]; [now left|now right].
Qed.

Lemma read_jsonl_last_line (text : str) (c : N) :
  c <> 10%N ->
  read_jsonl_file ((text ++ [c]) ++ [10%N]) = read_jsonl_file (text ++ [c]).
Proof.
  intros Hc. unfold read_jsonl_file.
  destruct (N.eqb_spec c 13) as [->|Hc13].
  - now rewrite (universal_newlines_return _ text (le_n _)).
  - rewrite (universal_newlines_app _ (text ++ [c]) [10%N] (le_n _)).
    + destruct (universal_newlines_last _ text c (le_n _) Hc13) as [u ->].
      change (universal_newlines [10%N]) with [10%N].
      now rewrite (mapM_same_lines _ _ (file_lines_last u c Hc)).
    + intros s0 E. apply app_inj_tail in E. destruct E as [_ E]. congruence.
Qed.

(** ** More on the Aggregator *)

Lemma mapM_app_Ok {A B} (f : A -> result B) (l1 l2 : list A)
    (l1' l2' : list B) :
  mapM f l1 = Ok l1' -> mapM f l2 = Ok l2' ->
  mapM f (l1 ++ l2) = Ok (l1' ++ l2')%list.
Proof.
  rewrite !mapM_Forall2. apply Forall2_app.
Qed.

Lemma insert_records_keys (items : list json) :
  forall d d', insert_records d items = Ok d' ->
    exists ks, mapM event_key items = Ok ks.
Proof.
  induction items as [|r items IH]; intros d d'; cbn [insert_records mapM].
  - now exists [].
  - destruct (event_key r) as [k|e]; cbn [bind]; [|discriminate].
    intros H. destruct (IH _ _ H) as [ks ->]. now exists (k :: ks).
Qed.

(** A run that returns has decoded every file it reads and has found an
    event identifier in every record. *)
Lemma process_files_decoded (file_paths : list (str * str)) :
  forall d t d' t',
    process_files file_paths d t = Ok (d', t') ->
    exists rs ks, decoded_records file_paths = Ok rs /\
                  mapM event_key rs = Ok ks.
Proof.
  induction file_paths as [|[file_path text] rest IH]; intros d t d' t';
    cbn [process_files decoded_records].
  - intros _. now exists [], [].
  - destruct (decode file_path text) as [decoded|]; [|apply IH].
    destruct decoded as [records|e]; cbn [bind]; [|discriminate].
    destruct (iterate records) as [items|e]; cbn [bind]; [|discriminate].
    destruct (insert_records d items) as [d1|e] eqn:E; cbn [bind];
      [|discriminate].
    intros H. destruct (IH _ _ _ _ H) as (rs & ks & -> & Hks).
    destruct (insert_records_keys _ _ _ E) as [ks1 Hks1]. cbn [bind].
    exists (items ++ rs)%list, (ks1 ++ ks)%list.
    split; [reflexivity|]. now apply mapM_app_Ok.
Qed.

Lemma decode_recognised (file_path text : str) :
  decode file_path text = None <-> recognised (file_path, text) = false.
Proof.
  unfold decode, recognised. cbn [fst].
  destruct (endswith file_path (lit ".json")); [split; discriminate|].
  destruct (endswith file_path (lit ".jsonl")); [split; discriminate|].
  destruct (endswith file_path (lit ".gz")); [split; discriminate|].
  split; reflexivity.
Qed.

Lemma process_files_filter (file_paths : list (str * str)) :
  forall d t,
    process_files (filter recognised file_paths) d t
    = process_files file_paths d t.
Proof.
  induction file_paths as [|[file_path text] rest IH]; intros d t;
    [reflexivity|].
  cbn [filter]. destruct (recognised (file_path, text)) eqn:E.
  - cbn [process_files]. destruct (decode file_path text) as [decoded|];
      [|apply IH].
    destruct decoded as [records|e]; cbn [bind]; [|reflexivity].
    destruct (iterate records) as [items|e]; cbn [bind]; [|reflexivity].
    destruct (insert_records d items) as [d1|e]; cbn [bind]; [|reflexivity].
    apply IH.
  - cbn [process_files]. apply decode_recognised in E. rewrite E. apply IH.
Qed.

Lemma remove_length (k : pykey) (l : list pykey) :
  (length (remove pykey_eq_dec k l) <= length l)%nat /\
  (length (remove pykey_eq_dec k l) = length l -> ~ In k l).
Proof.
  induction l as [|x l [IH1 IH2]]; cbn [remove length In];
    [split; [lia|tauto]|].
  destruct (pykey_eq_dec k x) as [<-|Hne]; cbn [length].
  - split; [lia|]. intros E. lia.
  - split; [lia|]. intros E [H|H]; [congruence|]. apply IH2; [lia|exact H].
Qed.

(** The keys at their first occurrence are fewer than the keys, unless no
    key occurs twice. *)
Lemma first_occurrences_length (ks : list pykey) :
  (length (first_occurrences ks) <= length ks)%nat /\
  (length (first_occurrences ks) = length ks <-> NoDup ks).
Proof.
  induction ks as [|k ks [IH1 IH2]]; cbn [first_occurrences length].
  - split; [lia|]. split; [constructor|reflexivity].
  - destruct (remove_length k (first_occurrences ks)) as [H1 H2].
    split; [lia|]. split.
    + intros E. constructor.
      * rewrite <- first_occurrences_In. apply H2. lia.
      * apply IH2. lia.
    + intros Hnd. inversion Hnd as [|? ? Hk Hks]; subst.
      rewrite notin_remove by (now rewrite first_occurrences_In).
      f_equal. now apply IH2.
Qed.

Lemma first_occurrences_NoDup_id (ks : list pykey) :
  NoDup ks -> first_occurrences ks = ks.
Proof.
  induction 1 as [|k ks Hk _ IH]; [reflexivity|].
  cbn [first_occurrences]. rewrite IH. f_equal. now apply notin_remove.
Qed.

Lemma insert_all_fresh (kvs d : list (pykey * json)) :
  NoDup (map fst d ++ map fst kvs) ->
  insert_all pykey_eq_dec kvs d = (d ++ kvs)%list.
Proof.
  revert d. induction kvs as [|[k v] kvs IH]; intros d Hnd.
  - now rewrite app_nil_r.
  - unfold insert_all in *. cbn [fold_left fst snd map] in *.
    assert (Hk : ~ In k (map fst d)).
    { apply NoDup_remove_2 in Hnd. intros H. apply Hnd.
      apply in_or_app. now left. }
    rewrite (dict_set_new pykey_eq_dec k v d Hk), IH.
    + now rewrite <- app_assoc.
    + rewrite map_app. cbn [map fst]. now rewrite <- app_assoc.
Qed.

Section DictMore.
Context {K V : Type} (eq_dec : forall a b : K, {a = b} + {a <> b}).

Lemma dict_get_app (k : K) (a b : list (K * V)) :
  dict_get eq_dec k (a ++ b)
  = match dict_get eq_dec k a with
    | Some v => Some v
    | None => dict_get eq_dec k b
    end.
Proof.
  induction a as [|[k' v'] a IH]; cbn [app dict_get]; [reflexivity|].
  destruct (eq_dec k k'); [reflexivity|exact IH].
Qed.

Lemma dict_get_notin (k : K) (d : list (K * V)) :
  ~ In k (map fst d) -> dict_get eq_dec k d = None.
Proof.
  induction d as [|[k' v'] d IH]; cbn [map fst In dict_get]; [reflexivity|].
  intros H. destruct (eq_dec k k') as [->|_]; [tauto|]. apply IH. tauto.
Qed.

(** After the assignments [kvs], a key has the value of its last
    assignment, or the value it had. *)
Lemma insert_all_get (kvs d : list (K * V)) (k : K) :
  dict_get eq_dec k (insert_all eq_dec kvs d)
  = match dict_get eq_dec k (rev kvs) with
    | Some v => Some v
    | None => dict_get eq_dec k d
    end.
Proof.
  revert d. induction kvs as [|[k1 v1] kvs IH]; intros d; [reflexivity|].
  unfold insert_all in *. cbn [fold_left fst snd rev].
  rewrite IH, dict_get_app. destruct (dict_get eq_dec k (rev kvs));
    [reflexivity|].
  cbn [dict_get]. destruct (eq_dec k k1) as [->|Hne].
  - apply dict_get_set_same.
  - now apply dict_get_set_other.
Qed.

Lemma insert_all_NoDup (kvs d : list (K * V)) :
  NoDup (map fst d) -> NoDup (map fst (insert_all eq_dec kvs d)).
Proof.
  revert d. induction kvs as [|[k v] kvs IH]; intros d Hd; [exact Hd|].
  unfold insert_all in *. cbn [fold_left fst snd].
  apply IH, dict_set_NoDup, Hd.
Qed.

(** Dicts with the same keys, in the same order, and the same values. *)
Lemma dict_ext (d1 d2 : list (K * V)) :
  NoDup (map fst d1) -> map fst d1 = map fst d2 ->
  (forall k, dict_get eq_dec k d1 = dict_get eq_dec k d2) ->
  d1 = d2.
Proof.
  revert d2. induction d1 as [|[k v] d1 IH]; intros [|[k' v'] d2];
    cbn [map fst]; try discriminate; [reflexivity|].
  intros Hnd Hkeys Hget. injection Hkeys as <- Hkeys.
  inversion Hnd as [|? ? Hk Hnd']; subst.
  pose proof (Hget k) as Hv. cbn [dict_get] in Hv.
  destruct (eq_dec k k); [|congruence]. injection Hv as <-.
  f_equal. apply IH; [exact Hnd'|exact Hkeys|].
  intros x. specialize (Hget x). cbn [dict_get] in Hget.
  destruct (eq_dec x k) as [->|_]; [|exact Hget].
  rewrite !dict_get_notin; [reflexivity|now rewrite <- Hkeys|exact Hk].
Qed.
End DictMore.

Lemma insert_all_has_keys (kvs d : list (pykey * json)) (k : pykey) :
  In k (map fst kvs) -> In k (map fst (insert_all pykey_eq_dec kvs d)).
Proof.
  intros Hk. rewrite insert_all_keys. apply in_or_app.
  destruct (in_dec pykey_eq_dec k (map fst d)) as [Hin|Hnin]; [now left|].
  right. apply filter_In. split.
  - now apply first_occurrences_In.
  - now apply unseen_true.
Qed.

(** Doing the same assignments a second time changes nothing. *)
Lemma insert_all_twice (kvs d : list (pykey * json)) :
  NoDup (map fst d) ->
  insert_all pykey_eq_dec kvs (insert_all pykey_eq_dec kvs d)
  = insert_all pykey_eq_dec kvs d.
Proof.
  intros Hd. set (d' := insert_all pykey_eq_dec kvs d).
  apply (dict_ext pykey_eq_dec).
  - apply insert_all_NoDup, insert_all_NoDup, Hd.
  - rewrite insert_all_keys.
    assert (E : filter (unseen (map fst d'))
                  (first_occurrences (map fst kvs)) = []).
    { assert (H : forall x, In x (first_occurrences (map fst kvs)) ->
                            unseen (map fst d') x = false).
      { intros x Hx. apply (proj1 (first_occurrences_In _ _)) in Hx.
        destruct (unseen (map fst d') x) eqn:Eu; [|reflexivity].
        apply unseen_true in Eu. exfalso. apply Eu.
        apply insert_all_has_keys, Hx. }
      induction (first_occurrences (map fst kvs)) as [|x l IH];
        [reflexivity|].
      cbn [filter]. rewrite (H x (or_introl eq_refl)). apply IH.
      intros y Hy. apply H. now right. }
    rewrite E. apply app_nil_r.
  - intros k. rewrite insert_all_get. unfold d'. rewrite insert_all_get.
    destruct (dict_get pykey_eq_dec k (rev kvs)); reflexivity.
Qed.

Lemma decoded_records_app (l1 l2 : list (str * str)) (rs1 rs2 : list json) :
  decoded_records l1 = Ok rs1 -> decoded_records l2 = Ok rs2 ->
  decoded_records (l1 ++ l2) = Ok (rs1 ++ rs2)%list.
Proof.
  revert rs1. induction l1 as [|[file_path text] l1 IH]; intros rs1;
    cbn [app decoded_records].
  - intros E. injection E as <-. trivial.
  - destruct (decode file_path text) as [decoded|]; [|apply IH].
    destruct decoded as [records|e]; cbn [bind]; [|discriminate].
    destruct (iterate records) as [items|e]; cbn [bind]; [|discriminate].
    destruct (decoded_records l1) as [more|e]; cbn [bind]; [|discriminate].
    intros E H2. injection E as <-. rewrite (IH more eq_refl H2).
    cbn [bind]. now rewrite app_assoc.
Qed.

(** ** A byte order mark *)

Lemma json_loads_bom (rest : str) :
  json_loads (65279%N :: rest) = Raise JSONDecodeError.
Proof. reflexivity. Qed.

Lemma file_lines_head (a : N) (r : str) :
  a <> 10%N -> exists l ls, file_lines (a :: r) = (a :: l) :: ls.
Proof.
  intros Ha. cbn [file_lines]. rewrite (proj2 (N.eqb_neq _ _) Ha).
  destruct (file_lines r); eexists _, _; reflexivity.
Qed.

Lemma splitlines_head (a : N) (r : str) :
  is_linebreak a = false -> exists l ls, splitlines (a :: r) = (a :: l) :: ls.
Proof.
  intros Ha. cbn [splitlines]. rewrite Ha.
  destruct (splitlines r); eexists _, _; reflexivity.
Qed.

Lemma readers_bom (file_path rest : str) :
  read_json_file (65279%N :: rest) = Raise JSONDecodeError /\
  read_jsonl_file (65279%N :: rest) = Raise JSONDecodeError /\
  read_gz_file file_path (65279%N :: rest) = Raise JSONDecodeError.
Proof.
  assert (Hu : universal_newlines (65279%N :: rest)
               = 65279%N :: universal_newlines rest) by reflexivity.
  split; [|split].
  - unfold read_json_file. now rewrite Hu.
  - unfold read_jsonl_file. rewrite Hu.
    destruct (file_lines_head 65279%N (universal_newlines rest))
      as (l & ls & ->); [discriminate|].
    cbn [mapM]. now rewrite json_loads_bom.
  - unfold read_gz_file. rewrite Hu.
    destruct (endswith file_path (lit ".jsonl.gz")).
    + destruct (splitlines_head 65279%N (universal_newlines rest))
        as (l & ls & ->); [reflexivity|].
      cbn [mapM]. now rewrite json_loads_bom.
    + apply json_loads_bom.
Qed.

Lemma decode_bom (file_path rest : str) :
  decode file_path (65279%N :: rest) = None \/
  decode file_path (65279%N :: rest) = Some (Raise JSONDecodeError).
Proof.
  destruct (readers_bom file_path rest) as (Hjson & Hjsonl & Hgz).
  unfold decode. rewrite Hjson, Hjsonl, Hgz.
  destruct (endswith file_path (lit ".json")); [now right|].
  destruct (endswith file_path (lit ".jsonl")); [now right|].
  destruct (endswith file_path (lit ".gz")); [now right|now left].
Qed.

(** ** More on the event time *)

Lemma app_inj_length {A} (a a' b b' : list A) :
  length a = length a' -> (a ++ b = a' ++ b')%list -> a = a' /\ b = b'.
Proof.
  revert a'. induction a as [|x a IH]; intros [|x' a']; cbn [length app];
    try discriminate.
  - auto.
  - intros Hlen E. injection Hlen as Hlen. injection E as <- E.
    destruct (IH _ Hlen E) as [-> ->]. auto.
Qed.

(** The six fields of a valid time, as the rendering writes them. *)
Lemma plaso_time_fields (t : datetime) :
  valid_datetime t = true ->
  exists Y m d H M S,
    plaso_time t = (Y ++ [45%N] ++ m ++ [45%N] ++ d ++ [32%N] ++ H ++
                    [58%N] ++ M ++ [58%N] ++ S ++ lit "+00:00")%list /\
    length Y = 4%nat /\ length m = 2%nat /\ length d = 2%nat /\
    length H = 2%nat /\ length M = 2%nat /\ length S = 2%nat /\
    field_int Y = year t /\ field_int m = month t /\ field_int d = day t /\
    field_int H = hour t /\ field_int M = minute t /\
    field_int S = second t /\
    forallb is_ascii (plaso_time t) = true.
Proof.
  intros Hvalid.
  destruct (valid_datetime_ranges t Hvalid) as (Ry & Rm & Rd & RH & RM & RS).
  pose proof (year_ok_valid _ Ry) as Hy. unfold year_ok in Hy.
  assert (Hpad : forall alts n, field_ok alts n = true -> pad2_ok n = true ->
                   length (zero_pad 2 n) = 2%nat /\
                   field_int (zero_pad 2 n) = n /\
                   forallb is_ascii (zero_pad 2 n) = true).
  { intros alts n Hok Hp. unfold pad2_ok in Hp.
    pose proof (field_ok_digits _ _ Hok) as Hdig.
    destruct (field_ok_spelled alts n (zero_pad 2 n) Hok (or_introl eq_refl))
      as [_ Hint].
    destruct (zero_pad 2 n) as [|a [|b [|]]]; try discriminate.
    split; [reflexivity|]. split; [exact Hint|]. now apply digits_ascii. }
  destruct (Hpad _ _ (month_ok _ Rm) (pad2_ok_valid (month t) ltac:(lia)))
    as (Lm & Im & Am).
  destruct (Hpad _ _ (proj1 (day_ok _ Rd)) (pad2_ok_valid (day t) ltac:(lia)))
    as (Ld & Id & Ad).
  destruct (Hpad _ _ (hour_ok _ RH) (pad2_ok_valid (hour t) ltac:(lia)))
    as (LH & IH & AH).
  destruct (Hpad _ _ (minute_ok _ RM) (pad2_ok_valid (minute t) ltac:(lia)))
    as (LM & IM & AM).
  destruct (Hpad _ _ (second_ok _ RS) (pad2_ok_valid (second t) ltac:(lia)))
    as (LS & IS & AS).
  exists (zero_pad 4 (year t)), (zero_pad 2 (month t)),
    (zero_pad 2 (day t)), (zero_pad 2 (hour t)), (zero_pad 2 (minute t)),
    (zero_pad 2 (second t)).
  split; [reflexivity|].
  assert (HY : length (zero_pad 4 (year t)) = 4%nat /\
               field_int (zero_pad 4 (year t)) = year t /\
               forallb is_ascii (zero_pad 4 (year t)) = true).
  { destruct (zero_pad 4 (year t)) as [|a [|b [|c [|e [|]]]]];
      try discriminate.
    apply andb_true_iff in Hy. destruct Hy as [Hdig Hint].
    split; [reflexivity|]. split; [lia|]. apply digits_ascii.
    cbn [forallb]. now rewrite andb_true_r, !andb_assoc. }
  destruct HY as (LY & IY & AY).
  repeat (split; [assumption|]).
  unfold plaso_time. rewrite !forallb_app, AY, Am, Ad, AH, AM, AS.
  reflexivity.
Qed.

(** Times that are rendered alike are the same time. *)
Lemma plaso_time_inj (t t' : datetime) :
  valid_datetime t = true -> valid_datetime t' = true ->
  plaso_time t = plaso_time t' -> t = t'.
Proof.
  intros Hv Hv' E.
  destruct (plaso_time_fields t Hv)
    as (Y & m & d & H & M & S & Et & LY & Lm & Ld & LH & LM & LS &
        IY & Im & Id & IH & IM & IS & _).
  destruct (plaso_time_fields t' Hv')
    as (Y' & m' & d' & H' & M' & S' & Et' & LY' & Lm' & Ld' & LH' & LM' &
        LS' & IY' & Im' & Id' & IH' & IM' & IS' & _).
  rewrite Et, Et' in E.
  apply app_inj_length in E; [|congruence]. destruct E as [EY E].
  injection E as E.
  apply app_inj_length in E; [|congruence]. destruct E as [Em E].
  injection E as E.
  apply app_inj_length in E; [|congruence]. destruct E as [Ed E].
  injection E as E.
  apply app_inj_length in E; [|congruence]. destruct E as [EH E].
  injection E as E.
  apply app_inj_length in E; [|congruence]. destruct E as [EM E].
  injection E as E.
  apply app_inj_length in E; [|congruence]. destruct E as [ES _].
  subst. clear -IY Im Id IH IM IS IY' Im' Id' IH' IM' IS'.
  destruct t, t'. simpl in *. congruence.
Qed.

Lemma convert_event_time_Ok (s out : str) :
  convert_event_time_to_local (JStr s) = Ok out ->
  exists t, strptime s = Ok t /\ valid_datetime t = true /\
            out = plaso_time t.
Proof.
  cbn [convert_event_time_to_local].
  destruct (strptime s) as [t|e] eqn:E; cbn [bind]; [|discriminate].
  destruct (strptime_inv s t E) as [Hv _]. intros H. injection H as <-.
  exists t. split; [reflexivity|]. split; [exact Hv|]. now apply render_valid.
Qed.

(** The rendering of a time is not a text [strptime] takes. *)
Lemma strptime_plaso_time (t : datetime) :
  valid_datetime t = true -> strptime (plaso_time t) = Raise ValueError.
Proof.
  intros Hv.
  destruct (plaso_time_fields t Hv) as (_ & _ & _ & _ & _ & _ & _ & _ & _ & _ &
    _ & _ & _ & _ & _ & _ & _ & _ & _ & Hascii).
  destruct (strptime (plaso_time t)) as [t'|e] eqn:E.
  - exfalso. destruct (strptime_inv _ _ E) as [_ Hacc].
    destruct Hacc as (m & d & H & M & S & tt & zz & Es & _ & _ & _ & _ & _ &
                      _ & Hzz).
    unfold plaso_time in Es.
    change (lit "+00:00") with ([43; 48; 48; 58; 48] ++ [48])%list%N in Es.
    rewrite !app_assoc in Es. apply app_inj_tail in Es.
    destruct Es as [_ Es]. destruct Hzz; congruence.
  - unfold strptime in E. rewrite Hascii in E.
    destruct (match_format (plaso_time t)) as [[t' [|]]|]; try congruence.
    destruct (valid_datetime t'); congruence.
Qed.

(** ** More on the events *)

(** What a conversion that returns has found in the record. *)
Lemma convert_record_inv (record event : json) :
  convert_record record = Ok event ->
  exists et local id name rov ro identity akid source user resources items
         rs,
    getitem record (lit "eventTime") = Ok et /\
    convert_event_time_to_local et = Ok local /\
    getitem record (lit "eventID") = Ok id /\
    getitem record (lit "eventName") = Ok name /\
    getitem record (lit "readOnly") = Ok rov /\
    str_lower rov = Ok ro /\
    getitem record (lit "userIdentity") = Ok identity /\
    get_default identity (lit "accessKeyId") (JStr []) = Ok akid /\
    getitem record (lit "eventSource") = Ok source /\
    get_default identity (lit "userName") (JStr []) = Ok user /\
    get_default record (lit "resources") (JArr []) = Ok resources /\
    iterate resources = Ok items /\
    mapM convert_resource items = Ok rs /\
    event = JObj [(lit "EventId", id);
                  (lit "EventName", name);
                  (lit "ReadOnly", JStr ro);
                  (lit "AccessKeyId", akid);
                  (lit "EventTime", JStr local);
                  (lit "EventSource", source);
                  (lit "Username", user);
                  (lit "Resources", JArr rs);
                  (lit "CloudTrailEvent", JStr (squeeze record))].
Proof.
  unfold convert_record.
  destruct (getitem record (lit "eventTime")) as [et|] eqn:E1; cbn [bind];
    [|discriminate].
  destruct (convert_event_time_to_local et) as [local|] eqn:E2; cbn [bind];
    [|discriminate].
  destruct (getitem record (lit "eventID")) as [id|] eqn:E3; cbn [bind];
    [|discriminate].
  destruct (getitem record (lit "eventName")) as [name|] eqn:E4; cbn [bind];
    [|discriminate].
  destruct (getitem record (lit "readOnly")) as [rov|] eqn:E5; cbn [bind];
    [|discriminate].
  destruct (str_lower rov) as [ro|] eqn:E6; cbn [bind]; [|discriminate].
  destruct (getitem record (lit "userIdentity")) as [identity|] eqn:E7;
    cbn [bind]; [|discriminate].
  destruct (get_default identity (lit "accessKeyId") (JStr []))
    as [akid|] eqn:E8; cbn [bind]; [|discriminate].
  destruct (getitem record (lit "eventSource")) as [source|] eqn:E9;
    cbn [bind]; [|discriminate].
  destruct (get_default identity (lit "userName") (JStr []))
    as [user|] eqn:E10; cbn [bind]; [|discriminate].
  destruct (get_default record (lit "resources") (JArr []))
    as [resources|] eqn:E11; cbn [bind]; [|discriminate].
  destruct (iterate resources) as [items|] eqn:E12; cbn [bind];
    [|discriminate].
  destruct (mapM convert_resource items) as [rs|] eqn:E13; cbn [bind];
    [|discriminate].
  intros H. injection H as <-.
  exists et, local, id, name, rov, ro, identity, akid, source, user,
    resources, items, rs.
  repeat (split; [first [reflexivity|assumption]|]). reflexivity.
Qed.

Lemma getitem_Ok (obj : json) (key : str) (v : json) :
  getitem obj key = Ok v -> exists d, obj = JObj d /\ jget key d = Some v.
Proof.
  destruct obj as [| | | | |d]; cbn [getitem]; try discriminate.
  destruct (jget key d) as [x|] eqn:E; [|discriminate].
  intros H. injection H as <-. now exists d.
Qed.

Lemma get_default_Ok (obj : json) (key : str) (default v : json) :
  get_default obj key default = Ok v -> exists d, obj = JObj d.
Proof.
  destruct obj; cbn [get_default]; try discriminate. intros _. now eexists.
Qed.

Lemma convert_event_time_length (et : json) (local : str) :
  convert_event_time_to_local et = Ok local ->
  (exists s, et = JStr s) /\ length local = 25%nat.
Proof.
  destruct et as [| | |s| |]; try discriminate. intros H.
  split; [now exists s|].
  destruct (convert_event_time_Ok s local H) as (t & _ & Hv & ->).
  destruct (plaso_time_fields t Hv)
    as (Y & m & d & H' & M & S & -> & LY & Lm & Ld & LH & LM & LS & _).
  rewrite !length_app, LY, Lm, Ld, LH, LM, LS. reflexivity.
Qed.

Lemma dict_get_None_notin {K V} (eq_dec : forall a b : K, {a = b} + {a <> b})
    (k : K) (d : list (K * V)) :
  dict_get eq_dec k d = None -> ~ In k (map fst d).
Proof.
  induction d as [|[k' v'] d IH]; cbn [dict_get map fst In]; [tauto|].
  destruct (eq_dec k k') as [->|Hne]; [discriminate|].
  intros H [E|Hin]; [congruence|]. now apply IH.
Qed.

Lemma getitem_app (d d' : list (str * json)) (key : str) (v : json) :
  getitem (JObj d) key = Ok v -> getitem (JObj (d ++ d')) key = Ok v.
Proof.
  cbn [getitem]. unfold jget. rewrite dict_get_app.
  destruct (dict_get str_eq_dec key d); [trivial|discriminate].
Qed.

(** A record that is converted is not converted any more once it has a
    [resources] that cannot be iterated over. *)
Lemma convert_record_resources (fields : list (str * json))
    (event v : json) (e : exn) :
  jget (lit "resources") fields = None ->
  convert_record (JObj fields) = Ok event ->
  iterate v = Raise e ->
  convert_record (JObj (jset (lit "resources") v fields)) = Raise e.
Proof.
  intros Hnone Hconv Hiter. unfold jget in Hnone. unfold jset.
  rewrite (dict_set_new str_eq_dec _ _ _
             (dict_get_None_notin str_eq_dec _ _ Hnone)).
  destruct (convert_record_inv _ _ Hconv)
    as (et & local & id & name & rov & ro & identity & akid & source & user
        & resources & items & rs & E1 & E2 & E3 & E4 & E5 & E6 & E7 & E8 &
        E9 & E10 & _).
  unfold convert_record.
  rewrite (getitem_app _ _ _ _ E1). cbn [bind]. rewrite E2. cbn [bind].
  rewrite (getitem_app _ _ _ _ E3). cbn [bind].
  rewrite (getitem_app _ _ _ _ E4). cbn [bind].
  rewrite (getitem_app _ _ _ _ E5). cbn [bind]. rewrite E6. cbn [bind].
  rewrite (getitem_app _ _ _ _ E7). cbn [bind]. rewrite E8. cbn [bind].
  rewrite (getitem_app _ _ _ _ E9). cbn [bind]. rewrite E10. cbn [bind].
  cbn [get_default]. unfold jget. rewrite dict_get_app, Hnone.
  cbn [dict_get]. destruct (str_eq_dec (lit "resources") (lit "resources"));
    [|congruence].
  cbn [bind]. rewrite Hiter. reflexivity.
Qed.

(** ** The run *)

Lemma read_returned (file_paths : list (str * str)) (a : aggregate) :
  read_files_from_directory file_paths = Ok a ->
  returned a = JObj [(Records_key, JArr (Records a))] /\
  unique_records a = Z.of_nat (length (Records a)) /\
  duplicates_removed a = (total_records a - unique_records a)%Z /\
  exists rs ks,
    decoded_records file_paths = Ok rs /\ mapM event_key rs = Ok ks /\
    Records a = dict_values (insert_all pykey_eq_dec (combine ks rs) []) /\
    total_records a = Z.of_nat (length rs).
Proof.
  intros Hread. pose proof Hread as H. unfold read_files_from_directory in H.
  destruct (process_files file_paths [] 0) as [[d t]|e] eqn:E;
    cbn [bind] in H; [|discriminate].
  destruct (process_files_decoded _ _ _ _ _ E) as (rs & ks & Hrs & Hks).
  destruct (process_files_records _ _ _ Hrs Hks)
    as (a' & Ha' & Hrec & Hret & Htot & Huni & Hdup).
  rewrite Hread in Ha'. injection Ha' as <-.
  split; [exact Hret|]. split; [exact Huni|]. split; [exact Hdup|].
  exists rs, ks. auto.
Qed.

Lemma convert_returned (records : list json) :
  convert_cloudtrail_to_plaso (JObj [(Records_key, JArr records)])
  = mapM convert_record records.
Proof. reflexivity. Qed.

Lemma main_steps (input_files : list (str * str)) (output_filepath : str)
    (fs : filesystem) :
  main input_files output_filepath fs
  = match read_files_from_directory input_files with
    | Raise e => (Raise e, fs)
    | Ok a =>
        match mapM convert_record (Records a) with
        | Raise e => (Raise e, fs)
        | Ok events => write_events_to_jsonl events output_filepath fs
        end
    end.
Proof.
  unfold main, io_bind, lift.
  destruct (read_files_from_directory input_files) as [a|e] eqn:E;
    cbn [bind]; [|reflexivity].
  destruct (read_returned _ _ E) as (-> & _). now rewrite convert_returned.
Qed.

(** ** Plain records give plain events *)

Lemma ascii_plain (s : str) :
  forallb is_ascii s = true -> forallb plain_char s = true.
Proof.
  rewrite !forallb_forall. intros H c Hc. specialize (H c Hc).
  unfold is_ascii in H. apply N.ltb_lt in H. unfold plain_char.
  apply andb_true_iff. split; [apply N.ltb_lt; lia|].
  apply negb_true_iff. unfold is_high_surrogate.
  apply andb_false_iff. left. apply N.leb_gt. lia.
Qed.

Lemma printable_ascii (s : str) :
  forallb printable s = true -> forallb is_ascii s = true.
Proof.
  rewrite !forallb_forall. intros H c Hc. specialize (H c Hc).
  unfold printable in H. apply andb_true_iff in H. destruct H as [_ H].
  apply N.leb_le in H. apply N.ltb_lt. lia.
Qed.

Lemma plain_jget (d : list (str * json)) (key : str) (v : json) :
  plain_value (JObj d) = true -> jget key d = Some v -> plain_value v = true.
Proof.
  cbn [plain_value]. intros H. apply andb_true_iff in H.
  destruct H as [_ H]. unfold jget.
  induction d as [|[k x] d IH]; cbn [dict_get]; [discriminate|].
  cbn [forallb fst snd] in H. apply andb_true_iff in H.
  destruct H as [Hkx Hd]. apply andb_true_iff in Hkx.
  destruct (str_eq_dec key k); [|now apply IH].
  intros E. injection E as <-. apply Hkx.
Qed.

Lemma plain_getitem (obj : json) (key : str) (v : json) :
  plain_value obj = true -> getitem obj key = Ok v -> plain_value v = true.
Proof.
  intros Hobj H. destruct (getitem_Ok _ _ _ H) as (d & -> & Hd).
  exact (plain_jget d key v Hobj Hd).
Qed.

Lemma plain_get_default (obj : json) (key : str) (default v : json) :
  plain_value obj = true -> plain_value default = true ->
  get_default obj key default = Ok v -> plain_value v = true.
Proof.
  intros Hobj Hdef. destruct obj as [| | | | |d]; cbn [get_default];
    try discriminate.
  destruct (jget key d) as [x|] eqn:E; intros H; injection H as <-.
  - exact (plain_jget d key x Hobj E).
  - exact Hdef.
Qed.

Lemma plain_iterate (obj : json) (items : list json) :
  plain_value obj = true -> iterate obj = Ok items ->
  forallb plain_value items = true.
Proof.
  destruct obj as [| | |s|l|d]; cbn [iterate plain_value]; try discriminate;
    intros Hobj H; injection H as <-.
  - rewrite forallb_forall in *. intros x Hx.
    apply in_map_iff in Hx. destruct Hx as (c & <- & Hc).
    cbn [plain_value forallb]. now rewrite (Hobj c Hc).
  - exact Hobj.
  - apply andb_true_iff in Hobj. destruct Hobj as [_ Hobj].
    rewrite forallb_forall in *. intros x Hx.
    apply in_map_iff in Hx. destruct Hx as ([k v] & <- & Hkv).
    specialize (Hobj _ Hkv). cbn [fst snd plain_value] in *.
    apply andb_true_iff in Hobj. apply Hobj.
Qed.

Lemma plain_str_lower (v : json) (s : str) :
  plain_value v = true -> str_lower v = Ok s -> forallb plain_char s = true.
Proof.
  intros _. destruct v as [|[|]|z|t| |]; cbn [str_lower]; try discriminate.
  - intros H. injection H as <-. reflexivity.
  - intros H. injection H as <-. reflexivity.
  - intros H. injection H as <-. reflexivity.
  - intros H. injection H as <-.
    apply ascii_plain, printable_ascii, repr_int_printable.
  - destruct (forallb is_ascii t) eqn:E; [|discriminate].
    intros H. injection H as <-. apply ascii_plain.
    rewrite forallb_forall in *. intros c Hc.
    apply in_map_iff in Hc. destruct Hc as (x & <- & Hx).
    specialize (E x Hx). unfold is_ascii, ascii_lower, between in *.
    apply N.ltb_lt in E. apply N.ltb_lt.
    destruct ((65 <=? x)%N && (x <=? 90)%N) eqn:Ex; [|exact E].
    apply andb_true_iff in Ex. destruct Ex as [_ Ex]. apply N.leb_le in Ex.
    lia.
Qed.

Lemma plain_convert_resource (resource out : json) :
  plain_value resource = true -> convert_resource resource = Ok out ->
  plain_value out = true.
Proof.
  intros Hres. unfold convert_resource.
  destruct (get_default resource (lit "type") Unknown) as [ty|] eqn:E1;
    cbn [bind]; [|discriminate].
  destruct (get_default resource (lit "ARN") Unknown) as [arn|] eqn:E2;
    cbn [bind]; [|discriminate].
  intros H. injection H as <-.
  apply (plain_get_default _ _ Unknown _ Hres eq_refl) in E1, E2.
  cbn [plain_value map fst snd forallb]. rewrite E1, E2. reflexivity.
Qed.

Lemma plain_mapM {A} (f : A -> result json) (P : A -> bool)
    (l : list A) (l' : list json) :
  (forall a b, P a = true -> f a = Ok b -> plain_value b = true) ->
  forallb P l = true -> mapM f l = Ok l' -> forallb plain_value l' = true.
Proof.
  intros Hf Hl H. apply mapM_Forall2 in H.
  induction H as [|a b l l' Hab _ IH]; [reflexivity|].
  cbn [forallb] in *. apply andb_true_iff in Hl. destruct Hl as [Ha Hl].
  now rewrite (Hf a b Ha Hab), (IH Hl).
Qed.

Lemma squeeze_printable (record : json) :
  forallb printable (squeeze record) = true.
Proof.
  rewrite squeeze_without_whitespace. unfold without_whitespace.
  pose proof (json_dumps_printable record) as H.
  rewrite forallb_forall in *. intros c Hc. apply filter_In in Hc.
  apply H, Hc.
Qed.

(** The event of a plain record is plain. *)
Lemma plain_convert_record (record event : json) :
  plain_value record = true -> convert_record record = Ok event ->
  plain_value event = true.
Proof.
  intros Hrec Hconv.
  destruct (convert_record_inv _ _ Hconv)
    as (et & local & id & name & rov & ro & identity & akid & source & user
        & resources & items & rs & E1 & E2 & E3 & E4 & E5 & E6 & E7 & E8 &
        E9 & E10 & E11 & E12 & E13 & ->).
  pose proof (plain_getitem _ _ _ Hrec E3) as Pid.
  pose proof (plain_getitem _ _ _ Hrec E4) as Pname.
  pose proof (plain_str_lower _ _ (plain_getitem _ _ _ Hrec E5) E6) as Pro.
  pose proof (plain_getitem _ _ _ Hrec E7) as Pidentity.
  pose proof (plain_get_default _ _ (JStr []) _ Pidentity eq_refl E8)
    as Pakid.
  pose proof (plain_getitem _ _ _ Hrec E9) as Psource.
  pose proof (plain_get_default _ _ (JStr []) _ Pidentity eq_refl E10)
    as Puser.
  pose proof (plain_get_default _ _ (JArr []) _ Hrec eq_refl E11)
    as Presources.
  pose proof (plain_iterate _ _ Presources E12) as Pitems.
  pose proof (plain_mapM _ _ _ _ plain_convert_resource Pitems E13) as Prs.
  assert (Plocal : forallb plain_char local = true).
  { destruct (convert_event_time_length _ _ E2) as [[s ->] _].
    destruct (convert_event_time_Ok _ _ E2) as (t & _ & Hv & ->).
    apply ascii_plain.
    now destruct (plaso_time_fields t Hv)
      as (_ & _ & _ & _ & _ & _ & _ & _ & _ & _ & _ & _ & _ & _ & _ & _ & _ &
          _ & _ & H). }
  assert (Psq : forallb plain_char (squeeze record) = true)
    by apply ascii_plain, printable_ascii, squeeze_printable.
  cbn [plain_value map fst snd forallb].
  rewrite Pid, Pname, Pro, Pakid, Plocal, Psource, Puser, Prs, Psq.
  reflexivity.
Qed.

(** ** All the parts *)

Lemma chunks_concat {A} (c : nat) (m : nat) :
  forall l : list A,
    (0 < c)%nat -> (length l <= m * c)%nat ->
    concat (map (fun k => firstn c (skipn ((k - 1) * c) l)) (seq 1 m)) = l.
Proof.
  induction m as [|m IH]; intros l Hc Hl.
  - destruct l; [reflexivity|cbn [length] in Hl; lia].
  - cbn [seq map concat]. rewrite <- seq_shift, map_map.
    replace ((1 - 1) * c)%nat with 0%nat by lia. cbn [skipn].
    transitivity (firstn c l ++ skipn c l)%list; [|apply firstn_skipn].
    f_equal.
    transitivity (concat (map (fun k => firstn c (skipn ((k - 1) * c)
                                                    (skipn c l)))
                            (seq 1 m)));
      [|apply IH; [exact Hc|rewrite length_skipn; lia]].
    f_equal. apply map_ext_in. intros k Hk. apply in_seq in Hk.
    rewrite skipn_skipn. do 2 f_equal. nia.
Qed.

Lemma part_count_spec (c n : nat) :
  (0 < c)%nat ->
  let m := match n with O => O | S n' => S (n' / c) end in
  (n <= m * c)%nat /\
  forall k, ((1 <= k)%nat /\ ((k - 1) * c < n)%nat) <-> (1 <= k <= m)%nat.
Proof.
  intros Hc. destruct n as [|n']; cbv zeta.
  - split; [lia|]. intros k. lia.
  - pose proof (Nat.div_mod_eq n' c) as Hdm.
    pose proof (Nat.mod_upper_bound n' c ltac:(lia)) as Hmod.
    set (q := (n' / c)%nat) in *. set (r := (n' mod c)%nat) in *.
    split; [nia|]. intros k. split.
    + intros [H1 H2]. split; [exact H1|].
      destruct (Nat.le_gt_cases k (S q)) as [H|H]; [exact H|]. exfalso.
      assert ((S q) * c <= (k - 1) * c)%nat by (apply Nat.mul_le_mono_r; lia).
      nia.
    + intros [H1 H2]. split; [exact H1|].
      assert ((k - 1) * c <= q * c)%nat by (apply Nat.mul_le_mono_r; lia).
      nia.
Qed.

Lemma lines_of_concat (parts : list (list json)) :
  concat (map lines_of parts) = lines_of (concat parts).
Proof.
  unfold lines_of. induction parts as [|p parts IH]; [reflexivity|].
  cbn [map concat]. now rewrite flat_map_app, IH.
Qed.

(** The parts, one after the other, are the list of the events. *)
Lemma parts_concat (events : list json) :
  (forall k, part_exists (length events) k
             <-> (1 <= k <= part_count (length events))%nat) /\
  concat (map (fun k => lines_of (part_events events k))
            (seq 1 (part_count (length events))))
  = lines_of events.
Proof.
  unfold part_exists, part_events, part_count.
  pose proof chunk_size_pos as Hpos. revert Hpos.
  generalize chunk_size. intros c Hc.
  destruct (part_count_spec c (length events) Hc) as [Hlen Hk].
  split; [exact Hk|].
  rewrite <- (map_map (fun k => firstn c (skipn ((k - 1) * c) events))
                lines_of).
  rewrite lines_of_concat. f_equal. now apply chunks_concat.
Qed.

Lemma universal_newlines_ws (n : nat) :
  forall text w, (length text <= n)%nat -> forallb is_ws w = true ->
    exists w', forallb is_ws w' = true /\
               universal_newlines (text ++ w)
               = (universal_newlines text ++ w')%list.
Proof.
  assert (Hw : forall m w, (length w <= m)%nat -> forallb is_ws w = true ->
                 forallb is_ws (universal_newlines w) = true).
  { induction m as [|m IH]; intros w Hlen Hws.
    - destruct w; [reflexivity|cbn [length] in Hlen; lia].
    - destruct w as [|a r]; [reflexivity|]. cbn [length forallb] in Hlen, Hws.
      apply andb_true_iff in Hws. destruct Hws as [Ha Hr].
      cbn [universal_newlines]. destruct (a =? 13)%N.
      + destruct r as [|a' r']; [reflexivity|].
        destruct (a' =? 10)%N; cbn [forallb].
        * apply IH; [cbn [length] in Hlen; lia|].
          cbn [forallb] in Hr. apply andb_true_iff in Hr. apply Hr.
        * apply IH; [lia|exact Hr].
      + cbn [forallb]. rewrite Ha. apply IH; [lia|exact Hr]. }
  induction n as [|n IH]; intros text w Hlen Hws.
  - destruct text; [|cbn [length] in Hlen; lia].
    exists (universal_newlines w). split; [|reflexivity].
    now apply (Hw (length w)).
  - destruct text as [|a r].
    + exists (universal_newlines w). split; [|reflexivity].
      now apply (Hw (length w)).
    + cbn [length] in Hlen. cbn [app universal_newlines].
      destruct (a =? 13)%N.
      * destruct r as [|a' r']; cbn [app].
        -- destruct w as [|c w0]; [now exists []|].
           destruct (c =? 10)%N.
           ++ exists (universal_newlines w0). split; [|reflexivity].
              apply (Hw (length w0)); [lia|]. cbn [forallb] in Hws.
              apply andb_true_iff in Hws. apply Hws.
           ++ exists (universal_newlines (c :: w0)). split; [|reflexivity].
              now apply (Hw (length (c :: w0))).
        -- destruct (a' =? 10)%N.
           ++ destruct (IH r' w ltac:(cbn [length] in Hlen; lia) Hws)
                as (w' & Hw' & ->).
              now exists w'.
           ++ destruct (IH (a' :: r') w ltac:(lia) Hws) as (w' & Hw' & E).
              cbn [app] in E. rewrite E. now exists w'.
      * destruct (IH r w ltac:(lia) Hws) as (w' & Hw' & ->). now exists w'.
Qed.

Lemma in_firstn {A} (n : nat) (l : list A) (x : A) :
  In x (firstn n l) -> In x l.
Proof.
  intros H. rewrite <- (firstn_skipn n l). apply in_or_app. now left.
Qed.

Lemma in_skipn {A} (n : nat) (l : list A) (x : A) :
  In x (skipn n l) -> In x l.
Proof.
  intros H. rewrite <- (firstn_skipn n l). apply in_or_app. now right.
Qed.

(* ================================================================= *)
(** * Further properties of the code *)

(** X1. What the Writer writes, the JSON Lines reader reads back: for
    events whose texts are characters of Python without a high surrogate,
    the single output file decodes, with [read_jsonl_file], to the dict
    whose [Records] are the events, in their order; with more than 500000
    events every part decodes to the events of its run. *)
Theorem written_files_read_back :
  forall (events : list json) (output_filepath : str) (fs : filesystem)
         (nd : node),
    forallb plain_value events = true ->
    no_slash output_filepath = false ->
    resolve (dirname output_filepath) = Ok nd ->
    no_file_on fs nd ->
    ((1 <= length events <= chunk_size)%nat ->
     forall np,
       resolve output_filepath = Ok np -> np <> nd ->
       is_dir fs np = false -> endswith output_filepath [slash] = false ->
       exists fs' text,
         write_events_to_jsonl events output_filepath fs = (Ok tt, fs') /\
         file_at fs' output_filepath = Some text /\
         read_jsonl_file text = Ok (JObj [(Records_key, JArr events)])) /\
    ((chunk_size < length events)%nat ->
     (forall k q, part_exists (length events) k ->
                  resolve (part_path output_filepath (Z.of_nat k)) = Ok q ->
                  is_dir fs q = false) ->
     exists fs',
       write_events_to_jsonl events output_filepath fs = (Ok tt, fs') /\
       forall k, part_exists (length events) k ->
         exists text,
           file_at fs' (part_path output_filepath (Z.of_nat k)) = Some text /\
           read_jsonl_file text
           = Ok (JObj [(Records_key, JArr (part_events events k))])).
Proof.
  intros events p fs nd Hplain Hslash Hnd Hnf. split.
  - intros Hn np Hnp Hne Hdir Hend.
    destruct (writer_single_file events p fs nd np Hslash Hnd Hnf Hn Hnp Hne
                Hdir Hend) as (fs' & Hrun & Hfile & _).
    exists fs', (lines_of events). split; [exact Hrun|].
    split; [exact Hfile|]. now apply read_lines_of.
  - intros Hn Hdir.
    destruct (writer_parts events p fs nd Hslash Hnd Hnf Hn Hdir)
      as (fs' & Hrun & Hparts & _).
    exists fs'. split; [exact Hrun|]. intros k Hk.
    exists (lines_of (part_events events k)). split; [now apply Hparts|].
    apply read_lines_of. unfold part_events.
    rewrite forallb_forall in *. intros x Hx. apply Hplain.
    apply in_firstn in Hx. now apply in_skipn in Hx.
Qed.

Lemma written_files_read_back_witness :
  exists fs' text,
    write_events_to_jsonl ten_events (lit "out/events.jsonl") empty_fs
    = (Ok tt, fs') /\
    file_at fs' (lit "out/events.jsonl") = Some text /\
    read_jsonl_file text = Ok (JObj [(Records_key, JArr ten_events)]).
Proof.
  destruct (written_files_read_back ten_events (lit "out/events.jsonl")
              empty_fs [lit "out"]) as [Hsingle _].
  - vm_compute. reflexivity.
  - reflexivity.
  - reflexivity.
  - intros q _. reflexivity.
  - apply (Hsingle) with (np := [lit "out"; lit "events.jsonl"]).
    + change (length ten_events) with 10%nat.
      pose proof chunk_size_Z. lia.
    + reflexivity.
    + discriminate.
    + reflexivity.
    + reflexivity.
Defined.

(** X2. [CloudTrailEvent] is a JSON text still: [json.loads] reads it as the
    record without the spaces of its texts and keys, provided these are
    characters of Python without a high surrogate and the keys of each dict
    stay different from one another without their spaces.  A record with no
    space in its texts is read back as it is. *)
Theorem cloudtrail_event_decodes :
  forall record event : json,
    convert_record record = Ok event ->
    plain_value (without_spaces record) = true ->
    exists text,
      getitem event (lit "CloudTrailEvent") = Ok (JStr text) /\
      json_loads text = Ok (without_spaces record) /\
      (without_spaces record = record -> json_loads text = Ok record).
Proof.
  intros record event Hconv Hplain.
  destruct (convert_record_inv _ _ Hconv)
    as (et & local & id & name & rov & ro & identity & akid & source & user
        & resources & items & rs & _ & _ & _ & _ & _ & _ & _ & _ & _ & _ & _
        & _ & _ & ->).
  exists (squeeze record). split; [reflexivity|].
  pose proof (json_loads_squeeze record Hplain) as H.
  split; [exact H|]. intros E. now rewrite E in H.
Qed.

Lemma cloudtrail_event_decodes_witness :
  exists event text,
    convert_record (JObj fields_with_space) = Ok event /\
    getitem event (lit "CloudTrailEvent") = Ok (JStr text) /\
    json_loads text = Ok (without_spaces (JObj fields_with_space)) /\
    jget (lit "userAgent") fields_with_space = Some (JStr (lit "aws cli")) /\
    getitem (without_spaces (JObj fields_with_space)) (lit "userAgent")
    = Ok (JStr (lit "awscli")).
Proof.
  destruct (convert_record (JObj fields_with_space)) as [event|e] eqn:E;
    [|vm_compute in E; discriminate].
  destruct (cloudtrail_event_decodes (JObj fields_with_space) event E)
    as (text & Htext & Hloads & _); [vm_compute; reflexivity|].
  exists event, text. repeat split; try assumption; vm_compute; reflexivity.
Defined.

(** X3. With [ensure_ascii], every character of the text [json.dumps]
    gives is printable ASCII: so are the characters of [CloudTrailEvent],
    none of which is a space, and the lines of an output file hold
    printable ASCII and the line feed that ends each of them. *)
Theorem output_is_ascii :
  (forall j : json, forallb printable (json_dumps j) = true) /\
  (forall record : json,
      forallb (fun c => printable c && negb (c =? 32)%N) (squeeze record)
      = true) /\
  (forall events : list json,
      forallb (fun c => printable c || (c =? 10)%N) (lines_of events) = true).
Proof.
  split; [exact json_dumps_printable|]. split.
  - intros record. pose proof (squeeze_printable record) as H.
    rewrite forallb_forall in *. intros c Hc. rewrite (H c Hc).
    rewrite squeeze_without_whitespace in Hc. apply filter_In in Hc.
    destruct Hc as [_ Hc]. apply negb_true_iff in Hc.
    apply orb_false_iff in Hc. destruct Hc as [_ Hc]. now rewrite Hc.
  - intros events. unfold lines_of.
    induction events as [|event events IH]; [reflexivity|].
    cbn [flat_map]. rewrite !forallb_app, IH, andb_true_r. cbn [forallb].
    rewrite andb_true_r. pose proof (json_dumps_printable event) as H.
    rewrite forallb_forall in *. intros c Hc. now rewrite (H c Hc).
Qed.

(** X4. White space after the value does not count: [json.loads] gives the
    same outcome for a text and for the text followed by spaces, tabs, line
    feeds and carriage returns, and so does the reader of a [.json] file. *)
Theorem trailing_white_space_is_ignored :
  forall text w : str,
    forallb is_ws w = true ->
    json_loads (text ++ w) = json_loads text /\
    read_json_file (text ++ w) = read_json_file text.
Proof.
  intros text w Hw. split; [now apply json_loads_trailing|].
  unfold read_json_file.
  destruct (universal_newlines_ws _ text w (le_n _) Hw) as (w' & Hw' & ->).
  now apply json_loads_trailing.
Qed.

Lemma trailing_white_space_is_ignored_witness :
  json_loads (record_b ++ lit "  ") = json_loads record_b /\
  read_json_file (record_b ++ lit "  ") = read_json_file record_b.
Proof.
  apply (trailing_white_space_is_ignored record_b (lit "  ")). reflexivity.
Defined.

(** X5. The two readers of JSON Lines agree on every text whose line
    boundaries, for [str.splitlines], are line feeds and carriage returns
    only: read as a [.jsonl.gz] file, such a text gives what it gives as a
    [.jsonl] file, the records or the failure. *)
Theorem gzip_jsonl_agree :
  forall file_path text : str,
    endswith file_path (lit ".jsonl.gz") = true ->
    plain_line_ends text = true ->
    read_gz_file file_path text = read_jsonl_file text.
Proof. exact read_gz_read_jsonl. Qed.

Lemma gzip_jsonl_agree_witness :
  read_gz_file (lit "logs/trail.jsonl.gz") (text_of_lines [record_a; record_b])
  = read_jsonl_file (text_of_lines [record_a; record_b]).
Proof.
  apply gzip_jsonl_agree; vm_compute; reflexivity.
Defined.

(** X6. The line end of the last line of a [.jsonl] file is optional: a
    text that does not end with a line feed is read as the text with a line
    feed after it. *)
Theorem last_line_end_is_optional :
  forall (text : str) (c : N),
    c <> 10%N ->
    read_jsonl_file ((text ++ [c]) ++ [10%N]) = read_jsonl_file (text ++ [c]).
Proof. exact read_jsonl_last_line. Qed.

Lemma last_line_end_is_optional_witness :
  read_jsonl_file ((jtext "{'eventID': 'a'" ++ [125%N]) ++ [10%N])
  = read_jsonl_file (jtext "{'eventID': 'a'" ++ [125%N]).
Proof.
  apply last_line_end_is_optional. discriminate.
Defined.

(** X7. The run of the Aggregator returns exactly when every file with one
    of the three extensions decodes to records and every record has an
    event identifier that can be a key: no file and no record is passed
    over in silence, and the first failure ends the run. *)
Theorem aggregation_returns_iff :
  forall file_paths : list (str * str),
    (exists a, read_files_from_directory file_paths = Ok a) <->
    (exists rs ks, decoded_records file_paths = Ok rs /\
                   mapM event_key rs = Ok ks).
Proof.
  intros file_paths. split.
  - intros [a Ha]. destruct (read_returned _ _ Ha)
      as (_ & _ & _ & rs & ks & Hrs & Hks & _).
    now exists rs, ks.
  - intros (rs & ks & Hrs & Hks).
    destruct (process_files_records _ _ _ Hrs Hks) as (a & Ha & _).
    now exists a.
Qed.

(** X8. The files without one of the three extensions do not count: the
    run gives the same outcome, records and counters or failure, without
    them, whatever they hold. *)
Theorem other_files_are_skipped :
  forall file_paths : list (str * str),
    read_files_from_directory (filter recognised file_paths)
    = read_files_from_directory file_paths.
Proof.
  intros file_paths. unfold read_files_from_directory.
  now rewrite process_files_filter.
Qed.

(** X9. The counters of a run that returns: [duplicates_removed] is never
    negative, and it is 0 exactly when no event identifier occurs twice
    among the decoded records; the returned records are then the decoded
    records, all of them, in their order. *)
Theorem duplicates_counter :
  forall (file_paths : list (str * str)) (rs : list json) (ks : list pykey)
         (a : aggregate),
    decoded_records file_paths = Ok rs ->
    mapM event_key rs = Ok ks ->
    read_files_from_directory file_paths = Ok a ->
    (0 <= duplicates_removed a)%Z /\
    (unique_records a <= total_records a)%Z /\
    (duplicates_removed a = 0%Z <-> NoDup ks) /\
    (NoDup ks -> Records a = rs).
Proof.
  intros file_paths rs ks a Hrs Hks Ha.
  destruct (process_files_records _ _ _ Hrs Hks)
    as (a' & Ha' & Hrec & _ & Htot & Huni & Hdup).
  rewrite Ha in Ha'. injection Ha' as <-.
  destruct (index_of_records rs ks Hks) as (Hkeys & _).
  cbv zeta in Hkeys.
  assert (Hlen : length (Records a) = length (first_occurrences ks)).
  { rewrite Hrec. unfold dict_values. rewrite length_map.
    now rewrite <- Hkeys, length_map. }
  destruct (first_occurrences_length ks) as [Hle Hiff].
  pose proof (mapM_length _ _ _ Hks) as Hks_len.
  rewrite Hdup, Huni, Htot, Hlen.
  split; [lia|]. split; [lia|]. split.
  - rewrite <- Hiff. lia.
  - intros Hnd. rewrite Hrec.
    destruct (combine_keys _ _ _ Hks) as (Hfst & Hsnd & _).
    rewrite insert_all_fresh.
    + exact Hsnd.
    + cbn [map app]. now rewrite Hfst.
Qed.

Lemma duplicates_counter_witness :
  exists a,
    read_files_from_directory sample_directory = Ok a /\
    (0 <= duplicates_removed a)%Z /\
    (unique_records a <= total_records a)%Z.
Proof.
  destruct (read_files_from_directory sample_directory) as [a|e] eqn:E;
    [|vm_compute in E; discriminate].
  exists a. split; [reflexivity|].
  destruct (mapM event_key sample_records) as [ks|e] eqn:Eks;
    [|vm_compute in Eks; discriminate].
  destruct (duplicates_counter sample_directory sample_records ks a)
    as (H1 & H2 & _); [reflexivity|exact Eks|exact E|].
  split; assumption.
Defined.

(** X10. Files that are listed twice change the counters only: the run on
    a list of files followed by the same list returns the records of the
    run on the list, in the same order; [unique_records] is the same, and
    [total_records] is doubled. *)
Theorem same_files_twice :
  forall (file_paths : list (str * str)) (a : aggregate),
    read_files_from_directory file_paths = Ok a ->
    exists a2,
      read_files_from_directory (file_paths ++ file_paths) = Ok a2 /\
      returned a2 = returned a /\
      unique_records a2 = unique_records a /\
      total_records a2 = (2 * total_records a)%Z.
Proof.
  intros file_paths a Ha.
  destruct (read_returned _ _ Ha)
    as (Hret & Huni & _ & rs & ks & Hrs & Hks & Hrec & Htot).
  pose proof (decoded_records_app _ _ _ _ Hrs Hrs) as Hrs2.
  pose proof (mapM_app_Ok _ _ _ _ _ Hks Hks) as Hks2.
  destruct (process_files_records _ _ _ Hrs2 Hks2)
    as (a2 & Ha2 & Hrec2 & Hret2 & Htot2 & Huni2 & _).
  assert (E : Records a2 = Records a).
  { rewrite Hrec2, Hrec.
    rewrite combine_app_same by (now apply mapM_length in Hks).
    rewrite insert_all_app, insert_all_twice; [reflexivity|constructor]. }
  exists a2. split; [exact Ha2|]. split; [now rewrite Hret2, Hret, E|].
  split; [now rewrite Huni2, Huni, E|].
  rewrite Htot2, Htot, length_app. lia.
Qed.

Lemma same_files_twice_witness :
  exists a a2,
    read_files_from_directory sample_directory = Ok a /\
    read_files_from_directory (sample_directory ++ sample_directory)
    = Ok a2 /\
    returned a2 = returned a.
Proof.
  destruct (read_files_from_directory sample_directory) as [a|e] eqn:E;
    [|vm_compute in E; discriminate].
  destruct (same_files_twice sample_directory a E) as (a2 & Ha2 & Hret & _).
  exists a, a2. repeat split; assumption.
Defined.

(** X11. A file that starts with a byte order mark is not decoded: each of
    the three readers fails on it with JSONDecodeError, and so does the run
    when such a file, with one of the three extensions, is the first to be
    read. *)
Theorem byte_order_mark_fails :
  forall (file_path rest : str) (more : list (str * str)),
    read_json_file (65279%N :: rest) = Raise JSONDecodeError /\
    read_jsonl_file (65279%N :: rest) = Raise JSONDecodeError /\
    read_gz_file file_path (65279%N :: rest) = Raise JSONDecodeError /\
    (recognised (file_path, 65279%N :: rest) = true ->
     read_files_from_directory ((file_path, 65279%N :: rest) :: more)
     = Raise JSONDecodeError).
Proof.
  intros file_path rest more.
  destruct (readers_bom file_path rest) as (Hjson & Hjsonl & Hgz).
  repeat (split; [assumption|]).
  intros Hrec. unfold read_files_from_directory. cbn [process_files].
  destruct (decode_bom file_path rest) as [E|E].
  - apply (proj1 (decode_recognised _ _)) in E.
    discriminate (eq_trans (eq_sym Hrec) E).
  - rewrite E. reflexivity.
Qed.

Lemma byte_order_mark_fails_witness :
  read_files_from_directory
    [(lit "logs/bom.json", 65279%N :: jtext "{'Records': []}")]
  = Raise JSONDecodeError.
Proof.
  apply (byte_order_mark_fails (lit "logs/bom.json")
           (jtext "{'Records': []}") []).
  reflexivity.
Defined.

(** X12. The conversion of the event time loses no instant: two texts that
    are converted to the same text are read by [strptime] as the same date
    and time, whatever their spellings; and the text of a conversion has 25
    characters. *)
Theorem event_time_is_injective :
  forall s s' out : str,
    convert_event_time_to_local (JStr s) = Ok out ->
    convert_event_time_to_local (JStr s') = Ok out ->
    strptime s = strptime s' /\ length out = 25%nat.
Proof.
  intros s s' out H H'.
  destruct (convert_event_time_length _ _ H) as [_ Hlen].
  destruct (convert_event_time_Ok _ _ H) as (t & Ht & Hv & E).
  destruct (convert_event_time_Ok _ _ H') as (t' & Ht' & Hv' & E').
  split; [|exact Hlen]. rewrite Ht, Ht'. f_equal.
  apply plaso_time_inj; congruence.
Qed.

Lemma event_time_is_injective_witness :
  strptime (lit "2024-08-12T10:15:30Z") = strptime (lit "2024-8-12t10:15:30z")
  /\ length (lit "2024-08-12 10:15:30+00:00") = 25%nat.
Proof.
  apply (event_time_is_injective (lit "2024-08-12T10:15:30Z")
           (lit "2024-8-12t10:15:30z") (lit "2024-08-12 10:15:30+00:00"));
    vm_compute; reflexivity.
Defined.

(** X13. The conversion of the event time cannot be done twice: the text it
    gives is not a text it takes, it fails on it with ValueError. *)
Theorem event_time_conversion_is_not_idempotent :
  forall s out : str,
    convert_event_time_to_local (JStr s) = Ok out ->
    convert_event_time_to_local (JStr out) = Raise ValueError.
Proof.
  intros s out H.
  destruct (convert_event_time_Ok _ _ H) as (t & _ & Hv & ->).
  cbn [convert_event_time_to_local]. now rewrite strptime_plaso_time.
Qed.

Lemma event_time_conversion_is_not_idempotent_witness :
  convert_event_time_to_local (JStr (lit "2024-08-12 10:15:30+00:00"))
  = Raise ValueError.
Proof.
  apply (event_time_conversion_is_not_idempotent
           (lit "2024-08-12T10:15:30Z")).
  vm_compute. reflexivity.
Defined.

(** X14. The shape of an event.  Whenever a record is converted, the event
    is a dict with the nine keys [EventId], [EventName], [ReadOnly],
    [AccessKeyId], [EventTime], [EventSource], [Username], [Resources],
    [CloudTrailEvent], in this order; [EventId], [EventName] and
    [EventSource] are the values the record has under [eventID],
    [eventName] and [eventSource], unchanged; [ReadOnly] and
    [CloudTrailEvent] are texts, [EventTime] is a text of 25 characters and
    [Resources] is a list; and the record is a dict with a text under
    [eventTime] and a dict under [userIdentity]. *)
Theorem event_shape :
  forall record event : json,
    convert_record record = Ok event ->
    (exists d, event = JObj d /\ map fst d = event_keys) /\
    getitem event (lit "EventId") = getitem record (lit "eventID") /\
    getitem event (lit "EventName") = getitem record (lit "eventName") /\
    getitem event (lit "EventSource") = getitem record (lit "eventSource") /\
    (exists ro time resources text,
        getitem event (lit "ReadOnly") = Ok (JStr ro) /\
        getitem event (lit "EventTime") = Ok (JStr time) /\
        length time = 25%nat /\
        getitem event (lit "Resources") = Ok (JArr resources) /\
        getitem event (lit "CloudTrailEvent") = Ok (JStr text)) /\
    (exists fields time identity,
        record = JObj fields /\
        jget (lit "eventTime") fields = Some (JStr time) /\
        jget (lit "userIdentity") fields = Some (JObj identity)).
Proof.
  intros record event Hconv.
  destruct (convert_record_inv _ _ Hconv)
    as (et & local & id & name & rov & ro & identity & akid & source & user
        & resources & items & rs & E1 & E2 & E3 & E4 & E5 & E6 & E7 & E8 &
        E9 & E10 & E11 & E12 & E13 & ->).
  destruct (convert_event_time_length _ _ E2) as [[time ->] Hlen].
  split; [eexists; split; reflexivity|].
  rewrite E3, E4, E9. repeat (split; [reflexivity|]). split.
  - exists ro, local, rs, (squeeze record).
    repeat split; try reflexivity. exact Hlen.
  - destruct (getitem_Ok _ _ _ E1) as (fields & -> & Htime).
    destruct (get_default_Ok _ _ _ _ E8) as [d ->].
    destruct (getitem_Ok _ _ _ E7) as (fields' & Hf & Hid).
    injection Hf as <-. now exists fields, time, d.
Qed.

Lemma event_shape_witness :
  exists event d,
    convert_record (JObj sample_fields) = Ok event /\
    event = JObj d /\ map fst d = event_keys.
Proof.
  destruct (convert_record (JObj sample_fields)) as [event|e] eqn:E;
    [|vm_compute in E; discriminate].
  destruct (event_shape (JObj sample_fields) event E) as [(d & Hd & Hkeys) _].
  now exists event, d.
Defined.

(** X15. The default of [resources] stands for a missing key only: a
    record that is converted is not converted any more once it has
    ["resources": null], the conversion fails with TypeError. *)
Theorem resources_null_fails :
  forall (fields : list (str * json)) (event : json),
    jget (lit "resources") fields = None ->
    convert_record (JObj fields) = Ok event ->
    convert_record (JObj (jset (lit "resources") JNull fields))
    = Raise TypeError.
Proof.
  intros fields event Hnone Hconv.
  now apply (convert_record_resources fields event JNull TypeError).
Qed.

Lemma resources_null_fails_witness :
  convert_record (JObj (jset (lit "resources") JNull sample_fields_b))
  = Raise TypeError.
Proof.
  destruct (convert_record (JObj sample_fields_b)) as [event|e] eqn:E;
    [|vm_compute in E; discriminate].
  apply (resources_null_fails sample_fields_b event); [reflexivity|exact E].
Defined.

(** X16. The run writes nothing unless all of the input is read and
    converted: when the Aggregator fails, or when one of the records it
    returns is not converted, [main] fails and the file system is as it
    was, without the directory of the output path even.  Only the records
    the Aggregator returns are converted: when these are, [main] goes on to
    write their events, whatever the records they have replaced. *)
Theorem main_writes_after_all_is_read :
  forall (input_files : list (str * str)) (output_filepath : str)
         (fs : filesystem),
    (forall e,
        read_files_from_directory input_files = Raise e ->
        main input_files output_filepath fs = (Raise e, fs)) /\
    (forall a,
        read_files_from_directory input_files = Ok a ->
        Exists (fun r => exists e, convert_record r = Raise e) (Records a) ->
        exists e, main input_files output_filepath fs = (Raise e, fs)) /\
    (forall a events,
        read_files_from_directory input_files = Ok a ->
        mapM convert_record (Records a) = Ok events ->
        main input_files output_filepath fs
        = write_events_to_jsonl events output_filepath fs).
Proof.
  intros input_files p fs. rewrite main_steps. split; [|split].
  - intros e ->. reflexivity.
  - intros a -> Hbad. destruct (mapM_Exists_Raise _ _ Hbad) as [e ->].
    now exists e.
  - intros a events -> ->. reflexivity.
Qed.

Lemma main_writes_after_all_is_read_witness :
  (exists e,
      main [(lit "logs/bad.json",
             jtext "{'Records': [{'eventID': 'a', 'eventTime': 'yesterday'}]}")]
        (lit "out/events.jsonl") empty_fs = (Raise e, empty_fs)) /\
  main directory_with_bad_record (lit "out/events.jsonl") empty_fs
  = write_events_to_jsonl events_after_bad_record (lit "out/events.jsonl")
      empty_fs.
Proof.
  split.
  - destruct (main_writes_after_all_is_read
                [(lit "logs/bad.json",
                  jtext "{'Records': [{'eventID': 'a', 'eventTime': 'yesterday'}]}")]
                (lit "out/events.jsonl") empty_fs) as (_ & Hbad & _).
    eapply Hbad; [vm_compute; reflexivity|].
    apply Exists_cons_hd. exists ValueError. vm_compute. reflexivity.
  - destruct (main_writes_after_all_is_read directory_with_bad_record
                (lit "out/events.jsonl") empty_fs) as (_ & _ & Hgood).
    apply (Hgood aggregate_after_bad_record); vm_compute; reflexivity.
Defined.

(** X17. A whole run.  When the Aggregator returns records that are all
    converted, at least one and at most 500000, and the output path has a
    directory that can be made and is free for a file, [main] returns and
    the file of the output path holds the lines of the events of the
    returned records, in their order: as many lines as [unique_records];
    and when the returned records are plain, the file decodes, with
    [read_jsonl_file], to these events. *)
Theorem main_end_to_end :
  forall (input_files : list (str * str)) (a : aggregate)
         (events : list json) (output_filepath : str) (fs : filesystem)
         (nd np : node),
    read_files_from_directory input_files = Ok a ->
    mapM convert_record (Records a) = Ok events ->
    (1 <= length events <= chunk_size)%nat ->
    no_slash output_filepath = false ->
    resolve (dirname output_filepath) = Ok nd ->
    no_file_on fs nd ->
    resolve output_filepath = Ok np -> np <> nd ->
    is_dir fs np = false -> endswith output_filepath [slash] = false ->
    exists fs',
      main input_files output_filepath fs = (Ok tt, fs') /\
      file_at fs' output_filepath = Some (lines_of events) /\
      Z.of_nat (count_lines (lines_of events)) = unique_records a /\
      Forall2 (fun r event => convert_record r = Ok event) (Records a)
        events /\
      (forallb plain_value (Records a) = true ->
       read_jsonl_file (lines_of events)
       = Ok (JObj [(Records_key, JArr events)])).
Proof.
  intros input_files a events p fs nd np Ha Hev Hn Hslash Hnd Hnf Hnp Hne
    Hdir Hend.
  destruct (writer_single_file events p fs nd np Hslash Hnd Hnf Hn Hnp Hne
              Hdir Hend) as (fs' & Hrun & Hfile & _).
  destruct (read_returned _ _ Ha) as (_ & Huni & _).
  exists fs'. split; [now rewrite main_steps, Ha, Hev|].
  split; [exact Hfile|]. split.
  - now rewrite count_lines_of, Huni, (mapM_length _ _ _ Hev).
  - split; [now apply mapM_Forall2|].
    intros Hplain. apply read_lines_of.
    exact (plain_mapM _ _ _ _ plain_convert_record Hplain Hev).
Qed.

Lemma main_end_to_end_witness :
  exists fs',
    main directory_with_bad_record (lit "out/events.jsonl") empty_fs
    = (Ok tt, fs') /\
    file_at fs' (lit "out/events.jsonl")
    = Some (lines_of events_after_bad_record) /\
    Z.of_nat (count_lines (lines_of events_after_bad_record)) = 2%Z.
Proof.
  assert (Hlen : length events_after_bad_record = 2%nat)
    by (vm_compute; reflexivity).
  destruct (main_end_to_end directory_with_bad_record
              aggregate_after_bad_record events_after_bad_record
              (lit "out/events.jsonl") empty_fs [lit "out"]
              [lit "out"; lit "events.jsonl"])
    as (fs' & Hrun & Hfile & Hcount & _).
  - vm_compute. reflexivity.
  - vm_compute. reflexivity.
  - rewrite Hlen. pose proof chunk_size_Z. lia.
  - reflexivity.
  - reflexivity.
  - intros q _. reflexivity.
  - reflexivity.
  - discriminate.
  - reflexivity.
  - reflexivity.
  - exists fs'. split; [exact Hrun|]. split; [exact Hfile|].
    rewrite Hcount. reflexivity.
Defined.

(** X18. Nothing is lost between the parts: with more than 500000 events
    the Writer writes the parts [_part1] to [_partN], [N] being the number
    of started runs of 500000 events, and the texts of these files, one
    after the other, are the lines of all the events in their order. *)
Theorem parts_make_the_whole :
  forall (events : list json) (output_filepath : str) (fs : filesystem)
         (nd : node),
    no_slash output_filepath = false ->
    resolve (dirname output_filepath) = Ok nd ->
    no_file_on fs nd ->
    (chunk_size < length events)%nat ->
    (forall k q, part_exists (length events) k ->
                 resolve (part_path output_filepath (Z.of_nat k)) = Ok q ->
                 is_dir fs q = false) ->
    exists fs' texts,
      write_events_to_jsonl events output_filepath fs = (Ok tt, fs') /\
      Forall2 (fun k text =>
                 file_at fs' (part_path output_filepath (Z.of_nat k))
                 = Some text)
        (seq 1 (part_count (length events))) texts /\
      concat texts = lines_of events /\
      (forall k, part_exists (length events) k
                 <-> (1 <= k <= part_count (length events))%nat).
Proof.
  intros events p fs nd Hslash Hnd Hnf Hn Hdir.
  destruct (writer_parts events p fs nd Hslash Hnd Hnf Hn Hdir)
    as (fs' & Hrun & Hparts & _).
  destruct (parts_concat events) as [Hk Hconcat].
  exists fs', (map (fun k => lines_of (part_events events k))
                 (seq 1 (part_count (length events)))).
  split; [exact Hrun|]. split; [|split; [exact Hconcat|exact Hk]].
  clear Hconcat.
  assert (H : forall k, In k (seq 1 (part_count (length events))) ->
                file_at fs' (part_path p (Z.of_nat k))
                = Some (lines_of (part_events events k))).
  { intros k Hin. apply Hparts, Hk. apply in_seq in Hin. lia. }
  induction (seq 1 (part_count (length events))) as [|k l IH];
    cbn [map]; constructor.
  - apply H. now left.
  - apply IH. intros k' Hk'. apply H. now right.
Qed.

Lemma parts_make_the_whole_witness :
  exists fs' texts,
    write_events_to_jsonl many_events (lit "out/events.jsonl") empty_fs
    = (Ok tt, fs') /\
    concat texts = lines_of many_events.
Proof.
  assert (Hlen : length many_events = S chunk_size)
    by apply repeat_length.
  destruct (parts_make_the_whole many_events (lit "out/events.jsonl")
              empty_fs [lit "out"])
    as (fs' & texts & Hrun & _ & Hconcat & _).
  - reflexivity.
  - reflexivity.
  - intros q _. reflexivity.
  - rewrite Hlen. lia.
  - intros k q _ Hq.
    rewrite (resolve_part_path (lit "out/events.jsonl") [lit "out"])
      in Hq by reflexivity.
    injection Hq as <-. reflexivity.
  - exists fs', texts. split; [exact Hrun|exact Hconcat].
Defined.

(** X19. [json.loads] undoes [json.dumps]: the text of a value whose texts
    are characters of Python without a high surrogate, and whose dicts have
    one entry per key, is read back as the value. *)
Theorem loads_inverts_dumps :
  forall j : json,
    plain_value j = true -> json_loads (json_dumps j) = Ok j.
Proof.
  intros j Hj. rewrite <- (app_nil_r (json_dumps j)).
  now apply json_loads_json_dumps.
Qed.

Lemma loads_inverts_dumps_witness :
  json_loads (json_dumps (JObj sample_fields)) = Ok (JObj sample_fields).
Proof.
  apply loads_inverts_dumps. vm_compute. reflexivity.
Defined.

(** ** What the Writer leaves alone *)

Lemma keeps_dirs_bind {A B} (m : io A) (k : A -> io B) :
  keeps_dirs m -> (forall a, keeps_dirs (k a)) -> keeps_dirs (io_bind m k).
Proof.
  intros Hm Hk fs. unfold io_bind. specialize (Hm fs).
  destruct (m fs) as [[a|e] fs']; cbn [snd] in *; [|exact Hm].
  eapply incl_tran; [exact Hm|apply Hk].
Qed.

Lemma keeps_dirs_mkdir (p : str) : keeps_dirs (mkdir p).
Proof.
  intros fs. unfold mkdir, io_bind.
  pose proof (lookup_state p fs) as Hl.
  destruct (lookup p fs) as [[n|e] fs']; cbn [snd] in *; subst fs';
    [|apply incl_refl].
  destruct (is_dir fs n || is_file fs n); cbn [snd dirs];
    [apply incl_refl|apply incl_appl, incl_refl].
Qed.

Lemma keeps_dirs_mkdir_exist_ok (name : str) :
  keeps_dirs (mkdir_exist_ok name).
Proof.
  intros fs. unfold mkdir_exist_ok.
  pose proof (keeps_dirs_mkdir name fs) as Hm.
  destruct (mkdir name fs) as [[[]|e] fs']; cbn [snd] in *; [assumption|].
  pose proof (path_isdir_state name fs') as Hi.
  destruct e; try assumption;
    destruct (path_isdir name fs') as [[[|]|e'] fs'']; cbn [snd] in *;
    subst; assumption.
Qed.

Lemma keeps_dirs_makedirs (fuel : nat) (name : str) :
  keeps_dirs (makedirs fuel name).
Proof.
  revert name. induction fuel as [|fuel IH]; intros name;
    [intros fs; apply incl_refl|].
  cbn [makedirs]. destruct (makedirs_split name) as [head tail].
  destruct head as [|h head]; [apply keeps_dirs_mkdir_exist_ok|].
  destruct tail as [|t tail]; [apply keeps_dirs_mkdir_exist_ok|].
  apply keeps_dirs_bind.
  - intros fs. rewrite path_exists_state. apply incl_refl.
  - intros [|]; [apply keeps_dirs_mkdir_exist_ok|].
    apply keeps_dirs_bind.
    + intros fs. specialize (IH (h :: head) fs).
      destruct (makedirs fuel (h :: head) fs) as [[u|[]] fs']; exact IH.
    + intros _. destruct (str_eq_dec (t :: tail) dot);
        [intros fs; apply incl_refl|apply keeps_dirs_mkdir_exist_ok].
Qed.

Lemma is_dir_incl (fs fs' : filesystem) (d : node) :
  incl (dirs fs) (dirs fs') -> is_dir fs d = true -> is_dir fs' d = true.
Proof.
  intros Hincl. unfold is_dir. destruct d as [|[|c x] [|y d]]; trivial;
    destruct (in_dec node_eq_dec _ (dirs fs)) as [Hin|]; try discriminate;
    intros _; apply Hincl in Hin;
    destruct (in_dec node_eq_dec _ (dirs fs')); tauto.
Qed.

Lemma lookup_Ok (p : str) (fs : filesystem) (n : node) :
  fst (lookup p fs) = Ok n -> resolve p = Ok n.
Proof.
  unfold lookup. destruct p as [|c p]; [discriminate|].
  unfold io_bind, lift. destruct (resolve (c :: p)) as [m|e];
    [|discriminate].
  cbn [fst]. destruct (walk fs [] m); cbn [bind]; [|discriminate].
  intros E. now injection E as <-.
Qed.

(** Opening a file changes the file of the path at most. *)
Lemma open_w_touch (p : str) (fs : filesystem) :
  dirs (snd (open_w p fs)) = dirs fs /\
  (forall q, resolve p <> Ok q ->
     dict_get node_eq_dec q (files (snd (open_w p fs)))
     = dict_get node_eq_dec q (files fs)) /\
  (forall n, fst (open_w p fs) = Ok n -> resolve p = Ok n).
Proof.
  unfold open_w, io_bind.
  pose proof (lookup_state p fs) as Hs. pose proof (lookup_Ok p fs) as Hr.
  destruct (lookup p fs) as [[n|e] fs']; cbn [fst snd] in *; subst fs';
    [|repeat split; discriminate].
  specialize (Hr n eq_refl).
  destruct (is_dir fs n); [repeat split; discriminate|].
  destruct (endswith p [slash]); [repeat split; discriminate|].
  cbn [fst snd dirs files]. split; [reflexivity|]. split.
  - intros q Hq. apply dict_get_set_other. congruence.
  - intros m E. now injection E as <-.
Qed.

(** Writing changes the file of the handle only. *)
Lemma file_write_touch (f : option node) (data : str) (fs : filesystem) :
  dirs (snd (file_write f data fs)) = dirs fs /\
  (forall q, f <> Some q ->
     dict_get node_eq_dec q (files (snd (file_write f data fs)))
     = dict_get node_eq_dec q (files fs)).
Proof.
  destruct f as [n|]; [|split; reflexivity].
  cbn [file_write snd dirs files]. split; [reflexivity|].
  intros q Hq. apply dict_get_set_other. congruence.
Qed.

(** The loop of the Writer changes the files it opens only, and no
    directory, however it ends. *)
Lemma write_loop_touch (p : str) (multiple_files : bool)
    (events : list json) :
  forall (file_index line_count : Z) (output_file : option node)
         (fs : filesystem),
    (forall n, output_file = Some n ->
               exists k, resolve (path_of p multiple_files k) = Ok n) ->
    let fs' := snd (write_loop p multiple_files events file_index line_count
                      output_file fs) in
    dirs fs' = dirs fs /\
    forall q, (forall k, resolve (path_of p multiple_files k) <> Ok q) ->
      dict_get node_eq_dec q (files fs') = dict_get node_eq_dec q (files fs).
Proof.
  induction events as [|event events IH];
    intros file_index line_count output_file fs Hout;
    [split; reflexivity|].
  cbv zeta. cbn [write_loop].
  set (step := if line_count mod 500000 =? 0 then _ else _).
  set (rest := fun x : Z * option node => _).
  change ((io_bind step rest) fs)
    with (match step fs with
          | (Ok a, fs1) => rest a fs1
          | (Raise e, fs1) => (Raise e, fs1)
          end).
  assert (Hstep :
    match step fs with
    | (Ok (fi, out), fs1) =>
        dirs fs1 = dirs fs /\
        (forall q, (forall k, resolve (path_of p multiple_files k) <> Ok q) ->
           dict_get node_eq_dec q (files fs1)
           = dict_get node_eq_dec q (files fs)) /\
        (forall n, out = Some n ->
           exists k, resolve (path_of p multiple_files k) = Ok n)
    | (Raise _, fs1) =>
        dirs fs1 = dirs fs /\
        (forall q, (forall k, resolve (path_of p multiple_files k) <> Ok q) ->
           dict_get node_eq_dec q (files fs1)
           = dict_get node_eq_dec q (files fs))
    end).
  { unfold step. destruct (line_count mod 500000 =? 0).
    - unfold io_bind, io_ret.
      change (if multiple_files
              then (p ++ lit "_part" ++ repr_int (file_index + 1))%list
              else p)
        with (path_of p multiple_files (file_index + 1)).
      destruct (open_w_touch (path_of p multiple_files (file_index + 1)) fs)
        as (Hd & Hf & Hn).
      destruct (open_w (path_of p multiple_files (file_index + 1)) fs)
        as [[n|e] fs1]; cbn [fst snd] in *.
      + split; [exact Hd|]. split.
        * intros q Hq. apply Hf, Hq.
        * intros m E. injection E as <-. exists (file_index + 1).
          now apply Hn.
      + split; [exact Hd|]. intros q Hq. apply Hf, Hq.
    - unfold io_ret. split; [reflexivity|]. split; [reflexivity|exact Hout]. }
  destruct (step fs) as [[[fi out]|e] fs1]; [|exact Hstep].
  destruct Hstep as (Hd1 & Hf1 & Hout1).
  unfold rest.
  change ((io_bind (file_write out (json_dumps event ++ [10%N]))
             (fun _ => write_loop p multiple_files events fi
                         (line_count + 1) out)) fs1)
    with (match file_write out (json_dumps event ++ [10%N]) fs1 with
          | (Ok _, fs2) =>
              write_loop p multiple_files events fi (line_count + 1) out fs2
          | (Raise e, fs2) => (Raise e, fs2)
          end).
  destruct (file_write_touch out (json_dumps event ++ [10%N]) fs1)
    as [Hd2 Hf2].
  destruct (file_write out (json_dumps event ++ [10%N]) fs1)
    as [[u|e] fs2]; cbn [snd] in *.
  - destruct (IH fi (line_count + 1) out fs2 Hout1) as [Hd3 Hf3].
    split; [congruence|]. intros q Hq.
    rewrite (Hf3 q Hq), Hf2, (Hf1 q Hq); [reflexivity|].
    intros E. destruct (Hout1 q E) as [k Hk]. exact (Hq k Hk).
  - split; [congruence|]. intros q Hq.
    rewrite Hf2, (Hf1 q Hq); [reflexivity|].
    intros E. destruct (Hout1 q E) as [k Hk]. exact (Hq k Hk).
Qed.

(** The Writer, however it ends, changes no file but the output file and
    its parts, and removes no directory. *)
Lemma writer_touch (events : list json) (output_filepath : str)
    (fs : filesystem) :
  (forall d, is_dir fs d = true ->
     is_dir (snd (write_events_to_jsonl events output_filepath fs)) d = true)
  /\
  (forall q,
     resolve output_filepath <> Ok q ->
     (forall k, resolve (part_path output_filepath k) <> Ok q) ->
     dict_get node_eq_dec q
       (files (snd (write_events_to_jsonl events output_filepath fs)))
     = dict_get node_eq_dec q (files fs)).
Proof.
  unfold write_events_to_jsonl.
  set (target := dirname output_filepath).
  set (multiple_files := Z.of_nat (length events) >? 500000).
  set (loop := write_loop output_filepath multiple_files events 0 0 None).
  change ((io_bind (makedirs (S (length target)) target)
             (fun _ => io_bind loop (fun _ => io_ret tt))) fs)
    with (match makedirs (S (length target)) target fs with
          | (Ok _, fs1) =>
              match loop fs1 with
              | (Ok _, fs2) => (Ok tt, fs2)
              | (Raise e, fs2) => (Raise e, fs2)
              end
          | (Raise e, fs1) => (Raise e, fs1)
          end).
  pose proof (keeps_dirs_makedirs (S (length target)) target fs) as Hd.
  pose proof (keeps_files_makedirs (S (length target)) target fs) as Hf.
  destruct (makedirs (S (length target)) target fs) as [[u|e] fs1];
    cbn [snd] in *.
  - assert (Hnone : forall n, @None node = Some n ->
              exists k, resolve (path_of output_filepath multiple_files k)
                        = Ok n) by discriminate.
    pose proof (write_loop_touch output_filepath multiple_files events
                  0 0 None fs1 Hnone) as H.
    cbv zeta in H. fold loop in H. destruct H as [Hd2 Hf2].
    assert (E : snd match loop fs1 with
                    | (Ok _, fs2) => (Ok tt, fs2)
                    | (Raise e, fs2) => (Raise e, fs2)
                    end = snd (loop fs1))
      by (destruct (loop fs1) as [[o|e] fs2]; reflexivity).
    rewrite E. split.
    + intros d Hdir. apply (is_dir_incl fs); [|exact Hdir].
      rewrite Hd2. exact Hd.
    + intros q Hq Hparts. rewrite Hf2, Hf; [reflexivity|].
      intros k. unfold path_of. destruct multiple_files;
        [apply Hparts|exact Hq].
  - split.
    + intros d. now apply is_dir_incl.
    + intros q _ _. now rewrite Hf.
Qed.

(** X20. A run, however it ends, leaves every file but the output file
    and its parts [<output>_part<k>] as it was, and every directory in
    place: a failure of the reading, of the conversion or of the writing
    cannot damage anything else. *)
Theorem main_touches_only_the_output
    (input_files : list (str * str)) (output_filepath : str)
    (fs : filesystem) :
  (forall d, is_dir fs d = true ->
     is_dir (snd (main input_files output_filepath fs)) d = true) /\
  (forall q,
     resolve output_filepath <> Ok q ->
     (forall k, resolve (part_path output_filepath k) <> Ok q) ->
     dict_get node_eq_dec q
       (files (snd (main input_files output_filepath fs)))
     = dict_get node_eq_dec q (files fs)).
Proof.
  unfold main, io_bind, lift.
  destruct (a <- read_files_from_directory input_files ;; Ok (returned a))
    as [cloudtrail_data|e]; [|split; [trivial|reflexivity]].
  destruct (convert_cloudtrail_to_plaso cloudtrail_data) as [events|e];
    [|split; [trivial|reflexivity]].
  apply writer_touch.
Qed.

(** ** The order of the files *)

Lemma mapM_Permutation {A B} (f : A -> result B) (l l' : list A) :
  Permutation l l' ->
  forall bs, mapM f l = Ok bs ->
  exists bs', mapM f l' = Ok bs' /\ Permutation bs bs'.
Proof.
  induction 1 as [|x l l' _ IH|x y l|l l' l'' _ IH1 _ IH2]; intros bs;
    cbn [mapM].
  - intros E. injection E as <-. now exists [].
  - destruct (f x) as [b|e]; cbn [bind]; [|discriminate].
    destruct (mapM f l) as [cs|e]; cbn [bind]; [|discriminate].
    intros E. injection E as <-.
    destruct (IH cs eq_refl) as (cs' & -> & Hp). cbn [bind].
    exists (b :: cs'). split; [reflexivity|now constructor].
  - destruct (f y) as [b|e]; cbn [bind]; [|discriminate].
    destruct (f x) as [c|e]; cbn [bind]; [|discriminate].
    destruct (mapM f l) as [cs|e]; cbn [bind]; [|discriminate].
    intros E. injection E as <-.
    exists (c :: b :: cs). split; [reflexivity|constructor].
  - intros E. destruct (IH1 bs E) as (bs' & E' & Hp).
    destruct (IH2 bs' E') as (bs'' & E'' & Hp').
    exists bs''. split; [exact E''|]. now apply (Permutation_trans Hp).
Qed.

Lemma decoded_records_Permutation (l l' : list (str * str)) :
  Permutation l l' ->
  forall rs, decoded_records l = Ok rs ->
  exists rs', decoded_records l' = Ok rs' /\ Permutation rs rs'.
Proof.
  induction 1 as [|[p t] l l' _ IH|[p t] [p' t'] l|l l' l'' _ IH1 _ IH2];
    intros rs; cbn [decoded_records].
  - intros E. injection E as <-. now exists [].
  - destruct (decode p t) as [[records|e]|]; cbn [bind];
      [|discriminate|apply IH].
    destruct (iterate records) as [items|e]; cbn [bind]; [|discriminate].
    destruct (decoded_records l) as [more|e]; cbn [bind]; [|discriminate].
    intros E. injection E as <-.
    destruct (IH more eq_refl) as (more' & -> & Hp). cbn [bind].
    exists (items ++ more')%list. split; [reflexivity|].
    now apply Permutation_app_head.
  - destruct (decode p' t') as [[records'|e]|]; cbn [bind];
      [|discriminate|].
    + destruct (iterate records') as [items'|e]; cbn [bind];
        [|discriminate].
      destruct (decode p t) as [[records|e]|]; cbn [bind];
        [|discriminate|].
      * destruct (iterate records) as [items|e]; cbn [bind];
          [|discriminate].
        destruct (decoded_records l) as [more|e]; cbn [bind];
          [|discriminate].
        intros E. injection E as <-.
        exists (items ++ items' ++ more)%list. split; [reflexivity|].
        rewrite !app_assoc. apply Permutation_app_tail.
        apply Permutation_app_comm.
      * destruct (decoded_records l) as [more|e]; cbn [bind];
          [|discriminate].
        intros E. injection E as <-. eexists. split; reflexivity.
    + destruct (decode p t) as [[records|e]|]; cbn [bind];
        [|discriminate|].
      * destruct (iterate records) as [items|e]; cbn [bind];
          [|discriminate].
        destruct (decoded_records l) as [more|e]; cbn [bind];
          [|discriminate].
        intros E. injection E as <-. eexists. split; reflexivity.
      * intros E. exists rs. split; [exact E|reflexivity].
  - intros E. destruct (IH1 rs E) as (rs' & E' & Hp).
    destruct (IH2 rs' E') as (rs'' & E'' & Hp').
    exists rs''. split; [exact E''|]. now apply (Permutation_trans Hp).
Qed.

Lemma first_occurrences_Permutation (ks ks' : list pykey) :
  Permutation ks ks' ->
  Permutation (first_occurrences ks) (first_occurrences ks').
Proof.
  intros Hp. apply NoDup_Permutation; try apply first_occurrences_NoDup.
  intros k. rewrite !first_occurrences_In.
  split; apply Permutation_in; [exact Hp|now apply Permutation_sym].
Qed.

(** X21. The order in which the files are listed changes neither whether
    the run of the Aggregator returns nor its three counters nor the event
    identifiers of the records it returns: a run on the same files in
    another order returns as many records, with the same identifiers. *)
Theorem file_order_keeps_counters :
  forall (file_paths file_paths' : list (str * str)) (a : aggregate),
    Permutation file_paths file_paths' ->
    read_files_from_directory file_paths = Ok a ->
    exists a' ks ks',
      read_files_from_directory file_paths' = Ok a' /\
      total_records a' = total_records a /\
      unique_records a' = unique_records a /\
      duplicates_removed a' = duplicates_removed a /\
      mapM event_key (Records a) = Ok ks /\
      mapM event_key (Records a') = Ok ks' /\
      Permutation ks ks'.
Proof.
  intros file_paths file_paths' a Hperm Ha.
  destruct (read_returned _ _ Ha)
    as (_ & Huni & Hdup & rs & ks & Hrs & Hks & Hrec & Htot).
  destruct (decoded_records_Permutation _ _ Hperm rs Hrs)
    as (rs' & Hrs' & Hprs).
  destruct (mapM_Permutation event_key rs rs' Hprs ks Hks)
    as (ks' & Hks' & Hpks).
  destruct (process_files_records _ _ _ Hrs' Hks')
    as (a' & Ha' & Hrec' & _ & Htot' & Huni' & Hdup').
  destruct (index_of_records rs ks Hks) as (_ & Hkeys & _).
  destruct (index_of_records rs' ks' Hks') as (_ & Hkeys' & _).
  cbv zeta in Hkeys, Hkeys'. rewrite <- Hrec in Hkeys.
  rewrite <- Hrec' in Hkeys'.
  pose proof (first_occurrences_Permutation ks ks' Hpks) as Hfirst.
  assert (Hlen : length (Records a') = length (Records a)).
  { rewrite <- (mapM_length _ _ _ Hkeys), <- (mapM_length _ _ _ Hkeys').
    symmetry. now apply Permutation_length. }
  assert (Hlen' : length rs' = length rs)
    by (symmetry; now apply Permutation_length).
  exists a', (first_occurrences ks), (first_occurrences ks').
  split; [exact Ha'|].
  split; [now rewrite Htot', Htot, Hlen'|].
  split; [now rewrite Huni', Huni, Hlen|].
  split; [now rewrite Hdup', Hdup, Htot', Htot, Huni', Huni, Hlen, Hlen'|].
  repeat split; assumption.
Qed.

Lemma file_order_keeps_counters_witness :
  exists a a',
    read_files_from_directory sample_directory = Ok a /\
    read_files_from_directory (rev sample_directory) = Ok a' /\
    total_records a' = total_records a /\
    unique_records a' = unique_records a.
Proof.
  destruct (read_files_from_directory sample_directory) as [a|e] eqn:E;
    [|vm_compute in E; discriminate].
  destruct (file_order_keeps_counters sample_directory
              (rev sample_directory) a (Permutation_rev _) E)
    as (a' & _ & _ & Ha' & Htot & Huni & _).
  exists a, a'. repeat split; assumption.
Defined.
